(** * Blackjack table logic of [app.py]: hands, shoe, round engine, payouts

    A shallow embedding of the game core of the Streamlit blackjack table
    ([Deck], [Hand], the button handlers that mutate [st.session_state] and
    [apply_payouts]) together with the properties of its rules.

    Conventions of the embedding:
    - Python [int] is [Z]; list positions and the ace counter are [nat].
    - A Python list is a [list] in the same order: [append] adds at the
      end and [pop()] removes the last element.
    - A Python [dict] is an association list in insertion order
      ([dict_get], [dict_set]); iteration follows that order.
    - A handler that can raise ([KeyError], [IndexError], attribute access
      on [None]) returns [option]; [None] is the uncaught exception.
    - [random.shuffle] is an arbitrary permutation drawn from an oracle
      indexed by the number of shuffles performed so far. *)

From Stdlib Require Import ZArith List Lia Bool String.
From stdpp Require Import base option list strings.
From Equations Require Import Equations.

Local Open Scope Z_scope.

(** ** Constants *)

Inductive Suit := Spades | Hearts | Diamonds | Clubs.

Inductive Rank :=
  | Ace | Two | Three | Four | Five | Six | Seven | Eight | Nine | Ten
  | Jack | Queen | King.

#[global] Instance Suit_eq_dec : EqDecision Suit.
Proof. solve_decision. Defined.

#[global] Instance Rank_eq_dec : EqDecision Rank.
Proof. solve_decision. Defined.

Definition SUITS : list Suit := [Spades; Hearts; Diamonds; Clubs].

Definition RANKS : list Rank :=
  [Ace; Two; Three; Four; Five; Six; Seven; Eight; Nine; Ten; Jack; Queen; King].

Definition CARD_VALUES (r : Rank) : Z :=
  match r with
  | Ace => 11
  | Two => 2
  | Three => 3
  | Four => 4
  | Five => 5
  | Six => 6
  | Seven => 7
  | Eight => 8
  | Nine => 9
  | Ten => 10
  | Jack => 10
  | Queen => 10
  | King => 10
  end.

Definition STARTING_CHIPS : Z := 1000.
Definition MIN_BET : Z := 50.

(** A card is the tuple [(rank, suit)]. *)
Definition Card : Type := Rank * Suit.

(** ** Hand *)

Record Hand := mkHand {
  cards : list Card;
  bet : Z;
  is_standing : bool;
  is_bust : bool;
  is_blackjack : bool;
  doubled : bool
}.

(** [Hand.__init__] *)
Definition Hand_new : Hand := mkHand [] 0 false false false false.

Definition set_cards (h : Hand) (cs : list Card) : Hand :=
  mkHand cs (bet h) (is_standing h) (is_bust h) (is_blackjack h) (doubled h).

Definition set_bet (h : Hand) (b : Z) : Hand :=
  mkHand (cards h) b (is_standing h) (is_bust h) (is_blackjack h) (doubled h).

Definition set_standing (h : Hand) (b : bool) : Hand :=
  mkHand (cards h) (bet h) b (is_bust h) (is_blackjack h) (doubled h).

Definition set_doubled (h : Hand) (b : bool) : Hand :=
  mkHand (cards h) (bet h) (is_standing h) (is_bust h) (is_blackjack h) b.

(** Body of the [for rank, _ in self.cards] loop of [get_value]: the pair is
    [(value, aces)]. *)
Definition count_card (acc : Z * nat) (c : Card) : Z * nat :=
  if bool_decide (c.1 = Ace)
  then (acc.1 + 11, S acc.2)
  else (acc.1 + CARD_VALUES c.1, acc.2).

(** [while value > 21 and aces: value -= 10; aces -= 1] *)
Fixpoint downgrade (value : Z) (aces : nat) : Z :=
  match aces with
  | O => value
  | S aces' => if 21 <? value then downgrade (value - 10) aces' else value
  end.

Definition cards_value (cs : list Card) : Z :=
  let acc := fold_left count_card cs (0, O) in
  downgrade acc.1 acc.2.

(** [Hand.get_value] *)
Definition get_value (h : Hand) : Z := cards_value (cards h).

(** [Hand._update_states] *)
Definition update_states (h : Hand) : Hand :=
  let value := get_value h in
  mkHand (cards h) (bet h) (is_standing h)
         (21 <? value)
         ((length (cards h) =? 2)%nat && (value =? 21))
         (doubled h).

(** [Hand.add_card] *)
Definition add_card (h : Hand) (card : Card) : Hand :=
  let h1 := update_states (set_cards h (cards h ++ [card])) in
  if get_value h1 =? 21 then set_standing h1 true else h1.

(** [Hand.can_split] *)
Definition can_split (h : Hand) : bool :=
  if negb (length (cards h) =? 2)%nat then false
  else match cards h !! 0%nat, cards h !! 1%nat with
       | Some c1, Some c2 => bool_decide (c1.1 = c2.1)
       | _, _ => false
       end.

(** [Hand.can_double] *)
Definition can_double (h : Hand) : bool :=
  (length (cards h) =? 2)%nat && negb (doubled h).

(** [playable = not current_hand.is_bust and not current_hand.is_standing] *)
Definition playable (h : Hand) : bool :=
  negb (is_bust h) && negb (is_standing h).

(** ** Dictionaries in insertion order *)

Abbreviation dict V := (list (string * V)).

Section Dict.
Context {V : Type}.

(** [d[k]]; [None] is the [KeyError]. *)
Fixpoint dict_get (d : dict V) (k : string) : option V :=
  match d with
  | [] => None
  | (k', v) :: d' => if bool_decide (k' = k) then Some v else dict_get d' k
  end.

(** [d[k] = v]: an existing key keeps its position, a new one goes last. *)
Fixpoint dict_set (d : dict V) (k : string) (v : V) : dict V :=
  match d with
  | [] => [(k, v)]
  | (k', v') :: d' =>
      if bool_decide (k' = k) then (k, v) :: d' else (k', v') :: dict_set d' k v
  end.

(** [list(d.keys())] *)
Definition dict_keys (d : dict V) : list string := map fst d.
End Dict.

(** [list.pop()]: removes and returns the last element; [None] is the
    [IndexError] on an empty list. *)
Definition pop {A : Type} (l : list A) : option (A * list A) :=
  match reverse l with
  | [] => None
  | x :: r => Some (x, reverse r)
  end.

(** [list.insert(i, x)] *)
Definition list_insert_at {A : Type} (i : nat) (x : A) (l : list A) : list A :=
  take i l ++ x :: drop i l.

(** ** Deck *)

Record Deck := mkDeck {
  num_decks : nat;
  deck_cards : list Card
}.

(** The cards of [_build] before the shuffle. *)
Definition one_deck : list Card :=
  flat_map (fun s => map (fun r => (r, s)) RANKS) SUITS.

Definition unshuffled (n : nat) : list Card := concat (replicate n one_deck).

(** ** Session state *)

Record State := mkState {
  game_started : bool;
  betting_phase : bool;
  round_active : bool;
  dealer_turn : bool;
  round_over : bool;
  payouts_applied : bool;
  num_players : nat;
  player_names : list string;
  bankrolls : dict Z;
  deck : option Deck;
  dealer_hand : option Hand;
  player_hands : dict (list Hand);
  current_player_idx : nat;
  current_hand_idx : nat;
  rng : nat  (* position of the [random] module: shuffles performed so far *)
}.

Definition set_game_started (s : State) (b : bool) : State :=
  mkState b (betting_phase s) (round_active s) (dealer_turn s) (round_over s)
    (payouts_applied s) (num_players s) (player_names s) (bankrolls s) (deck s)
    (dealer_hand s) (player_hands s) (current_player_idx s) (current_hand_idx s)
    (rng s).

Definition set_betting_phase (s : State) (b : bool) : State :=
  mkState (game_started s) b (round_active s) (dealer_turn s) (round_over s)
    (payouts_applied s) (num_players s) (player_names s) (bankrolls s) (deck s)
    (dealer_hand s) (player_hands s) (current_player_idx s) (current_hand_idx s)
    (rng s).

Definition set_round_active (s : State) (b : bool) : State :=
  mkState (game_started s) (betting_phase s) b (dealer_turn s) (round_over s)
    (payouts_applied s) (num_players s) (player_names s) (bankrolls s) (deck s)
    (dealer_hand s) (player_hands s) (current_player_idx s) (current_hand_idx s)
    (rng s).

Definition set_dealer_turn (s : State) (b : bool) : State :=
  mkState (game_started s) (betting_phase s) (round_active s) b (round_over s)
    (payouts_applied s) (num_players s) (player_names s) (bankrolls s) (deck s)
    (dealer_hand s) (player_hands s) (current_player_idx s) (current_hand_idx s)
    (rng s).

Definition set_round_over (s : State) (b : bool) : State :=
  mkState (game_started s) (betting_phase s) (round_active s) (dealer_turn s) b
    (payouts_applied s) (num_players s) (player_names s) (bankrolls s) (deck s)
    (dealer_hand s) (player_hands s) (current_player_idx s) (current_hand_idx s)
    (rng s).

Definition set_payouts_applied (s : State) (b : bool) : State :=
  mkState (game_started s) (betting_phase s) (round_active s) (dealer_turn s)
    (round_over s) b (num_players s) (player_names s) (bankrolls s) (deck s)
    (dealer_hand s) (player_hands s) (current_player_idx s) (current_hand_idx s)
    (rng s).

Definition set_num_players (s : State) (n : nat) : State :=
  mkState (game_started s) (betting_phase s) (round_active s) (dealer_turn s)
    (round_over s) (payouts_applied s) n (player_names s) (bankrolls s) (deck s)
    (dealer_hand s) (player_hands s) (current_player_idx s) (current_hand_idx s)
    (rng s).

Definition set_player_names (s : State) (l : list string) : State :=
  mkState (game_started s) (betting_phase s) (round_active s) (dealer_turn s)
    (round_over s) (payouts_applied s) (num_players s) l (bankrolls s) (deck s)
    (dealer_hand s) (player_hands s) (current_player_idx s) (current_hand_idx s)
    (rng s).

Definition set_bankrolls (s : State) (b : dict Z) : State :=
  mkState (game_started s) (betting_phase s) (round_active s) (dealer_turn s)
    (round_over s) (payouts_applied s) (num_players s) (player_names s) b (deck s)
    (dealer_hand s) (player_hands s) (current_player_idx s) (current_hand_idx s)
    (rng s).

Definition set_deck (s : State) (d : option Deck) : State :=
  mkState (game_started s) (betting_phase s) (round_active s) (dealer_turn s)
    (round_over s) (payouts_applied s) (num_players s) (player_names s)
    (bankrolls s) d (dealer_hand s) (player_hands s) (current_player_idx s)
    (current_hand_idx s) (rng s).

Definition set_dealer_hand (s : State) (h : option Hand) : State :=
  mkState (game_started s) (betting_phase s) (round_active s) (dealer_turn s)
    (round_over s) (payouts_applied s) (num_players s) (player_names s)
    (bankrolls s) (deck s) h (player_hands s) (current_player_idx s)
    (current_hand_idx s) (rng s).

Definition set_player_hands (s : State) (p : dict (list Hand)) : State :=
  mkState (game_started s) (betting_phase s) (round_active s) (dealer_turn s)
    (round_over s) (payouts_applied s) (num_players s) (player_names s)
    (bankrolls s) (deck s) (dealer_hand s) p (current_player_idx s)
    (current_hand_idx s) (rng s).

Definition set_current_player_idx (s : State) (i : nat) : State :=
  mkState (game_started s) (betting_phase s) (round_active s) (dealer_turn s)
    (round_over s) (payouts_applied s) (num_players s) (player_names s)
    (bankrolls s) (deck s) (dealer_hand s) (player_hands s) i
    (current_hand_idx s) (rng s).

Definition set_current_hand_idx (s : State) (i : nat) : State :=
  mkState (game_started s) (betting_phase s) (round_active s) (dealer_turn s)
    (round_over s) (payouts_applied s) (num_players s) (player_names s)
    (bankrolls s) (deck s) (dealer_hand s) (player_hands s)
    (current_player_idx s) i (rng s).

Definition set_rng (s : State) (g : nat) : State :=
  mkState (game_started s) (betting_phase s) (round_active s) (dealer_turn s)
    (round_over s) (payouts_applied s) (num_players s) (player_names s)
    (bankrolls s) (deck s) (dealer_hand s) (player_hands s)
    (current_player_idx s) (current_hand_idx s) g.

(** The [if "initialized" not in st.session_state] block. *)
Definition initial_state (g : nat) : State :=
  mkState false true false false false false 1 [] [] None None [] 0 0 g.

(** ** Payouts *)

(** [bet * 2.5] is a product of floats: Python converts the integer [bet]
    to a binary64 number and multiplies, and both steps round to 53
    significant bits, to nearest, ties to even.  A finite binary64 number is
    written [(m, e)] for [m * 2^e].  A stake comes from a number input, which
    holds integers below [2^53], and is at most doubled, so neither step
    overflows; and a product of an integer with 2.5 is never subnormal. *)
Definition round_53 (m e : Z) : Z * Z :=
  let a := Z.abs m in
  if a <? 2 ^ 53 then (m, e)
  else
    let k := Z.log2 a - 52 in
    let q := a / 2 ^ k in
    let r := a mod 2 ^ k in
    let half := 2 ^ (k - 1) in
    let q' :=
      if r <? half then q
      else if half <? r then q + 1
      else if Z.even q then q else q + 1 in
    (Z.sgn m * q', e + k).

(** [float(n)] for an integer [n]. *)
Definition float_of_int (n : Z) : Z * Z := round_53 n 0.

(** [x * 2.5]: 2.5 is [5 * 2^-1]. *)
Definition float_mul_2_5 (x : Z * Z) : Z * Z := round_53 (x.1 * 5) (x.2 - 1).

(** [int(x)] truncates toward zero. *)
Definition int_of_float (x : Z * Z) : Z :=
  if 0 <=? x.2 then x.1 * 2 ^ x.2 else Z.quot x.1 (2 ^ (- x.2)).

(** [int(bet * 2.5)] *)
Definition int_bet_2_5 (bet : Z) : Z :=
  int_of_float (float_mul_2_5 (float_of_int bet)).

(** The [if]/[elif] chain of [apply_payouts] for one hand. *)
Definition payout (dealer_hand hand : Hand) : Z :=
  let dealer_value := get_value dealer_hand in
  let dealer_bust := is_bust dealer_hand in
  let dealer_blackjack := is_blackjack dealer_hand in
  let bet := bet hand in
  let player_value := get_value hand in
  if is_bust hand then 0
  else if is_blackjack hand && negb dealer_blackjack then int_bet_2_5 bet
  else if dealer_bust then bet * 2
  else if dealer_value <? player_value then bet * 2
  else if player_value =? dealer_value then bet
  else 0.

(** The result codes of the settlement record, from the same chain in
    [save_round_to_supabase]. *)
Inductive Result :=
  | bust | blackjack | dealer_bust_win | win | push | lose.

Definition round_result (dealer_hand hand : Hand) : Result * Z :=
  let dealer_value := get_value dealer_hand in
  let bet := bet hand in
  let pv := get_value hand in
  if is_bust hand then (bust, 0)
  else if is_blackjack hand && negb (is_blackjack dealer_hand)
       then (blackjack, int_bet_2_5 bet)
  else if is_bust dealer_hand then (dealer_bust_win, bet * 2)
  else if dealer_value <? pv then (win, bet * 2)
  else if pv =? dealer_value then (push, bet)
  else (lose, 0).

(** Inner loop of [apply_payouts]: [bankrolls[name] += payout] per hand. *)
Fixpoint pay_hands (dealer_hand : Hand) (name : string) (hands : list Hand)
    (bank : dict Z) : option (dict Z) :=
  match hands with
  | [] => Some bank
  | hand :: rest =>
      b ← dict_get bank name;
      pay_hands dealer_hand name rest
        (dict_set bank name (b + payout dealer_hand hand))
  end.

(** Outer loop of [apply_payouts] over [player_hands.items()]. *)
Fixpoint pay_players (dealer_hand : Hand) (items : dict (list Hand))
    (bank : dict Z) : option (dict Z) :=
  match items with
  | [] => Some bank
  | (name, hands) :: rest =>
      bank' ← pay_hands dealer_hand name hands bank;
      pay_players dealer_hand rest bank'
  end.

(** [apply_payouts] *)
Definition apply_payouts (s : State) : option State :=
  dh ← dealer_hand s;
  bank ← pay_players dh (player_hands s) (bankrolls s);
  Some (set_payouts_applied (set_bankrolls s bank) true).

(** ** Turn pointer *)

(** The current seat as the control panel computes it: the name at
    [current_player_idx] among the keys of [player_hands], the hand at
    [current_hand_idx] of that player, and the panel's guard
    [current_player_name and current_hand and not dealer_turn] (an empty
    name is falsy). *)
Definition current (s : State) : option (string * Hand) :=
  let names := dict_keys (player_hands s) in
  if dealer_turn s then None
  else
    name ← names !! current_player_idx s;
    hands_list ← dict_get (player_hands s) name;
    h ← hands_list !! current_hand_idx s;
    if bool_decide (name = EmptyString) then None else Some (name, h).

(** The mutation of the hand object at position [i] of [player_hands[name]]. *)
Definition store_hand (s : State) (name : string) (i : nat) (h : Hand) : State :=
  match dict_get (player_hands s) name with
  | Some hands_list =>
      set_player_hands s (dict_set (player_hands s) name (<[i := h]> hands_list))
  | None => s
  end.

(** The script reaches the playing phase when the table is open and the
    [elif round_active and not round_over] branch is taken. *)
Definition in_playing (s : State) : bool :=
  game_started s
  && negb (betting_phase s && negb (round_active s))
  && round_active s && negb (round_over s).

Definition in_betting (s : State) : bool :=
  game_started s && betting_phase s && negb (round_active s).

Definition in_results (s : State) : bool :=
  game_started s
  && negb (betting_phase s && negb (round_active s))
  && negb (round_active s && negb (round_over s))
  && round_over s.

(** [all_done] of the turn flow control. *)
Definition all_done (s : State) (h : Hand) : bool :=
  let names := dict_keys (player_hands s) in
  let is_last_player :=
    Z.of_nat (current_player_idx s) =? Z.of_nat (length names) - 1 in
  match names !! current_player_idx s with
  | None => false
  | Some cur_name =>
      match dict_get (player_hands s) cur_name with
      | None => false
      | Some cur_hands =>
          let is_last_hand :=
            Z.of_nat (current_hand_idx s) =? Z.of_nat (length cur_hands) - 1 in
          is_last_player && is_last_hand && (is_bust h || is_standing h)
      end
  end.

(** The two sums the rules speak of: every ace as 11, every ace as 1. *)
Definition base_sum (cs : list Card) : Z :=
  fold_right Z.add 0 (map (fun c : Card => CARD_VALUES c.1) cs).

Definition num_aces (cs : list Card) : nat :=
  length (filter (fun c : Card => c.1 = Ace) cs).

Definition ace_low (c : Card) : Z :=
  if bool_decide (c.1 = Ace) then 1 else CARD_VALUES c.1.

Definition low_sum (cs : list Card) : Z :=
  fold_right Z.add 0 (map ace_low cs).

(** ** Properties of the hand value *)

Lemma num_aces_cons c cs :
  num_aces (c :: cs) =
  if bool_decide (c.1 = Ace) then S (num_aces cs) else num_aces cs.
Proof.
  unfold num_aces. rewrite filter_cons.
  case_bool_decide; [rewrite decide_True by done | rewrite decide_False by done];
    reflexivity.
Qed.

Lemma count_card_fold cs v a :
  fold_left count_card cs (v, a) =
  (v + base_sum cs, (a + num_aces cs)%nat).
Proof.
  revert v a. induction cs as [|c cs IH]; intros v a.
  - unfold base_sum, num_aces. simpl. f_equal; lia.
  - cbn [fold_left]. rewrite num_aces_cons.
    change (base_sum (c :: cs)) with (CARD_VALUES c.1 + base_sum cs).
    unfold count_card at 2. cbn [fst snd].
    case_bool_decide as Hc; rewrite IH; [rewrite Hc|]; simpl; f_equal; lia.
Qed.

Lemma cards_value_sums cs :
  cards_value cs = downgrade (base_sum cs) (num_aces cs).
Proof.
  unfold cards_value. rewrite count_card_fold. simpl. f_equal.
Qed.

Lemma base_low_sum cs :
  base_sum cs = low_sum cs + 10 * Z.of_nat (num_aces cs).
Proof.
  induction cs as [|c cs IH]; [reflexivity|].
  rewrite num_aces_cons.
  change (base_sum (c :: cs)) with (CARD_VALUES c.1 + base_sum cs).
  change (low_sum (c :: cs)) with (ace_low c + low_sum cs).
  unfold ace_low. case_bool_decide as Hc; [rewrite Hc; simpl CARD_VALUES|]; lia.
Qed.

Lemma downgrade_bounds v a :
  v - 10 * Z.of_nat a <= downgrade v a <= v.
Proof.
  revert v. induction a as [|a IH]; intros v; simpl downgrade; [lia|].
  destruct (21 <? v) eqn:E; [|lia].
  specialize (IH (v - 10)). lia.
Qed.

Lemma downgrade_bust v a :
  21 < downgrade v a <-> 21 < v - 10 * Z.of_nat a.
Proof.
  revert v. induction a as [|a IH]; intros v; simpl downgrade; [lia|].
  destruct (21 <? v) eqn:E.
  - rewrite IH. lia.
  - apply Z.ltb_ge in E. lia.
Qed.

Lemma cards_value_ge_low cs : low_sum cs <= cards_value cs.
Proof.
  rewrite cards_value_sums.
  pose proof (downgrade_bounds (base_sum cs) (num_aces cs)) as H.
  rewrite base_low_sum in H at 1. lia.
Qed.

Lemma cards_value_bust cs : 21 < cards_value cs <-> 21 < low_sum cs.
Proof.
  rewrite cards_value_sums, downgrade_bust, base_low_sum. lia.
Qed.

Lemma ace_low_pos c : 1 <= ace_low c.
Proof.
  unfold ace_low. case_bool_decide; [lia|]. destruct c as [[] ?]; simpl; lia.
Qed.

Lemma low_sum_app cs c : low_sum (cs ++ [c]) = low_sum cs + ace_low c.
Proof.
  unfold low_sum. rewrite map_app, fold_right_app. simpl.
  induction (map ace_low cs) as [|x xs IH]; simpl; lia.
Qed.

Lemma cards_add_card h c : cards (add_card h c) = cards h ++ [c].
Proof. unfold add_card. destruct (get_value _ =? 21) eqn:E; try reflexivity. Qed.

Lemma get_value_ge_low h : low_sum (cards h) <= get_value h.
Proof. apply cards_value_ge_low. Qed.

(** ** The shoe and the handlers *)

Section Table.

(** [random.shuffle]: the [g]-th shuffle of the session applied to a list. *)
Variable shuffle : nat -> list Card -> list Card.

(** [Deck._build] *)
Definition Deck_build (n : nat) (g : nat) : Deck * nat :=
  (mkDeck n (shuffle g (unshuffled n)), S g).

(** [Deck()] with the default [num_decks=6]. *)
Definition Deck_new (g : nat) : Deck * nat := Deck_build 6 g.

(** [Deck.deal] *)
Definition Deck_deal (d : Deck) (g : nat) : option (Card * Deck * nat) :=
  let n := length (deck_cards d) in
  let '(d1, g1) :=
    if (n =? 0)%nat || (n <? 15)%nat then Deck_build (num_decks d) g else (d, g) in
  '(c, rest) ← pop (deck_cards d1);
  Some (c, mkDeck (num_decks d1) rest, g1).

(** [st.session_state.deck.deal()] *)
Definition deck_deal (s : State) : option (Card * State) :=
  d ← deck s;
  '(c, d', g') ← Deck_deal d (rng s);
  Some (c, set_rng (set_deck s (Some d')) g').

(** *** Setup: Open Table *)

Definition open_table (n : nat) (names : list string) (s : State) : option State :=
  if game_started s then Some s
  else
    let bank := fold_left (fun b name => dict_set b name STARTING_CHIPS) names [] in
    let '(d, g) := Deck_new (rng s) in
    Some (mkState true true (round_active s) (dealer_turn s) (round_over s) false
            n names bank (Some d) None [] 0 0 g).

(** *** Betting phase: Deal Cards *)

(** The [bets] dictionary of the betting form; [inputs name] is the value of
    the number input of [name]. *)
Definition collect_bets (s : State) (inputs : string -> Z) : dict Z :=
  fold_left
    (fun bets name =>
       let max_bet := default 0 (dict_get (bankrolls s) name) in
       if max_bet <? MIN_BET then dict_set bets name 0
       else dict_set bets name (inputs name))
    (player_names s) [].

(** [for name, bet in bets.items(): if bet > 0: ...] *)
Fixpoint seat_players (bets : dict Z) (s : State) : option State :=
  match bets with
  | [] => Some s
  | (name, b) :: rest =>
      if 0 <? b then
        let hand := set_bet Hand_new b in
        let s1 := set_player_hands s (dict_set (player_hands s) name [hand]) in
        bank ← dict_get (bankrolls s1) name;
        seat_players rest (set_bankrolls s1 (dict_set (bankrolls s1) name (bank - b)))
      else seat_players rest s
  end.

(** [for name in names: player_hands[name][0].add_card(deck.deal())] *)
Fixpoint deal_round (names : list string) (s : State) : option State :=
  match names with
  | [] => Some s
  | name :: rest =>
      hands ← dict_get (player_hands s) name;
      h ← hands !! 0%nat;
      '(c, s1) ← deck_deal s;
      deal_round rest
        (set_player_hands s1
           (dict_set (player_hands s1) name (<[0%nat := add_card h c]> hands)))
  end.

(** [dealer_hand.add_card(deck.deal())] *)
Definition deal_dealer (s : State) : option State :=
  dh ← dealer_hand s;
  '(c, s1) ← deck_deal s;
  Some (set_dealer_hand s1 (Some (add_card dh c))).

(** One pass of [for _ in range(2)]. *)
Definition deal_pass (s : State) : option State :=
  s1 ← deal_round (dict_keys (player_hands s)) s;
  deal_dealer s1.

Definition deal_cards (inputs : string -> Z) (s : State) : option State :=
  if negb (in_betting s) then Some s
  else
    let bets := collect_bets s inputs in
    if negb (existsb (fun kv : string * Z => MIN_BET <=? kv.2) bets) then Some s
    else
      let s0 := set_player_hands (set_dealer_hand s (Some Hand_new)) [] in
      let '(d, g) :=
        match deck s0 with
        | Some d => (d, rng s0)
        | None => Deck_new (rng s0)
        end in
      let s1 := set_rng (set_deck s0 (Some d)) g in
      s2 ← seat_players bets s1;
      s3 ← deal_pass s2;
      s4 ← deal_pass s3;
      Some (set_current_hand_idx
              (set_current_player_idx
                 (set_payouts_applied
                    (set_round_over
                       (set_dealer_turn
                          (set_round_active (set_betting_phase s4 false) true)
                          false)
                       false)
                    false)
                 0)
              0).

(** *** Playing phase: the action buttons *)

Definition hit (s : State) : option State :=
  if negb (in_playing s) then Some s
  else
    match current s with
    | None => Some s
    | Some (name, current_hand) =>
        _ ← dict_get (bankrolls s) name;
        if playable current_hand then
          '(c, s1) ← deck_deal s;
          Some (store_hand s1 name (current_hand_idx s) (add_card current_hand c))
        else Some s
    end.

Definition stand (s : State) : option State :=
  if negb (in_playing s) then Some s
  else
    match current s with
    | None => Some s
    | Some (name, current_hand) =>
        _ ← dict_get (bankrolls s) name;
        if playable current_hand then
          Some (store_hand s name (current_hand_idx s)
                  (set_standing current_hand true))
        else Some s
    end.

(** The [can_double] flag of the Double button. *)
Definition double_allowed (bankroll : Z) (current_hand : Hand) : bool :=
  playable current_hand && can_double current_hand
  && (bet current_hand <=? bankroll).

Definition double (s : State) : option State :=
  if negb (in_playing s) then Some s
  else
    match current s with
    | None => Some s
    | Some (name, current_hand) =>
        bankroll ← dict_get (bankrolls s) name;
        if double_allowed bankroll current_hand then
          let s1 :=
            set_bankrolls s
              (dict_set (bankrolls s) name (bankroll - bet current_hand)) in
          let h1 := set_doubled (set_bet current_hand (bet current_hand * 2)) true in
          '(c, s2) ← deck_deal s1;
          Some (store_hand s2 name (current_hand_idx s)
                  (set_standing (add_card h1 c) true))
        else Some s
    end.

(** The [can_split] flag of the Split button. *)
Definition split_allowed (bankroll : Z) (current_hand : Hand)
    (hands_list : list Hand) : bool :=
  playable current_hand && can_split current_hand
  && (bet current_hand <=? bankroll)
  && (length hands_list <? 4)%nat.

Definition split (s : State) : option State :=
  if negb (in_playing s) then Some s
  else
    match current s with
    | None => Some s
    | Some (name, current_hand) =>
        bankroll ← dict_get (bankrolls s) name;
        hands_list ← dict_get (player_hands s) name;
        if split_allowed bankroll current_hand hands_list then
          let new_hand := set_bet Hand_new (bet current_hand) in
          '(second_card, rest) ← pop (cards current_hand);
          let current_hand1 := set_cards current_hand rest in
          let new_hand1 := set_cards new_hand (cards new_hand ++ [second_card]) in
          '(c1, s1) ← deck_deal s;
          let current_hand2 := add_card current_hand1 c1 in
          '(c2, s2) ← deck_deal s1;
          let new_hand2 := add_card new_hand1 c2 in
          bank ← dict_get (bankrolls s2) name;
          let s3 :=
            set_bankrolls s2 (dict_set (bankrolls s2) name (bank - bet new_hand2)) in
          Some (set_player_hands s3
                  (dict_set (player_hands s3) name
                     (list_insert_at (current_hand_idx s + 1) new_hand2
                        (<[current_hand_idx s := current_hand2]> hands_list))))
        else Some s
    end.

(** *** Playing phase: navigation *)

Definition previous_hand (s : State) : option State :=
  if negb (in_playing s) then Some s
  else
    match current s with
    | None => Some s
    | Some (name, _) =>
        _ ← dict_get (bankrolls s) name;
        if (0 <? current_hand_idx s)%nat then
          Some (set_current_hand_idx s (current_hand_idx s - 1))
        else if (0 <? current_player_idx s)%nat then
          let s1 := set_current_player_idx s (current_player_idx s - 1) in
          prev_name ← dict_keys (player_hands s) !! current_player_idx s1;
          prev_hands ← dict_get (player_hands s1) prev_name;
          Some (set_current_hand_idx s1 (length prev_hands - 1))
        else Some s
    end.

Definition next_hand (s : State) : option State :=
  if negb (in_playing s) then Some s
  else
    match current s with
    | None => Some s
    | Some (name, current_hand) =>
        _ ← dict_get (bankrolls s) name;
        cur_hands ← dict_get (player_hands s) name;
        if all_done s current_hand then Some s
        else if negb (is_standing current_hand) && negb (is_bust current_hand)
        then Some s
        else if (Z.of_nat (current_hand_idx s) <? Z.of_nat (length cur_hands) - 1)
        then Some (set_current_hand_idx s (current_hand_idx s + 1))
        else if (Z.of_nat (current_player_idx s)
                 <? Z.of_nat (length (dict_keys (player_hands s))) - 1)
        then Some (set_current_hand_idx
                     (set_current_player_idx s (current_player_idx s + 1)) 0)
        else Some (set_dealer_turn s true)
    end.

(** *** Playing phase: Reveal Dealer *)

Definition inspect {A : Type} (a : A) : {b : A | a = b} := exist _ a eq_refl.

(** The dealer loop stops because every card adds at least one point to the
    total that counts aces low, and that total never exceeds the value. *)
Definition dealer_measure (s : State) : nat :=
  match dealer_hand s with
  | Some dh => Z.to_nat (17 - low_sum (cards dh))
  | None => O
  end.

(** [while dealer_hand.get_value() < 17: dealer_hand.add_card(deck.deal())] *)
Equations? dealer_loop (s : State) : option State by wf (dealer_measure s) lt :=
  dealer_loop s with inspect (dealer_hand s) => {
    | exist _ None _ := None;
    | exist _ (Some dh) Hd with inspect (get_value dh <? 17) => {
        | exist _ false _ := Some s;
        | exist _ true Hv with inspect (deck_deal s) => {
            | exist _ None _ := None;
            | exist _ (Some (c, s1)) _ :=
                dealer_loop (set_dealer_hand s1 (Some (add_card dh c))) } } }.
Proof.
  unfold dealer_measure. simpl. rewrite Hd.
  rewrite cards_add_card, low_sum_app.
  apply Z.ltb_lt in Hv.
  pose proof (get_value_ge_low dh). pose proof (ace_low_pos c). lia.
Qed.

(** The body of the Reveal Dealer button. *)
Definition reveal_dealer_body (s : State) : option State :=
  s1 ← dealer_loop (set_dealer_turn s true);
  s2 ← (if negb (payouts_applied s1) then apply_payouts s1 else Some s1);
  Some (set_round_over s2 true).

(** The button as the page offers it: in the playing phase, on the active
    hand, once [all_done] holds. *)
Definition reveal_dealer (s : State) : option State :=
  if negb (in_playing s) then Some s
  else
    match current s with
    | None => Some s
    | Some (name, current_hand) =>
        _ ← dict_get (bankrolls s) name;
        if all_done s current_hand then reveal_dealer_body s else Some s
    end.

(** *** Results phase *)

(** The rows [save_round_to_supabase] builds (cards and timestamp left out). *)
Record Row := mkRow {
  row_player_name : string;
  row_hand_index : nat;
  row_bet : Z;
  row_result : Result;
  row_payout : Z;
  row_final_bankroll : option Z;
  row_player_value : Z;
  row_dealer_value : Z
}.

Definition hand_row (bank : dict Z) (dh : Hand) (name : string) (idx : nat)
    (hand : Hand) : Row :=
  let r := round_result dh hand in
  mkRow name idx (bet hand) r.1 r.2 (dict_get bank name) (get_value hand)
    (get_value dh).

Definition round_rows (s : State) : option (list Row) :=
  dh ← dealer_hand s;
  Some (flat_map
          (fun kv : string * list Hand =>
             imap (hand_row (bankrolls s) dh kv.1) kv.2)
          (player_hands s)).

(** The seven assignments shared by both next-round buttons. *)
Definition next_round_body (s : State) : State :=
  set_player_hands
    (set_dealer_hand
       (set_payouts_applied
          (set_dealer_turn
             (set_round_over
                (set_round_active (set_betting_phase s true) false)
                false)
             false)
          false)
       None)
    [].

(** Next Round (no save) *)
Definition next_round (s : State) : option State :=
  if negb (in_results s) then Some s else Some (next_round_body s).

(** Save and Next Round: [client] tells whether a Supabase client exists;
    the rows go to the external store and the session state is reset whether
    or not the insert succeeds. *)
Definition save_and_next_round (client : bool) (s : State) : option State :=
  if negb (in_results s) then Some s
  else
    _ ← (if client then round_rows s else Some []);
    Some (next_round_body s).

(** *** The buttons of the page *)

Inductive Action :=
  | ActOpenTable (n : nat) (names : list string)
  | ActDeal (inputs : string -> Z)
  | ActHit
  | ActStand
  | ActDouble
  | ActSplit
  | ActPrevious
  | ActNext
  | ActReveal
  | ActNextRound
  | ActSaveNext (client : bool)
  | ActRestart.

(** One click.  Restart Table clears the session, which the next run of the
    script initialises again. *)
Definition handle (a : Action) (s : State) : option State :=
  match a with
  | ActOpenTable n names => open_table n names s
  | ActDeal inputs => deal_cards inputs s
  | ActHit => hit s
  | ActStand => stand s
  | ActDouble => double s
  | ActSplit => split s
  | ActPrevious => previous_hand s
  | ActNext => next_hand s
  | ActReveal => reveal_dealer s
  | ActNextRound => next_round s
  | ActSaveNext client => save_and_next_round client s
  | ActRestart => Some (initial_state (rng s))
  end.

(** The states a session can be in. *)
Inductive reachable : State -> Prop :=
  | reachable_init g : reachable (initial_state g)
  | reachable_step s a s' :
      reachable s -> handle a s = Some s' -> reachable s'.

(** *** Runs used by the properties *)

(** The table of the doubling scenario: one player with the starting stack
    and a shoe whose draw order is 5, K, 6, 9, 9, then fourteen twos. *)
Definition scenario_shoe : list Card :=
  reverse ([(Five, Spades); (King, Spades); (Six, Spades); (Nine, Spades);
            (Nine, Hearts)] ++ replicate 14 (Two, Clubs)).

Definition scenario_table : State :=
  mkState true true false false false false 1 ["Ann"%string]
    [("Ann"%string, STARTING_CHIPS)] (Some (mkDeck 6 scenario_shoe)) None [] 0 0 0.

(** Bet 100, deal, double, reveal: the bankroll after the bet, the bankroll
    and bet after the double, the two totals, the payout and the final
    bankroll. *)
Definition scenario_run : option (Z * (Z * Z) * (Z * Z) * (Z * Z)) :=
  s1 ← deal_cards (fun _ => 100) scenario_table;
  b1 ← dict_get (bankrolls s1) "Ann"%string;
  s2 ← double s1;
  b2 ← dict_get (bankrolls s2) "Ann"%string;
  '(_, h2) ← current s2;
  s3 ← reveal_dealer s2;
  dh ← dealer_hand s3;
  b3 ← dict_get (bankrolls s3) "Ann"%string;
  Some (b1, (b2, bet h2), (get_value h2, get_value dh), (payout dh h2, b3)).

(** The dealer's turn as a relation: [dealer_draws n s s'] when the dealer,
    starting in [s], draws [n] cards, one at each total below 17, and stops
    in [s'] at the first total of at least 17. *)
Inductive dealer_draws : nat -> State -> State -> Prop :=
  | draws_stop s dh :
      dealer_hand s = Some dh ->
      17 <= get_value dh ->
      dealer_draws O s s
  | draws_step n s dh c s1 s' :
      dealer_hand s = Some dh ->
      get_value dh < 17 ->
      deck_deal s = Some (c, s1) ->
      dealer_draws n (set_dealer_hand s1 (Some (add_card dh c))) s' ->
      dealer_draws (S n) s s'.


End Table.

(** ** Vocabulary of the properties *)

(** The flags agree with the cards: what [_update_states] establishes. *)
Definition flags_ok (h : Hand) : Prop :=
  is_bust h = (21 <? get_value h)
  /\ is_blackjack h = ((length (cards h) =? 2)%nat && (get_value h =? 21)).

(** The six rules of the payout resolver as the specification words them,
    over the flags, the two values and the bet; [floor(bet * 2.5)] is the
    floor of [5 * bet / 2]. *)
Definition payout_rules (hand_bust hand_blackjack dealer_bust dealer_blackjack : bool)
    (hand_value dealer_value bet : Z) : Result * Z :=
  if hand_bust then (bust, 0)
  else if hand_blackjack && negb dealer_blackjack then (blackjack, (5 * bet) / 2)
  else if dealer_bust then (dealer_bust_win, bet * 2)
  else if hand_value >? dealer_value then (win, bet * 2)
  else if hand_value =? dealer_value then (push, bet)
  else (lose, 0).

(** What the engine does to one hand: a card is added (deal, Hit), the hand
    is split and keeps its first card plus a fresh one, it stands, or it is
    doubled.  The Split button acts only when [can_split] holds. *)
Inductive HandOp :=
  | OpAddCard (c : Card)
  | OpSplit (c : Card)
  | OpStand
  | OpDouble (c : Card).

Definition hand_step (h : Hand) (op : HandOp) : Hand :=
  match op with
  | OpAddCard c => add_card h c
  | OpSplit c =>
      if can_split h then
        match pop (cards h) with
        | Some (_, rest) => add_card (set_cards h rest) c
        | None => h
        end
      else h
  | OpStand => set_standing h true
  | OpDouble c =>
      set_standing (add_card (set_doubled (set_bet h (bet h * 2)) true) c) true
  end.

Definition hand_run (ops : list HandOp) (h : Hand) : Hand :=
  fold_left hand_step ops h.

(** The hand a double leaves behind when [c] is the card drawn. *)
Definition doubled_hand (h : Hand) (c : Card) : Hand :=
  set_standing (add_card (set_doubled (set_bet h (bet h * 2)) true) c) true.

(** The two hands a split leaves behind: the current hand keeps its first
    card and receives [k1]; the new hand carries the second card, an equal
    bet, and receives [k2]. *)
Definition split_kept (h : Hand) (c1 k1 : Card) : Hand :=
  add_card (set_cards h [c1]) k1.

Definition split_new (h : Hand) (c2 k2 : Card) : Hand :=
  add_card (set_cards (set_bet Hand_new (bet h)) [c2]) k2.

(** Everything in the session state that drawing cards for the dealer
    leaves alone. *)
Definition round_view (s : State) :=
  (game_started s, betting_phase s, round_active s, dealer_turn s, round_over s,
   payouts_applied s, num_players s, player_names s, bankrolls s,
   player_hands s, current_player_idx s, current_hand_idx s).

(** One seat after [player_hands[name][0].add_card(c)]. *)
Definition deal_entry (kv : string * list Hand) (c : Card) : string * list Hand :=
  (kv.1, match kv.2 with
         | h :: t => add_card h c :: t
         | [] => []
         end).

(** Seats as [seat_players] leaves them: distinct names, one hand each,
    no card yet. *)
Definition seated (ph : dict (list Hand)) : Prop :=
  NoDup (dict_keys ph)
  /\ Forall (fun kv : string * list Hand => exists h, kv.2 = [h] /\ cards h = []) ph.

(** A hand at the table has flags that agree with its cards and carries a
    positive bet; a player holds between one and four hands. *)
Definition hand_ok (h : Hand) : Prop := flags_ok h /\ 0 < bet h.

Definition seat_ok (hands : list Hand) : Prop :=
  Forall hand_ok hands /\ (1 <= length hands <= 4)%nat.

Definition table_ok (s : State) : Prop :=
  Forall (fun kv : string * list Hand => seat_ok kv.2) (player_hands s)
  /\ forall dh, dealer_hand s = Some dh -> flags_ok dh.


(** ** Concrete tables *)

(** A shuffle that happens to leave the cards in order. *)
Definition keep_order : nat -> list Card -> list Card := fun _ l => l.

(** The doubling scenario after the deal: Ann holds 5 and 6 with 100 on
    them, the dealer K and 9. *)
Definition dealt_table : State :=
  default scenario_table (deal_cards keep_order (fun _ => 100) scenario_table).

Definition dealt_hand : Hand :=
  default Hand_new (snd <$> current dealt_table).

Definition dealt_deck : Deck :=
  default (mkDeck 6 []) (deck dealt_table).

(** A table where Ann is dealt two aces; the shoe then holds a king and a
    queen on top. *)
Definition aces_shoe : list Card :=
  reverse ([(Ace, Spades); (King, Spades); (Ace, Hearts); (Nine, Spades);
            (King, Hearts); (Queen, Diamonds)] ++ replicate 14 (Two, Clubs)).

Definition aces_table : State :=
  default scenario_table
    (deal_cards keep_order (fun _ => 100)
       (set_deck scenario_table (Some (mkDeck 6 aces_shoe)))).

Definition aces_hand : Hand :=
  default Hand_new (snd <$> current aces_table).

Definition aces_deck : Deck :=
  default (mkDeck 6 []) (deck aces_table).

(** A natural against a dealer 19. *)
Definition natural_hand : Hand :=
  set_bet (add_card (add_card Hand_new (Ace, Spades)) (King, Hearts)) 100.

Definition dealer_19 : Hand :=
  add_card (add_card Hand_new (King, Spades)) (Nine, Diamonds).

(** The smallest stake whose blackjack payout leaves floor(2.5 bet):
    [5 * big_bet] is [2^53 + 3], which no binary64 number holds. *)
Definition big_bet : Z := 1801439850948199.

Definition big_natural : Hand := set_bet natural_hand big_bet.

(** The table of the two aces with a deep stack and that stake on the hand. *)
Definition big_aces_table : State :=
  default scenario_table
    (deal_cards keep_order (fun _ => big_bet)
       (set_bankrolls (set_deck scenario_table (Some (mkDeck 6 aces_shoe)))
          [("Ann"%string, 4000000000000000)])).

(** Two players at a table opened from scratch with the cards in order:
    both stand, the dealer is revealed. *)
Definition two_player_round : option State :=
  s1 ← open_table keep_order 2 ["Ann"%string; "Bob"%string] (initial_state 0);
  s2 ← deal_cards keep_order (fun _ => 100) s1;
  s3 ← stand s2;
  s4 ← next_hand s3;
  s5 ← stand s4;
  reveal_dealer keep_order s5.

(** ** Rendering the cards *)

(** The strings of [RANKS] and [SUITS]. *)
Definition rank_str (r : Rank) : string :=
  match r with
  | Ace => "A" | Two => "2" | Three => "3" | Four => "4" | Five => "5"
  | Six => "6" | Seven => "7" | Eight => "8" | Nine => "9" | Ten => "10"
  | Jack => "J" | Queen => "Q" | King => "K"
  end.

Definition suit_str (u : Suit) : string :=
  match u with
  | Spades => "♠" | Hearts => "♥" | Diamonds => "♦" | Clubs => "♣"
  end.

(** The double quote of the HTML attributes. *)
Definition dquote : string := String (Ascii.ascii_of_nat 34) EmptyString.

(** [display_card]: the HTML of one card, or of a face-down card. *)
Definition display_card (rank suit : string) (hidden : bool) : string :=
  if hidden then
    "<div style=" ++ dquote
    ++ "display:inline-block;"
    ++ "width:72px;height:104px;"
    ++ "background:linear-gradient(135deg,#1f2937,#4b5563);"
    ++ "border-radius:10px;margin:4px;"
    ++ "box-shadow:0 6px 14px rgba(0,0,0,0.6);"
    ++ dquote ++ "></div>"
  else
    let color :=
      if bool_decide (suit ∈ [suit_str Hearts; suit_str Diamonds])
      then "red" else "black" in
    "<div style=" ++ dquote
    ++ "display:inline-block;"
    ++ "width:72px;height:104px;"
    ++ "background:white;border-radius:10px;"
    ++ "margin:4px;text-align:center;"
    ++ "color:" ++ color ++ ";"
    ++ "font-weight:bold;"
    ++ "font-size:24px;"
    ++ "padding-top:10px;"
    ++ "box-shadow:0 6px 14px rgba(0,0,0,0.5);"
    ++ "border:1px solid #e5e7eb;"
    ++ dquote ++ ">"
    ++ rank ++ "<br/><span style=" ++ dquote ++ "font-size:32px;" ++ dquote ++ ">"
    ++ suit ++ "</span></div>".

(** [display_hand]: the cards side by side; with [hide_second] the card at
    index 1 is drawn face down. *)
Definition display_hand (cards : list Card) (hide_second : bool) : string :=
  fold_left
    (fun (html : string) (ic : nat * Card) =>
       if hide_second && (ic.1 =? 1)%nat
       then (html ++ display_card EmptyString EmptyString true)%string
       else (html ++ display_card (rank_str ic.2.1) (suit_str ic.2.2) false)%string)
    (imap pair cards) EmptyString.

(** The dealer area of the playing phase: all cards and the total once it
    is the dealer's turn, otherwise the hand with the second card face down
    and the rank of the first card. *)
Inductive DealerArea :=
  | DealerShown (html : string) (total : Z)
  | DealerShowing (html : string) (upcard : string).

Definition dealer_area (s : State) : option DealerArea :=
  dh ← dealer_hand s;
  if dealer_turn s then
    Some (DealerShown (display_hand (cards dh) false) (get_value dh))
  else
    let upcard :=
      match cards dh with
      | c :: _ => rank_str c.1
      | [] => EmptyString
      end in
    Some (DealerShowing (display_hand (cards dh) true) upcard).

(** ** The results page *)

(** One hand on the results page: its number, bet, cards and total, and the
    label, payout and colour of the outcome box. *)
Record ResultLine := mkResultLine {
  line_number : nat;
  line_bet : Z;
  line_cards : list Card;
  line_total : Z;
  line_label : string;
  line_payout : Z;
  line_color : string
}.

(** One player on the results page: the hands and the new bankroll. *)
Record ResultCard := mkResultCard {
  card_player : string;
  card_lines : list ResultLine;
  card_bankroll : Z
}.

(** The [if]/[elif] chain of the results page for the hand at [idx]. *)
Definition result_line (dealer_hand : Hand) (dealer_value : Z) (idx : nat)
    (hand : Hand) : ResultLine :=
  let pv := get_value hand in
  let bet := bet hand in
  let '(label, payout, color) :=
    if is_bust hand then ("BUST - LOSE"%string, 0, "#f97373"%string)
    else if is_blackjack hand && negb (is_blackjack dealer_hand)
         then ("BLACKJACK - WIN 3:2"%string, int_bet_2_5 bet, "#22c55e"%string)
    else if is_bust dealer_hand
         then ("DEALER BUST - WIN"%string, bet * 2, "#22c55e"%string)
    else if dealer_value <? pv then ("WIN"%string, bet * 2, "#22c55e"%string)
    else if pv =? dealer_value then ("PUSH"%string, bet, "#fbbf24"%string)
    else ("LOSE"%string, 0, "#f97373"%string) in
  mkResultLine (idx + 1) bet (cards hand) pv label payout color.

(** The round summary: the dealer's cards and total, then one card per
    player with [bankrolls[name]] as the new bankroll. *)
Definition results_page (s : State) : option (list Card * Z * list ResultCard) :=
  dh ← dealer_hand s;
  let dealer_value := get_value dh in
  page ← mapM
           (fun kv : string * list Hand =>
              bankroll ← dict_get (bankrolls s) kv.1;
              Some (mkResultCard kv.1 (imap (result_line dh dealer_value) kv.2)
                      bankroll))
           (player_hands s);
  Some (cards dh, dealer_value, page).

(** ** Vocabulary of the further properties *)

(** A hand whose flags agree with its cards and which stands once it shows
    21: what [add_card] leaves behind. *)
Definition hand_settled (h : Hand) : Prop :=
  flags_ok h /\ (get_value h = 21 -> is_standing h = true).

(** How often a card occurs in a list of cards. *)
Definition card_count (l : list Card) (c : Card) : nat :=
  length (filter (fun x : Card => x = c) l).

(** A shoe that belongs to its deck count: no card occurs more often than
    there are decks. *)
Definition shoe_ok (d : Deck) : Prop :=
  forall c : Card, (card_count (deck_cards d) c <= num_decks d)%nat.

(** The flow flags and the table setup, and the turn pointer. *)
Definition flow (s : State) :=
  (game_started s, betting_phase s, round_active s, dealer_turn s, round_over s,
   payouts_applied s, num_players s, player_names s).

Definition pointer (s : State) : nat * nat :=
  (current_player_idx s, current_hand_idx s).

(** The seats are distinct and every seated player has a bankroll entry. *)
Definition keys_ok (s : State) : Prop :=
  NoDup (dict_keys (player_hands s))
  /\ forall name : string,
       is_Some (dict_get (player_hands s) name)
       -> is_Some (dict_get (bankrolls s) name).

(** The flow flags fit together: no round before the table is open; a round
    in progress has left the betting phase and has a dealer hand and a shoe;
    without a round the table is in the betting phase and no round is over. *)
Definition phase_ok (s : State) : Prop :=
  (game_started s = false -> round_active s = false)
  /\ (round_active s = true ->
      betting_phase s = false /\ is_Some (dealer_hand s) /\ is_Some (deck s))
  /\ (round_active s = false -> betting_phase s = true /\ round_over s = false).

(** The shoe, once there is one, is a six-deck shoe that belongs to its
    deck count and holds at least 14 cards. *)
Definition deck_ok (s : State) : Prop :=
  forall d : Deck,
    deck s = Some d ->
    num_decks d = 6%nat /\ shoe_ok d /\ (14 <= length (deck_cards d))%nat.

(** What every handler needs of the state it runs in. *)
Definition wired (s : State) : Prop := keys_ok s /\ phase_ok s /\ deck_ok s.

(** The turn pointer names a hand that exists. *)
Definition pointer_ok (s : State) : Prop :=
  exists (name : string) (hands : list Hand),
    dict_keys (player_hands s) !! current_player_idx s = Some name
    /\ dict_get (player_hands s) name = Some hands
    /\ (current_hand_idx s < length hands)%nat.

(** What a player's hands are paid together. *)
Definition hands_payout (dh : Hand) (hands : list Hand) : Z :=
  fold_right Z.add 0 (map (payout dh) hands).

(** The bets on the table, seat by seat. *)
Definition bets_of (ph : dict (list Hand)) : dict (list Z) :=
  map (fun kv : string * list Hand => (kv.1, map bet kv.2)) ph.

(** The chips a player has staked on the hands of the round. *)
Definition staked (hands : list Hand) : Z := fold_right Z.add 0 (map bet hands).

(** A player's chips: the bankroll and what is staked on the table. *)
Definition chips (s : State) (name : string) : Z :=
  default 0 (dict_get (bankrolls s) name)
  + staked (default [] (dict_get (player_hands s) name)).

(** No bankroll is negative. *)
Definition solvent (s : State) : Prop :=
  forall (name : string) (b : Z), dict_get (bankrolls s) name = Some b -> 0 <= b.

(** The bounds of the bet input: [min_value=MIN_BET, max_value=max_bet]. *)
Definition within_limits (s : State) (inputs : string -> Z) : Prop :=
  forall (name : string) (b : Z),
    dict_get (bankrolls s) name = Some b ->
    MIN_BET <= b ->
    MIN_BET <= inputs name <= b.

(** The buttons that act on a round in progress without ending it. *)
Definition playing_action (a : Action) : bool :=
  match a with
  | ActHit | ActStand | ActDouble | ActSplit | ActPrevious | ActNext => true
  | _ => false
  end.

(** The buttons that move chips between a bankroll and the table. *)
Definition betting_action (a : Action) : bool :=
  match a with
  | ActDeal _ => true
  | _ => playing_action a
  end.

Section Play.

Variable shuffle : nat -> list Card -> list Card.

(** The states a session reaches when every bet typed into the betting form
    respects the bounds of its input. *)
Inductive played : State -> Prop :=
  | played_init g : played (initial_state g)
  | played_step s a s' :
      played s ->
      (forall inputs, a = ActDeal inputs -> within_limits s inputs) ->
      handle shuffle a s = Some s' ->
      played s'.

End Play.

(** The bet the betting form records for [name]. *)
Definition bet_for (s : State) (inputs : string -> Z) (name : string) : Z :=
  if default 0 (dict_get (bankrolls s) name) <? MIN_BET then 0 else inputs name.

(** What Deal Cards takes from the bankroll of [name]: the recorded bet when
    it is positive. *)
Definition stake_of (bets : dict Z) (name : string) : Z :=
  match dict_get bets name with
  | Some b => if 0 <? b then b else 0
  | None => 0
  end.

(** The seats Deal Cards creates, before any card is dealt. *)
Definition fresh_seats (bets : dict Z) : dict (list Hand) :=
  map (fun kv : string * Z => (kv.1, [set_bet Hand_new kv.2]))
    (filter (fun kv : string * Z => 0 < kv.2) bets).

(** The dealer has played exactly when the round is over, and so have the
    payouts; a finished round has a dealer hand of 17 or more; while a round
    is on, the turn pointer names a hand; between rounds the table is
    empty. *)
Definition turn_ok (s : State) : Prop :=
  dealer_turn s = round_over s
  /\ payouts_applied s = round_over s
  /\ (round_over s = true ->
      exists dh : Hand, dealer_hand s = Some dh /\ 17 <= get_value dh)
  /\ (round_active s = true -> pointer_ok s)
  /\ (round_active s = false -> player_hands s = [] /\ dealer_hand s = None).

(** While a round is played the dealer holds exactly the two cards of the
    deal. *)
Definition hole_ok (s : State) : Prop :=
  round_active s = true ->
  round_over s = false ->
  exists (dh : Hand) (c1 c2 : Card), dealer_hand s = Some dh /\ cards dh = [c1; c2].

(** Every hand on the table carries at least the minimum bet. *)
Definition stakes_ok (s : State) : Prop :=
  Forall (fun kv : string * list Hand => Forall (fun h => MIN_BET <= bet h) kv.2)
    (player_hands s).

(** The label the results page gives to a result code of the settlement
    record. *)
Definition label_of (r : Result) : string :=
  match r with
  | bust => "BUST - LOSE"
  | blackjack => "BLACKJACK - WIN 3:2"
  | dealer_bust_win => "DEALER BUST - WIN"
  | win => "WIN"
  | push => "PUSH"
  | lose => "LOSE"
  end.

(** The payouts a player's card of the results page lists, added up. *)
Definition listed_payout (card : ResultCard) : Z :=
  fold_right Z.add 0 (map line_payout (card_lines card)).

(** ** Runs of clicks *)

(** The state after a sequence of clicks, if no handler raises. *)
Definition run (shuffle : nat -> list Card -> list Card) (acts : list Action)
    (s : State) : option State :=
  fold_left (fun os a => s0 ← os; handle shuffle a s0) acts (Some s).

(** Everybody bets 100. *)
Definition bets_100 : string -> Z := fun _ => 100.

(** The two-player round click by click, with the cards in order: Ann is
    dealt K and 10, Bob Q and 9, the dealer J and 8. *)
Definition round_clicks : list Action :=
  [ActOpenTable 2 ["Ann"%string; "Bob"%string]; ActDeal bets_100;
   ActStand; ActNext; ActStand; ActReveal].

Definition after_clicks (n : nat) : State :=
  default (initial_state 0) (run keep_order (take n round_clicks) (initial_state 0)).

Definition opened_table : State := after_clicks 1.
Definition two_dealt : State := after_clicks 2.
Definition ann_stood : State := after_clicks 3.
Definition bob_turn : State := after_clicks 4.
Definition bob_stood : State := after_clicks 5.
Definition round_done : State := after_clicks 6.

(** The hand and the shoe Ann plays from, and the dealer hand at the end. *)
Definition ann_hand : Hand := default Hand_new (snd <$> current two_dealt).
Definition bob_hand : Hand := default Hand_new (snd <$> current bob_turn).
Definition two_dealt_deck : Deck := default (mkDeck 6 []) (deck two_dealt).
Definition final_dealer : Hand := default Hand_new (dealer_hand round_done).

(** The settlement record and the results page of that round. *)
Definition done_rows : list Row := default [] (round_rows round_done).
Definition done_page : list ResultCard :=
  default [] (snd <$> results_page round_done).

(** A table whose only player has no name, after the deal. *)
Definition nameless_table : State :=
  default (initial_state 0)
    (run keep_order [ActOpenTable 1 [EmptyString]; ActDeal bets_100]
       (initial_state 0)).

(** One unshuffled deck as a shoe. *)
Definition single_deck : Deck := (Deck_build keep_order 1 0).1.

(** The table after both players stood and the payouts were applied, and
    the table after Ann doubled instead of standing. *)
Definition paid_table : State := default bob_stood (apply_payouts bob_stood).
Definition ann_doubled : State :=
  default two_dealt (handle keep_order ActDouble two_dealt).

(** * Properties *)

(** ** Hand value and flags *)

Lemma get_value_set_standing h b : get_value (set_standing h b) = get_value h.
Proof. reflexivity. Qed.

Lemma add_card_flags h c :
  is_bust (add_card h c) = (21 <? cards_value (cards h ++ [c]))
  /\ is_blackjack (add_card h c)
     = ((length (cards h ++ [c]) =? 2)%nat && (cards_value (cards h ++ [c]) =? 21)).
Proof. unfold add_card. destruct (get_value _ =? 21); split; reflexivity. Qed.

Lemma add_card_flags_ok h c : flags_ok (add_card h c).
Proof.
  destruct (add_card_flags h c) as [Hb Hj]. unfold flags_ok, get_value.
  rewrite cards_add_card. auto.
Qed.

Lemma add_card_bet h c : bet (add_card h c) = bet h.
Proof. unfold add_card. destruct (get_value _ =? 21) eqn:E; try reflexivity. Qed.

Lemma add_card_doubled h c : doubled (add_card h c) = doubled h.
Proof. unfold add_card. destruct (get_value _ =? 21) eqn:E; try reflexivity. Qed.

Lemma add_card_standing h c :
  is_standing (add_card h c)
  = (cards_value (cards h ++ [c]) =? 21) || is_standing h.
Proof.
  unfold add_card.
  change (get_value (update_states (set_cards h (cards h ++ [c]))))
    with (cards_value (cards h ++ [c])).
  destruct (cards_value (cards h ++ [c]) =? 21); reflexivity.
Qed.

Lemma Hand_new_flags_ok : flags_ok Hand_new.
Proof. split; reflexivity. Qed.

(** The loop [downgrade] written without recursion: it removes [k] tens, no
    more than there are aces, only as long as the total was above 21, and
    it stops short of all the aces only at a total of at most 21. *)
Lemma downgrade_spec v a :
  exists k : nat,
    (k <= a)%nat
    /\ downgrade v a = v - 10 * Z.of_nat k
    /\ ((0 < k)%nat -> 21 < downgrade v a + 10)
    /\ (21 < downgrade v a -> k = a).
Proof.
  revert v. induction a as [|a IH]; intros v; simpl downgrade.
  - exists O. repeat split; lia.
  - destruct (21 <? v) eqn:E.
    + apply Z.ltb_lt in E. destruct (IH (v - 10)) as (k & Hk & Hv & Hpos & Hall).
      exists (S k). split; [lia|]. split; [lia|]. split.
      * intros _. destruct k; [rewrite Hv; lia | lia].
      * intros H. f_equal. auto.
    + apply Z.ltb_ge in E. exists O. repeat split; lia.
Qed.

(** ** Payout classification *)

Lemma round_53_small m e : Z.abs m < 2 ^ 53 -> round_53 m e = (m, e).
Proof.
  intros Hm. unfold round_53. apply Z.ltb_lt in Hm. rewrite Hm. reflexivity.
Qed.

Lemma round_53_nonneg m e : 0 <= m -> 0 <= (round_53 m e).1.
Proof.
  intros Hm. unfold round_53. destruct (Z.abs m <? 2 ^ 53); [exact Hm|].
  cbn [fst].
  assert (Hq : 0 <= Z.abs m / 2 ^ (Z.log2 (Z.abs m) - 52)).
  { apply Z_div_nonneg_nonneg; [lia|]. apply Z.pow_nonneg. lia. }
  assert (Hs : 0 <= Z.sgn m) by lia.
  repeat match goal with |- context [if ?c then _ else _] => destruct c end; nia.
Qed.

Lemma int_of_float_nonneg x : 0 <= x.1 -> 0 <= int_of_float x.
Proof.
  intros Hm. unfold int_of_float. destruct (0 <=? x.2) eqn:E.
  - apply Z.leb_le in E. apply Z.mul_nonneg_nonneg; [exact Hm|].
    apply Z.pow_nonneg. lia.
  - apply Z.leb_gt in E. apply Z.quot_pos; [exact Hm|].
    apply Z.pow_pos_nonneg; lia.
Qed.

Lemma int_bet_2_5_nonneg b : 0 <= b -> 0 <= int_bet_2_5 b.
Proof.
  intros Hb. unfold int_bet_2_5, float_mul_2_5, float_of_int.
  apply int_of_float_nonneg, round_53_nonneg.
  pose proof (round_53_nonneg b 0 Hb). lia.
Qed.

(** While [5 * b] has at most 53 bits nothing is rounded, and the result is
    the floor of [2.5 * b]. *)
Lemma int_bet_2_5_floor b :
  0 <= b -> 5 * b < 2 ^ 53 -> int_bet_2_5 b = (5 * b) / 2.
Proof.
  intros Hb Hsmall. unfold int_bet_2_5, float_mul_2_5, float_of_int.
  rewrite (round_53_small b 0) by lia. cbn [fst snd].
  rewrite (round_53_small (b * 5) (0 - 1)) by lia.
  unfold int_of_float. cbn [fst snd].
  change (0 <=? 0 - 1) with false. change (2 ^ (- (0 - 1))) with 2.
  rewrite Z.quot_div_nonneg by lia. f_equal. lia.
Qed.

Lemma round_result_payout dh h : (round_result dh h).2 = payout dh h.
Proof.
  unfold round_result, payout.
  repeat match goal with |- context [if ?b then _ else _] => destruct b end;
    reflexivity.
Qed.

(** ** Split eligibility over the life of a hand *)

Lemma pop_snoc {A : Type} (l : list A) (x : A) : pop (l ++ [x]) = Some (x, l).
Proof. unfold pop. rewrite reverse_snoc, reverse_involutive. reflexivity. Qed.

Lemma pop_Some {A : Type} (l r : list A) (x : A) :
  pop l = Some (x, r) <-> l = r ++ [x].
Proof.
  split; [|intros ->; apply pop_snoc].
  destruct l as [|y l _] using rev_ind; [discriminate|].
  rewrite pop_snoc. intros [= -> ->]. reflexivity.
Qed.

Lemma can_split_iff h :
  can_split h = true <->
  exists c1 c2 : Card, cards h = [c1; c2] /\ c1.1 = c2.1.
Proof.
  unfold can_split. split.
  - destruct (cards h) as [|c1 [|c2 [|c3 cs]]]; simpl; try discriminate.
    intros H%bool_decide_eq_true. eauto.
  - intros (c1 & c2 & -> & Hr). simpl. apply bool_decide_eq_true. exact Hr.
Qed.

Lemma can_split_length h : can_split h = true -> length (cards h) = 2%nat.
Proof. intros (c1 & c2 & -> & _)%can_split_iff. reflexivity. Qed.

Lemma hand_step_length h op :
  (length (cards h) <= length (cards (hand_step h op)))%nat.
Proof.
  destruct op as [c|c| |c]; simpl.
  - rewrite cards_add_card, length_app. lia.
  - destruct (can_split h) eqn:E; [|lia].
    apply can_split_iff in E as (c1 & c2 & E & _). rewrite E.
    change [c1; c2] with ([c1] ++ [c2]). rewrite pop_snoc.
    rewrite cards_add_card. simpl. lia.
  - lia.
  - rewrite cards_add_card, length_app. simpl. lia.
Qed.

Lemma hand_run_length ops h :
  (length (cards h) <= length (cards (hand_run ops h)))%nat.
Proof.
  revert h. induction ops as [|op ops IH]; intros h; simpl; [lia|].
  etrans; [apply (hand_step_length h op)|apply IH].
Qed.

(** C8: [can_split] holds exactly for two cards of equal rank; no operation
    on a hand lowers its number of cards (a split removes a card only from a
    two-card hand and adds one back), so after a third card [can_split] is
    false at every later state of the hand. *)
Theorem can_split_two_equal_cards :
  (forall h : Hand,
     can_split h = true <->
     length (cards h) = 2%nat
     /\ exists c1 c2 : Card, cards h = [c1; c2] /\ c1.1 = c2.1)
  /\ (forall (h : Hand) (c : Card),
        cards (hand_step h (OpSplit c)) <> cards h ->
        length (cards h) = 2%nat /\ length (cards (hand_step h (OpSplit c))) = 2%nat)
  /\ (forall (h : Hand) (op : HandOp),
        (length (cards h) <= length (cards (hand_step h op)))%nat)
  /\ (forall (h : Hand) (before after : list HandOp),
        (3 <= length (cards (hand_run before h)))%nat ->
        (3 <= length (cards (hand_run (before ++ after) h)))%nat
        /\ can_split (hand_run (before ++ after) h) = false).
Proof.
  split; [|split; [|split]].
  - intros h. rewrite can_split_iff. split.
    + intros (c1 & c2 & E & Hr). split; [rewrite E; reflexivity|eauto].
    + intros [_ H]. exact H.
  - intros h c. simpl. destruct (can_split h) eqn:E; [|congruence].
    intros _. apply can_split_iff in E as (c1 & c2 & E & _). rewrite E.
    change [c1; c2] with ([c1] ++ [c2]). rewrite pop_snoc, cards_add_card.
    split; reflexivity.
  - apply hand_step_length.
  - intros h before after H3.
    assert (Hlen : (3 <= length (cards (hand_run (before ++ after) h)))%nat).
    { unfold hand_run. rewrite fold_left_app.
      etrans; [exact H3|]. apply hand_run_length. }
    split; [exact Hlen|].
    destruct (can_split _) eqn:E; [|reflexivity].
    apply can_split_length in E. lia.
Qed.

(** ** Dictionaries, lists and the shoe *)

Section DictFacts.
Context {V : Type}.
Implicit Types (d : dict V) (k : string) (v : V).

Lemma dict_get_set_eq d k v : dict_get (dict_set d k v) k = Some v.
Proof.
  induction d as [|[k' v'] d IH]; simpl.
  - rewrite bool_decide_eq_true_2; done.
  - case_bool_decide as E; simpl.
    + rewrite bool_decide_eq_true_2; done.
    + rewrite bool_decide_eq_false_2; done.
Qed.

Lemma dict_get_set_ne d k k' v :
  k <> k' -> dict_get (dict_set d k v) k' = dict_get d k'.
Proof.
  intros Hne. induction d as [|[k0 v0] d IH]; simpl.
  - rewrite bool_decide_eq_false_2; done.
  - case_bool_decide as E; simpl.
    + subst k0. rewrite !bool_decide_eq_false_2; done.
    + rewrite IH. reflexivity.
Qed.

Lemma dict_keys_set d k v :
  is_Some (dict_get d k) -> dict_keys (dict_set d k v) = dict_keys d.
Proof.
  induction d as [|[k0 v0] d IH]; simpl.
  - intros [? [=]].
  - case_bool_decide as E; simpl; [subst; reflexivity|].
    intros H. unfold dict_keys in *. rewrite IH; done.
Qed.

Lemma dict_keys_set_new d k v :
  dict_get d k = None -> dict_keys (dict_set d k v) = dict_keys d ++ [k].
Proof.
  induction d as [|[k0 v0] d IH]; simpl; [reflexivity|].
  case_bool_decide as E; simpl; [discriminate|].
  intros H. unfold dict_keys in *. rewrite IH; done.
Qed.

Lemma dict_get_Some_key d k v : dict_get d k = Some v -> k ∈ dict_keys d.
Proof.
  induction d as [|[k0 v0] d IH]; simpl; [discriminate|].
  case_bool_decide as E.
  - subst. intros _. apply list_elem_of_here.
  - intros H. apply list_elem_of_further. auto.
Qed.

Lemma dict_get_None_key d k : dict_get d k = None <-> k ∉ dict_keys d.
Proof.
  induction d as [|[k0 v0] d IH]; simpl.
  - split; [intros _; apply not_elem_of_nil|done].
  - rewrite not_elem_of_cons. case_bool_decide as E.
    + split; [discriminate|]. intros [H _]. congruence.
    + rewrite IH. split; [intros H; split; [congruence|done]|intros [_ H]; done].
Qed.

Lemma dict_keys_NoDup_set d k v : NoDup (dict_keys d) -> NoDup (dict_keys (dict_set d k v)).
Proof.
  intros Hd. destruct (dict_get d k) as [v0|] eqn:E.
  - rewrite dict_keys_set by eauto. exact Hd.
  - rewrite dict_keys_set_new by done. apply NoDup_app. split; [done|].
    split; [|apply NoDup_singleton].
    intros x Hx ->%list_elem_of_singleton. apply dict_get_None_key in E. done.
Qed.

End DictFacts.

Lemma list_insert_at_after {A : Type} (l : list A) (i : nat) (x y z : A) :
  l !! i = Some z ->
  list_insert_at (i + 1) y (<[i := x]> l) = take i l ++ [x; y] ++ drop (S i) l.
Proof.
  intros Hi. apply lookup_lt_Some in Hi as Hlt. unfold list_insert_at.
  rewrite insert_take_drop by done.
  assert (Hlen : length (take i l) = i) by (rewrite length_take; lia).
  replace (i + 1)%nat with (length (take i l) + 1)%nat by lia.
  rewrite take_app_add, drop_app_add. simpl.
  rewrite take_0, drop_0. rewrite <- app_assoc. reflexivity.
Qed.

Lemma pop_nonempty {A : Type} (l : list A) :
  l <> [] -> exists x r, pop l = Some (x, r) /\ l = r ++ [x].
Proof.
  destruct l as [|y l _] using rev_ind; [done|].
  intros _. exists y, l. split; [apply pop_snoc|reflexivity].
Qed.

Lemma length_unshuffled n : length (unshuffled n) = (52 * n)%nat.
Proof.
  unfold unshuffled. induction n as [|n IH]; [reflexivity|].
  change (concat (replicate (S n) one_deck))
    with (one_deck ++ concat (replicate n one_deck)).
  rewrite length_app, IH.
  change (length one_deck) with 52%nat. lia.
Qed.

Section ShoeFacts.

Variable shuffle : nat -> list Card -> list Card.


Lemma Deck_deal_keep d g c rest :
  deck_cards d = rest ++ [c] ->
  (15 <= length (deck_cards d))%nat ->
  Deck_deal shuffle d g = Some (c, mkDeck (num_decks d) rest, g).
Proof.
  intros Hc Hlen. unfold Deck_deal.
  replace (length (deck_cards d) =? 0)%nat with false
    by (symmetry; apply Nat.eqb_neq; lia).
  replace (length (deck_cards d) <? 15)%nat with false
    by (symmetry; apply Nat.ltb_ge; lia).
  simpl. rewrite Hc, pop_snoc. reflexivity.
Qed.

Lemma deck_deal_keep s d c rest :
  deck s = Some d ->
  deck_cards d = rest ++ [c] ->
  (15 <= length (deck_cards d))%nat ->
  deck_deal shuffle s
  = Some (c, set_rng (set_deck s (Some (mkDeck (num_decks d) rest))) (rng s)).
Proof.
  intros Hd Hc Hlen. unfold deck_deal. rewrite Hd. simpl.
  rewrite (Deck_deal_keep d (rng s) c rest Hc Hlen). reflexivity.
Qed.

Lemma dealer_loop_eq s :
  dealer_loop shuffle s =
  match dealer_hand s with
  | None => None
  | Some dh =>
      if get_value dh <? 17 then
        match deck_deal shuffle s with
        | None => None
        | Some (c, s1) =>
            dealer_loop shuffle (set_dealer_hand s1 (Some (add_card dh c)))
        end
      else Some s
  end.
Proof.
  funelim (dealer_loop shuffle s); clear Heqcall;
    repeat match goal with
           | E : ?x = _ |- context [match ?x with _ => _ end] => rewrite E
           end;
    reflexivity.
Qed.

End ShoeFacts.




Section TableFacts.

Variable shuffle : nat -> list Card -> list Card.

(** A shuffle rearranges the cards it is given. *)
Hypothesis shuffle_perm : forall g l, shuffle g l ≡ₚ l.

Lemma Deck_deal_total d g :
  (0 < num_decks d)%nat ->
  exists c d' g',
    Deck_deal shuffle d g = Some (c, d', g') /\ num_decks d' = num_decks d.
Proof.
  intros Hn. unfold Deck_deal.
  destruct ((length (deck_cards d) =? 0)%nat || (length (deck_cards d) <? 15)%nat)
    eqn:E.
  - unfold Deck_build. cbn [deck_cards num_decks].
    destruct (pop_nonempty (shuffle g (unshuffled (num_decks d)))) as (x & r & Hp & _).
    { intros Hnil. pose proof (Permutation_length (shuffle_perm g (unshuffled (num_decks d)))) as HL.
      rewrite Hnil, length_unshuffled in HL. simpl in HL. lia. }
    rewrite Hp. simpl. eauto.
  - apply orb_false_iff in E as [E0 _]. apply Nat.eqb_neq in E0.
    destruct (pop_nonempty (deck_cards d)) as (x & r & Hp & _).
    { intros Hnil. rewrite Hnil in E0. done. }
    rewrite Hp. simpl. eauto.
Qed.

Lemma deck_deal_total s d :
  deck s = Some d ->
  (0 < num_decks d)%nat ->
  exists c d' g',
    deck_deal shuffle s = Some (c, set_rng (set_deck s (Some d')) g')
    /\ num_decks d' = num_decks d.
Proof.
  intros Hd Hn. unfold deck_deal. rewrite Hd. simpl.
  destruct (Deck_deal_total d (rng s) Hn) as (c & d' & g' & E & Hn').
  rewrite E. simpl. eauto.
Qed.

(** What [current] returning a seat says about the state. *)
Lemma current_Some s name h :
  current s = Some (name, h) ->
  dealer_turn s = false
  /\ dict_keys (player_hands s) !! current_player_idx s = Some name
  /\ name <> EmptyString
  /\ exists hands,
       dict_get (player_hands s) name = Some hands
       /\ hands !! current_hand_idx s = Some h.
Proof.
  unfold current. destruct (dealer_turn s); [discriminate|].
  destruct (dict_keys (player_hands s) !! current_player_idx s) as [n|]; [|discriminate].
  simpl. destruct (dict_get (player_hands s) n) as [hs|] eqn:Eh; [|discriminate].
  simpl. destruct (hs !! current_hand_idx s) as [h0|] eqn:El; [|discriminate].
  simpl. case_bool_decide as En; [discriminate|].
  intros [= -> ->]. eauto 10.
Qed.

Lemma current_intro s name h hands :
  dealer_turn s = false ->
  dict_keys (player_hands s) !! current_player_idx s = Some name ->
  name <> EmptyString ->
  dict_get (player_hands s) name = Some hands ->
  hands !! current_hand_idx s = Some h ->
  current s = Some (name, h).
Proof.
  intros Ht Hk Hn Hh Hl. unfold current. rewrite Ht, Hk. simpl.
  rewrite Hh. simpl. rewrite Hl. simpl.
  rewrite bool_decide_eq_false_2 by done. reflexivity.
Qed.

(** ** Double *)

Lemma doubled_hand_facts h c :
  bet (doubled_hand h c) = bet h * 2
  /\ cards (doubled_hand h c) = cards h ++ [c]
  /\ doubled (doubled_hand h c) = true
  /\ is_standing (doubled_hand h c) = true
  /\ is_bust (doubled_hand h c) = (21 <? get_value (doubled_hand h c)).
Proof.
  unfold doubled_hand. set (h1 := set_doubled (set_bet h (bet h * 2)) true).
  split.
  { change (bet (add_card h1 c) = bet h * 2). rewrite add_card_bet. reflexivity. }
  split.
  { change (cards (add_card h1 c) = cards h ++ [c]). rewrite cards_add_card.
    reflexivity. }
  split.
  { change (doubled (add_card h1 c) = true). rewrite add_card_doubled.
    reflexivity. }
  split; [reflexivity|].
  change (is_bust (add_card h1 c) = (21 <? get_value (add_card h1 c))).
  apply add_card_flags_ok.
Qed.

Lemma double_effect s name h bankroll hands d :
  in_playing s = true ->
  current s = Some (name, h) ->
  dict_get (bankrolls s) name = Some bankroll ->
  dict_get (player_hands s) name = Some hands ->
  double_allowed bankroll h = true ->
  deck s = Some d ->
  (0 < num_decks d)%nat ->
  exists c d' g',
    deck_deal shuffle s = Some (c, set_rng (set_deck s (Some d')) g')
    /\ double shuffle s
       = Some (set_player_hands
                 (set_rng
                    (set_deck
                       (set_bankrolls s
                          (dict_set (bankrolls s) name (bankroll - bet h)))
                       (Some d'))
                    g')
                 (dict_set (player_hands s) name
                    (<[current_hand_idx s := doubled_hand h c]> hands))).
Proof.
  intros Hplay Hcur Hbank Hhands Hok Hd Hn.
  destruct (Deck_deal_total d (rng s) Hn) as (c & d' & g' & E & _).
  exists c, d', g'. split.
  { unfold deck_deal. rewrite Hd. simpl. rewrite E. reflexivity. }
  unfold double. rewrite Hplay, Hcur. simpl. rewrite Hbank. simpl. rewrite Hok.
  unfold deck_deal. simpl. rewrite Hd. simpl. rewrite E. simpl.
  unfold store_hand. simpl. rewrite Hhands. reflexivity.
Qed.

(** C4: on a playable two-card hand that is not doubled, with a bankroll of
    at least the bet, Double takes the bet from the bankroll again, doubles
    the hand's bet, draws one card (three cards then) and makes the hand
    stand whatever the total; from 1000 with a bet of 100 the bankroll is 900
    after the bet and 800 after the double with a bet of 200, and 20 against
    19 pays 400 for a bankroll of 1200. *)
Theorem double_action :
  (forall (s : State) (name : string) (h : Hand) (bankroll : Z) (d : Deck),
     in_playing s = true ->
     current s = Some (name, h) ->
     dict_get (bankrolls s) name = Some bankroll ->
     playable h = true ->
     length (cards h) = 2%nat ->
     doubled h = false ->
     bet h <= bankroll ->
     deck s = Some d ->
     (0 < num_decks d)%nat ->
     exists (c : Card) (s_d s' : State) (h' : Hand),
       deck_deal shuffle s = Some (c, s_d)
       /\ double shuffle s = Some s'
       /\ dict_get (bankrolls s') name = Some (bankroll - bet h)
       /\ current s' = Some (name, h')
       /\ bet h' = bet h * 2
       /\ cards h' = cards h ++ [c]
       /\ length (cards h') = 3%nat
       /\ doubled h' = true
       /\ is_standing h' = true
       /\ is_bust h' = (21 <? get_value h'))
  /\ scenario_run shuffle = Some (900, (800, 200), (20, 19), (400, 1200)).
Proof.
  split; [|vm_compute; reflexivity].
  intros s name h bankroll d Hplay Hcur Hbank Hp Hlen Hdbl Hbet Hd Hn.
  destruct (current_Some s name h Hcur) as (Ht & Hk & Hne & hands & Hh & Hl).
  assert (Hok : double_allowed bankroll h = true).
  { unfold double_allowed, can_double. rewrite Hp, Hlen, Hdbl. simpl.
    apply Z.leb_le. exact Hbet. }
  destruct (double_effect s name h bankroll hands d Hplay Hcur Hbank Hh Hok Hd Hn)
    as (c & d' & g' & Hdeal & Hdouble).
  eexists c, _, _, (doubled_hand h c).
  split; [exact Hdeal|]. split; [exact Hdouble|].
  split; [simpl; apply dict_get_set_eq|].
  split.
  { apply current_intro with (hands := <[current_hand_idx s := doubled_hand h c]> hands);
      simpl; try done.
    - rewrite dict_keys_set by eauto. exact Hk.
    - apply dict_get_set_eq.
    - apply list_lookup_insert_eq. eapply lookup_lt_Some. exact Hl. }
  destruct (doubled_hand_facts h c) as (Hb & Hc & Hdd & Hs & Hbust).
  split; [exact Hb|]. split; [exact Hc|].
  split; [rewrite Hc, length_app, Hlen; reflexivity|].
  split; [exact Hdd|]. split; [exact Hs|exact Hbust].
Qed.

(** ** Split *)

Lemma split_effect s name h bankroll hands c1 c2 d :
  in_playing s = true ->
  current s = Some (name, h) ->
  dict_get (bankrolls s) name = Some bankroll ->
  dict_get (player_hands s) name = Some hands ->
  split_allowed bankroll h hands = true ->
  cards h = [c1; c2] ->
  deck s = Some d ->
  (0 < num_decks d)%nat ->
  exists k1 d1 g1 k2 d2 g2,
    deck_deal shuffle s = Some (k1, set_rng (set_deck s (Some d1)) g1)
    /\ deck_deal shuffle (set_rng (set_deck s (Some d1)) g1)
       = Some (k2, set_rng (set_deck (set_rng (set_deck s (Some d1)) g1) (Some d2)) g2)
    /\ split shuffle s
       = Some (set_player_hands
                 (set_bankrolls
                    (set_rng (set_deck s (Some d2)) g2)
                    (dict_set (bankrolls s) name (bankroll - bet h)))
                 (dict_set (player_hands s) name
                    (take (current_hand_idx s) hands
                     ++ [split_kept h c1 k1; split_new h c2 k2]
                     ++ drop (S (current_hand_idx s)) hands))).
Proof.
  intros Hplay Hcur Hbank Hhands Hok Hcards Hd Hn.
  destruct (current_Some s name h Hcur) as (_ & _ & _ & hands' & Hh' & Hl).
  rewrite Hhands in Hh'. injection Hh' as <-.
  destruct (Deck_deal_total d (rng s) Hn) as (k1 & d1 & g1 & E1 & Hn1).
  assert (Hn1' : (0 < num_decks d1)%nat) by lia.
  destruct (Deck_deal_total d1 g1 Hn1') as (k2 & d2 & g2 & E2 & _).
  exists k1, d1, g1, k2, d2, g2.
  split. { unfold deck_deal. rewrite Hd. simpl. rewrite E1. reflexivity. }
  split. { unfold deck_deal. simpl. rewrite E2. reflexivity. }
  unfold split. rewrite Hplay, Hcur. simpl. rewrite Hbank. simpl.
  rewrite Hhands. simpl. rewrite Hok, Hcards.
  change (pop [c1; c2]) with (Some (c2, [c1])). simpl.
  unfold deck_deal. simpl. rewrite Hd. simpl. rewrite E1. simpl. rewrite E2. simpl.
  rewrite Hbank. simpl.
  rewrite (list_insert_at_after hands (current_hand_idx s) _ _ h Hl).
  unfold split_kept, split_new.
  rewrite (add_card_bet (set_cards (set_bet Hand_new (bet h)) [c2]) k2).
  reflexivity.
Qed.

Lemma split_allowed_intro bankroll h hands c1 c2 :
  playable h = true ->
  cards h = [c1; c2] ->
  c1.1 = c2.1 ->
  bet h <= bankroll ->
  (length hands < 4)%nat ->
  split_allowed bankroll h hands = true.
Proof.
  intros Hp Hcards Hrank Hbet Hlen.
  assert (Hcs : can_split h = true) by (apply can_split_iff; eauto).
  unfold split_allowed. rewrite Hp, Hcs. simpl.
  apply andb_true_iff. split; [apply Z.leb_le; exact Hbet|].
  apply Nat.ltb_lt. exact Hlen.
Qed.

Lemma split_hands_lookup {A : Type} (l : list A) (i : nat) (a b : A) :
  (i < length l)%nat ->
  let l' := take i l ++ [a; b] ++ drop (S i) l in
  l' !! i = Some a /\ l' !! S i = Some b /\ length l' = S (length l).
Proof.
  intros Hi l'.
  assert (Hlt : length (take i l) = i) by (rewrite length_take; lia).
  split; [|split].
  - unfold l'. rewrite lookup_app_r by lia. rewrite Hlt, Nat.sub_diag. reflexivity.
  - unfold l'. rewrite lookup_app_r by lia. rewrite Hlt.
    replace (S i - i)%nat with 1%nat by lia. reflexivity.
  - unfold l'. rewrite !length_app, length_take, length_drop. simpl. lia.
Qed.

Lemma split_outcome s name h bankroll hands c1 c2 d :
  in_playing s = true ->
  current s = Some (name, h) ->
  dict_get (bankrolls s) name = Some bankroll ->
  dict_get (player_hands s) name = Some hands ->
  playable h = true ->
  cards h = [c1; c2] ->
  c1.1 = c2.1 ->
  bet h <= bankroll ->
  (length hands < 4)%nat ->
  deck s = Some d ->
  (0 < num_decks d)%nat ->
  exists (k1 k2 : Card) (s1 s2 s' : State),
    deck_deal shuffle s = Some (k1, s1)
    /\ deck_deal shuffle s1 = Some (k2, s2)
    /\ split shuffle s = Some s'
    /\ dict_get (player_hands s') name
       = Some (take (current_hand_idx s) hands
               ++ [split_kept h c1 k1; split_new h c2 k2]
               ++ drop (S (current_hand_idx s)) hands)
    /\ dict_get (bankrolls s') name = Some (bankroll - bet h)
    /\ current s' = Some (name, split_kept h c1 k1)
    /\ (current_hand_idx s < length hands)%nat.
Proof.
  intros Hplay Hcur Hbank Hhands Hp Hcards Hrank Hbet Hlen Hd Hn.
  destruct (current_Some s name h Hcur) as (Ht & Hk & Hne & hands0 & Hh0 & Hl).
  rewrite Hhands in Hh0. injection Hh0 as <-.
  pose proof (split_allowed_intro bankroll h hands c1 c2 Hp Hcards Hrank Hbet Hlen)
    as Hok.
  destruct (split_effect s name h bankroll hands c1 c2 d
              Hplay Hcur Hbank Hhands Hok Hcards Hd Hn)
    as (k1 & d1 & g1 & k2 & d2 & g2 & Hdeal1 & Hdeal2 & Hsplit).
  pose proof (lookup_lt_Some _ _ _ Hl) as Hi.
  destruct (split_hands_lookup hands (current_hand_idx s)
              (split_kept h c1 k1) (split_new h c2 k2) Hi) as (HA & _ & _).
  eexists k1, k2, _, _, _.
  split; [exact Hdeal1|]. split; [exact Hdeal2|]. split; [exact Hsplit|].
  split; [simpl; apply dict_get_set_eq|].
  split; [simpl; apply dict_get_set_eq|].
  split; [|exact Hi].
  eapply current_intro; simpl; try done.
  - rewrite dict_keys_set by eauto. exact Hk.
  - apply dict_get_set_eq.
Qed.

(** C5: on a playable hand of two equal-rank cards, with a bankroll of at
    least the bet and fewer than four hands, Split puts a new hand right
    after the current one with the second card and an equal bet, deals one
    fresh card to each of the two (two cards each), takes one more bet from
    the bankroll, and the player then holds one hand more, at most four. *)
Theorem split_action
    (s : State) (name : string) (h : Hand) (bankroll : Z) (hands : list Hand)
    (c1 c2 : Card) (d : Deck) :
  in_playing s = true ->
  current s = Some (name, h) ->
  dict_get (bankrolls s) name = Some bankroll ->
  dict_get (player_hands s) name = Some hands ->
  playable h = true ->
  cards h = [c1; c2] ->
  c1.1 = c2.1 ->
  bet h <= bankroll ->
  (length hands < 4)%nat ->
  deck s = Some d ->
  (0 < num_decks d)%nat ->
  exists (k1 k2 : Card) (s1 s2 s' : State) (hands' : list Hand) (hA hB : Hand),
    deck_deal shuffle s = Some (k1, s1)
    /\ deck_deal shuffle s1 = Some (k2, s2)
    /\ split shuffle s = Some s'
    /\ dict_get (player_hands s') name = Some hands'
    /\ hands' = take (current_hand_idx s) hands ++ [hA; hB]
                ++ drop (S (current_hand_idx s)) hands
    /\ hands' !! current_hand_idx s = Some hA
    /\ hands' !! S (current_hand_idx s) = Some hB
    /\ hA = hand_step h (OpSplit k1)
    /\ cards hA = [c1; k1] /\ bet hA = bet h
    /\ cards hB = [c2; k2] /\ bet hB = bet h /\ doubled hB = false
    /\ dict_get (bankrolls s') name = Some (bankroll - bet h)
    /\ length hands' = S (length hands)
    /\ (length hands' <= 4)%nat
    /\ current s' = Some (name, hA).
Proof.
  intros Hplay Hcur Hbank Hhands Hp Hcards Hrank Hbet Hlen Hd Hn.
  destruct (split_outcome s name h bankroll hands c1 c2 d
              Hplay Hcur Hbank Hhands Hp Hcards Hrank Hbet Hlen Hd Hn)
    as (k1 & k2 & s1 & s2 & s' & Hdeal1 & Hdeal2 & Hsplit & Hg & Hb & Hc & Hi).
  destruct (split_hands_lookup hands (current_hand_idx s)
              (split_kept h c1 k1) (split_new h c2 k2) Hi) as (HA & HB & HL).
  eexists k1, k2, s1, s2, s', _, (split_kept h c1 k1), (split_new h c2 k2).
  split; [exact Hdeal1|]. split; [exact Hdeal2|]. split; [exact Hsplit|].
  split; [exact Hg|]. split; [reflexivity|]. split; [exact HA|]. split; [exact HB|].
  split.
  { assert (Hcs : can_split h = true) by (apply can_split_iff; eauto).
    simpl. rewrite Hcs, Hcards. reflexivity. }
  unfold split_kept, split_new in *.
  split; [rewrite cards_add_card; reflexivity|].
  split; [rewrite add_card_bet; reflexivity|].
  split; [rewrite cards_add_card; reflexivity|].
  split; [rewrite add_card_bet; reflexivity|].
  split; [rewrite add_card_doubled; reflexivity|].
  split; [exact Hb|]. split; [exact HL|]. split; [rewrite HL; lia|exact Hc].
Qed.

Lemma second_card_21 h0 c :
  length (cards h0) = 1%nat ->
  get_value (add_card h0 c) = 21 ->
  length (cards (add_card h0 c)) = 2%nat
  /\ is_blackjack (add_card h0 c) = true
  /\ is_standing (add_card h0 c) = true
  /\ is_bust (add_card h0 c) = false.
Proof.
  intros Hlen Hv. unfold get_value in Hv. rewrite cards_add_card in Hv.
  destruct (add_card_flags h0 c) as [Hb Hj].
  rewrite add_card_standing, Hb, Hj, cards_add_card, length_app, Hlen, Hv.
  repeat split; reflexivity.
Qed.

Lemma blackjack_result dh h :
  is_bust h = false ->
  is_blackjack h = true ->
  is_blackjack dh = false ->
  round_result dh h = (blackjack, int_bet_2_5 (bet h)).
Proof. intros Hb Hj Hd. unfold round_result. rewrite Hb, Hj, Hd. reflexivity. Qed.

Lemma second_card_blackjack_paid h0 c :
  length (cards h0) = 1%nat ->
  0 <= bet h0 ->
  length (cards (add_card h0 c)) = 2%nat
  /\ (get_value (add_card h0 c) = 21 ->
      is_blackjack (add_card h0 c) = true
      /\ is_standing (add_card h0 c) = true
      /\ forall dh : Hand,
           is_blackjack dh = false ->
           round_result dh (add_card h0 c) = (blackjack, int_bet_2_5 (bet h0))
           /\ payout dh (add_card h0 c) = int_bet_2_5 (bet h0)
           /\ (5 * bet h0 < 2 ^ 53 ->
               round_result dh (add_card h0 c) = (blackjack, (5 * bet h0) / 2)
               /\ payout dh (add_card h0 c) = (5 * bet h0) / 2)).
Proof.
  intros H1 Hbet. split.
  - rewrite cards_add_card, length_app, H1. reflexivity.
  - intros Hv. destruct (second_card_21 h0 c H1 Hv) as (_ & Hj & Hst & Hbu).
    split; [exact Hj|]. split; [exact Hst|]. intros dh Hdj.
    rewrite <- round_result_payout, (blackjack_result dh _ Hbu Hj Hdj).
    rewrite add_card_bet. split; [reflexivity|]. split; [reflexivity|].
    intros Hsmall. rewrite (int_bet_2_5_floor _ Hbet Hsmall). split; reflexivity.
Qed.

(** C10: after a split, each of the two resulting hands has two cards, and
    one whose value is 21 (a split ace that draws a ten-value card, say) has
    its blackjack flag set, stands, and is paid as blackjack when the dealer
    has no blackjack: [int(bet * 2.5)], the float product truncated, which
    is floor(2.5 bet) as long as 5 bet is below 2^53. *)
Theorem split_hand_blackjack
    (s : State) (name : string) (h : Hand) (bankroll : Z) (hands : list Hand)
    (c1 c2 : Card) (d : Deck) :
  in_playing s = true ->
  current s = Some (name, h) ->
  dict_get (bankrolls s) name = Some bankroll ->
  dict_get (player_hands s) name = Some hands ->
  playable h = true ->
  cards h = [c1; c2] ->
  c1.1 = c2.1 ->
  0 <= bet h <= bankroll ->
  (length hands < 4)%nat ->
  deck s = Some d ->
  (0 < num_decks d)%nat ->
  exists (s' : State) (hands' : list Hand) (hA hB : Hand),
    split shuffle s = Some s'
    /\ dict_get (player_hands s') name = Some hands'
    /\ hands' !! current_hand_idx s = Some hA
    /\ hands' !! S (current_hand_idx s) = Some hB
    /\ (forall hx : Hand,
          hx = hA \/ hx = hB ->
          length (cards hx) = 2%nat
          /\ (get_value hx = 21 ->
              is_blackjack hx = true
              /\ is_standing hx = true
              /\ forall dh : Hand,
                   is_blackjack dh = false ->
                   round_result dh hx = (blackjack, int_bet_2_5 (bet h))
                   /\ payout dh hx = int_bet_2_5 (bet h)
                   /\ (5 * bet h < 2 ^ 53 ->
                       round_result dh hx = (blackjack, (5 * bet h) / 2)
                       /\ payout dh hx = (5 * bet h) / 2)))
    /\ (c1.1 = Ace ->
        forall (r : Rank) (u : Suit),
          CARD_VALUES r = 10 ->
          get_value (split_kept h c1 (r, u)) = 21
          /\ get_value (split_new h c2 (r, u)) = 21).
Proof.
  intros Hplay Hcur Hbank Hhands Hp Hcards Hrank [Hbet0 Hbet] Hlen Hd Hn.
  destruct (split_outcome s name h bankroll hands c1 c2 d
              Hplay Hcur Hbank Hhands Hp Hcards Hrank Hbet Hlen Hd Hn)
    as (k1 & k2 & s1 & s2 & s' & _ & _ & Hsplit & Hg & _ & _ & Hi).
  destruct (split_hands_lookup hands (current_hand_idx s)
              (split_kept h c1 k1) (split_new h c2 k2) Hi) as (HA & HB & _).
  eexists s', _, (split_kept h c1 k1), (split_new h c2 k2).
  split; [exact Hsplit|]. split; [exact Hg|]. split; [exact HA|]. split; [exact HB|].
  split.
  - intros hx [-> | ->].
    + apply (second_card_blackjack_paid (set_cards h [c1]) k1); [reflexivity|exact Hbet0].
    + apply (second_card_blackjack_paid (set_cards (set_bet Hand_new (bet h)) [c2]) k2);
        [reflexivity|exact Hbet0].
  - intros Hace r u Hr. rewrite Hrank in Hace.
    destruct c1 as [r1 u1], c2 as [r2 u2]. simpl in *. subst r1 r2.
    unfold split_kept, split_new, get_value. rewrite !cards_add_card. simpl.
    unfold cards_value. simpl. unfold count_card. simpl.
    destruct r; try discriminate; split; reflexivity.
Qed.

(** ** The dealer's turn *)

Lemma deck_deal_view s c s1 :
  deck_deal shuffle s = Some (c, s1) ->
  round_view s1 = round_view s /\ dealer_hand s1 = dealer_hand s.
Proof.
  unfold deck_deal. destruct (deck s) as [d|]; [|discriminate]. simpl.
  destruct (Deck_deal shuffle d (rng s)) as [[[c0 d0] g0]|]; [|discriminate].
  simpl. intros [= <- <-]. split; reflexivity.
Qed.

Lemma dealer_draws_run n s s' :
  dealer_draws shuffle n s s' -> dealer_loop shuffle s = Some s'.
Proof.
  induction 1 as [s dh Hd Hv|n s dh c s1 s' Hd Hv Hdeal _ IH];
    rewrite dealer_loop_eq, Hd.
  - replace (get_value dh <? 17) with false
      by (symmetry; apply Z.ltb_ge; exact Hv).
    reflexivity.
  - replace (get_value dh <? 17) with true
      by (symmetry; apply Z.ltb_lt; exact Hv).
    rewrite Hdeal. exact IH.
Qed.


Lemma dealer_draws_total m s dh d :
  dealer_hand s = Some dh ->
  deck s = Some d ->
  (0 < num_decks d)%nat ->
  (Z.to_nat (17 - low_sum (cards dh)) <= m)%nat ->
  exists n s', (n <= m)%nat /\ dealer_draws shuffle n s s'.
Proof.
  revert s dh d. induction m as [|m IH]; intros s dh d Hd Hdeck Hn Hm.
  - exists O, s. split; [lia|]. apply draws_stop with dh; [exact Hd|].
    pose proof (get_value_ge_low dh). lia.
  - destruct (Z_lt_le_dec (get_value dh) 17) as [Hlt|Hge].
    + destruct (deck_deal_total s d Hdeck Hn) as (c & d' & g' & Hdeal & Hn').
      destruct (IH (set_dealer_hand (set_rng (set_deck s (Some d')) g')
                      (Some (add_card dh c))) (add_card dh c) d')
        as (n & s' & Hle & Hrun); try reflexivity; [lia| |].
      { rewrite cards_add_card, low_sum_app. pose proof (ace_low_pos c).
        pose proof (get_value_ge_low dh). lia. }
      exists (S n), s'. split; [lia|].
      eapply draws_step; eauto.
    + exists O, s. split; [lia|]. apply draws_stop with dh; done.
Qed.

Lemma dealer_draws_result n s s' dh :
  dealer_draws shuffle n s s' ->
  dealer_hand s = Some dh ->
  round_view s' = round_view s
  /\ exists dh' drawn,
       dealer_hand s' = Some dh'
       /\ 17 <= get_value dh'
       /\ cards dh' = cards dh ++ drawn
       /\ length drawn = n
       /\ forall k, (k < n)%nat -> cards_value (cards dh ++ take k drawn) < 17.
Proof.
  intros H. revert dh.
  induction H as [s dh0 Hd Hv|n s dh0 c s1 s' Hd Hv Hdeal _ IH]; intros dh Hdh;
    rewrite Hd in Hdh; injection Hdh as ->.
  - split; [reflexivity|]. exists dh, []. rewrite app_nil_r.
    repeat split; try done. intros k Hk. lia.
  - destruct (IH (add_card dh c) eq_refl) as (Hview & dh' & drawn & Hd' & Hv' & Hc & Hl & Hpre).
    destruct (deck_deal_view s c s1 Hdeal) as [Hview1 _].
    split; [rewrite Hview; exact Hview1|].
    exists dh', (c :: drawn). split; [exact Hd'|]. split; [exact Hv'|].
    rewrite cards_add_card, <- app_assoc in Hc. split; [exact Hc|].
    split; [simpl; lia|].
    intros [|k] Hk.
    + simpl. rewrite app_nil_r. exact Hv.
    + simpl. specialize (Hpre k ltac:(lia)).
      rewrite cards_add_card, <- app_assoc in Hpre. exact Hpre.
Qed.

Lemma dealer_loop_draws_aux m s s' :
  (dealer_measure s <= m)%nat ->
  dealer_loop shuffle s = Some s' ->
  exists n, dealer_draws shuffle n s s'.
Proof.
  revert s. induction m as [|m IH]; intros s Hm; rewrite dealer_loop_eq;
    unfold dealer_measure in Hm;
    destruct (dealer_hand s) as [dh|] eqn:Hd; try discriminate;
    destruct (get_value dh <? 17) eqn:Hv;
    try (intros [= <-]; exists O; apply draws_stop with dh;
         [exact Hd|apply Z.ltb_ge; exact Hv]).
  - apply Z.ltb_lt in Hv. pose proof (get_value_ge_low dh). lia.
  - apply Z.ltb_lt in Hv.
    destruct (deck_deal shuffle s) as [[c s1]|] eqn:Hdeal; [|discriminate].
    intros Hrun.
    assert (Hm' : (dealer_measure (set_dealer_hand s1 (Some (add_card dh c))) <= m)%nat).
    { unfold dealer_measure. simpl. rewrite cards_add_card, low_sum_app.
      pose proof (ace_low_pos c). pose proof (get_value_ge_low dh). lia. }
    destruct (IH _ Hm' Hrun) as [n Hn].
    exists (S n). eapply draws_step; eauto.
Qed.

Lemma dealer_loop_draws s s' :
  dealer_loop shuffle s = Some s' -> exists n, dealer_draws shuffle n s s'.
Proof. apply (dealer_loop_draws_aux (dealer_measure s)). lia. Qed.


(** ** Settlement *)

Lemma round_view_fields s s' :
  round_view s' = round_view s ->
  dealer_turn s' = dealer_turn s
  /\ round_over s' = round_over s
  /\ payouts_applied s' = payouts_applied s
  /\ bankrolls s' = bankrolls s
  /\ player_hands s' = player_hands s.
Proof. unfold round_view. intros [= ]. auto. Qed.

Lemma set_dealer_turn_id s : dealer_turn s = true -> set_dealer_turn s true = s.
Proof. destruct s. simpl. intros ->. reflexivity. Qed.

Lemma set_round_over_id s : round_over s = true -> set_round_over s true = s.
Proof. destruct s. simpl. intros ->. reflexivity. Qed.

Lemma apply_payouts_fields s s' :
  apply_payouts s = Some s' ->
  payouts_applied s' = true
  /\ dealer_hand s' = dealer_hand s
  /\ dealer_turn s' = dealer_turn s
  /\ player_hands s' = player_hands s.
Proof.
  unfold apply_payouts. destruct (dealer_hand s) as [dh|] eqn:Hd; [|discriminate].
  simpl.
  destruct (pay_players dh (player_hands s) (bankrolls s)) as [bank|]; [|discriminate].
  simpl. intros [= <-]. simpl. rewrite Hd. repeat split; reflexivity.
Qed.

Lemma reveal_settled s dh :
  dealer_turn s = true ->
  round_over s = true ->
  payouts_applied s = true ->
  dealer_hand s = Some dh ->
  17 <= get_value dh ->
  reveal_dealer_body shuffle s = Some s.
Proof.
  intros Ht Ho Hp Hd Hv. unfold reveal_dealer_body.
  rewrite (set_dealer_turn_id s Ht), dealer_loop_eq, Hd.
  replace (get_value dh <? 17) with false by (symmetry; apply Z.ltb_ge; exact Hv).
  simpl. rewrite Hp. simpl. rewrite (set_round_over_id s Ho). reflexivity.
Qed.

(** C6: payouts reach the bankrolls once per round: after Reveal Dealer has
    settled a round, revealing again changes nothing, and whenever the
    payouts of a round are marked as applied a reveal leaves every bankroll
    as it was. *)
Theorem settlement_once :
  (forall s s1 : State,
     reveal_dealer_body shuffle s = Some s1 ->
     payouts_applied s1 = true
     /\ reveal_dealer_body shuffle s1 = Some s1
     /\ reveal_dealer shuffle s1 = Some s1
     /\ forall s2 : State,
          reveal_dealer_body shuffle s1 = Some s2 -> bankrolls s2 = bankrolls s1)
  /\ (forall s s2 : State,
        payouts_applied s = true ->
        reveal_dealer_body shuffle s = Some s2 ->
        bankrolls s2 = bankrolls s)
  /\ (forall s s1 : State,
        payouts_applied s = false ->
        reveal_dealer_body shuffle s = Some s1 ->
        exists dh : Hand,
          dealer_hand s1 = Some dh
          /\ pay_players dh (player_hands s) (bankrolls s) = Some (bankrolls s1)).
Proof.
  assert (Hloop : forall s sa,
            dealer_loop shuffle (set_dealer_turn s true) = Some sa ->
            dealer_turn sa = true
            /\ payouts_applied sa = payouts_applied s
            /\ bankrolls sa = bankrolls s
            /\ player_hands sa = player_hands s
            /\ exists dh, dealer_hand sa = Some dh /\ 17 <= get_value dh).
  { intros s sa Hrun. destruct (dealer_loop_draws _ _ Hrun) as [n Hn].
    assert (exists dh, dealer_hand (set_dealer_turn s true) = Some dh) as [dh Hd].
    { inversion Hn; eauto. }
    destruct (dealer_draws_result n _ sa dh Hn Hd) as (Hview & dh' & _ & Hd' & Hv' & _).
    apply round_view_fields in Hview as (Ht & _ & Hp & Hb & Hh). simpl in *.
    eauto 10. }
  assert (Hfix : forall s s1,
            reveal_dealer_body shuffle s = Some s1 ->
            payouts_applied s1 = true /\ reveal_dealer_body shuffle s1 = Some s1).
  { intros s s1. unfold reveal_dealer_body at 1.
    destruct (dealer_loop shuffle (set_dealer_turn s true)) as [sa|] eqn:Hrun;
      [|discriminate].
    destruct (Hloop s sa Hrun) as (Ht & Hp & _ & _ & dh & Hd & Hv). simpl.
    destruct (payouts_applied sa) eqn:Hpa; simpl.
    - intros [= <-]. split; [exact Hpa|]. apply reveal_settled with dh; done.
    - destruct (apply_payouts sa) as [sb|] eqn:Hpay; [|discriminate]. simpl.
      intros [= <-]. apply apply_payouts_fields in Hpay as (Hpb & Hdb & Htb & _).
      split; [exact Hpb|]. apply reveal_settled with dh; simpl; try done.
      + congruence.
      + congruence. }
  split; [|split].
  - intros s s1 H. destruct (Hfix s s1 H) as [Hp Hagain].
    split; [exact Hp|]. split; [exact Hagain|]. split.
    + unfold reveal_dealer, in_playing.
      assert (Ho : round_over s1 = true).
      { revert H. unfold reveal_dealer_body.
        destruct (dealer_loop shuffle _); [|discriminate]. simpl.
        destruct (if negb _ then _ else _); [|discriminate]. simpl.
        intros [= <-]. reflexivity. }
      rewrite Ho, !andb_false_r. reflexivity.
    + intros s2 H2. rewrite Hagain in H2. injection H2 as <-. reflexivity.
  - intros s s2 Hp. unfold reveal_dealer_body.
    destruct (dealer_loop shuffle (set_dealer_turn s true)) as [sa|] eqn:Hrun;
      [|discriminate].
    destruct (Hloop s sa Hrun) as (_ & Hpa & Hb & _). simpl.
    rewrite Hpa, Hp. simpl. intros [= <-]. exact Hb.
  - intros s s1 Hp. unfold reveal_dealer_body.
    destruct (dealer_loop shuffle (set_dealer_turn s true)) as [sa|] eqn:Hrun;
      [|discriminate].
    destruct (Hloop s sa Hrun) as (_ & Hpa & Hb & Hh & dh & Hd & _). simpl.
    rewrite Hpa, Hp. simpl. unfold apply_payouts. rewrite Hd, Hb, Hh. simpl.
    destruct (pay_players dh (player_hands s) (bankrolls s)) as [bank|] eqn:Hpay;
      [|discriminate].
    simpl. intros [= <-]. exists dh. split; [exact Hd|exact Hpay].
Qed.

(** ** The initial deal *)

Lemma dict_get_app_skip {V : Type} (done rest : dict V) k :
  k ∉ dict_keys done -> dict_get (done ++ rest) k = dict_get rest k.
Proof.
  induction done as [|[k0 v0] done IH]; simpl; [done|].
  rewrite not_elem_of_cons. intros [Hne Hnot].
  rewrite bool_decide_eq_false_2 by congruence. auto.
Qed.

Lemma dict_set_app_skip {V : Type} (done rest : dict V) k v :
  k ∉ dict_keys done -> dict_set (done ++ rest) k v = done ++ dict_set rest k v.
Proof.
  induction done as [|[k0 v0] done IH]; simpl; [done|].
  rewrite not_elem_of_cons. intros [Hne Hnot].
  rewrite bool_decide_eq_false_2 by congruence. rewrite IH; done.
Qed.

Lemma deal_round_spec todo :
  forall (done : dict (list Hand)) (s : State) (d : Deck) (run base : list Card),
    player_hands s = done ++ todo ->
    (forall k, k ∈ dict_keys todo -> k ∉ dict_keys done) ->
    NoDup (dict_keys todo) ->
    Forall (fun kv : string * list Hand => kv.2 <> []) todo ->
    deck s = Some d ->
    deck_cards d = base ++ reverse run ->
    length run = length todo ->
    (14 <= length base)%nat ->
    exists s',
      deal_round shuffle (dict_keys todo) s = Some s'
      /\ player_hands s' = done ++ zip_with deal_entry todo run
      /\ deck s' = Some (mkDeck (num_decks d) base)
      /\ rng s' = rng s
      /\ dealer_hand s' = dealer_hand s
      /\ bankrolls s' = bankrolls s.
Proof.
  induction todo as [|[k hs] todo IH];
    intros done s d run base Hph Hdisj Hnd Hne Hd Hc Hlen Hbase.
  - destruct run; [|discriminate]. exists s. simpl in *.
    rewrite reverse_nil, app_nil_r in Hc.
    split; [reflexivity|]. split; [exact Hph|].
    split; [rewrite Hd; destruct d; simpl in *; congruence|]. done.
  - destruct run as [|c run]; [discriminate|]. simpl in Hlen.
    rewrite reverse_cons, app_assoc in Hc.
    apply NoDup_cons in Hnd as [Hk Hnd]. apply Forall_cons in Hne as [Hhs Hne].
    destruct hs as [|h t]; [done|].
    assert (Hkd : k ∉ dict_keys done) by (apply Hdisj; apply list_elem_of_here).
    simpl deal_round. rewrite Hph, (dict_get_app_skip done _ k Hkd). simpl.
    rewrite bool_decide_eq_true_2 by done. simpl.
    rewrite (deck_deal_keep shuffle s d c (base ++ reverse run) Hd Hc)
      by (rewrite Hc, !length_app; simpl; lia).
    simpl. rewrite Hph, (dict_set_app_skip done _ k _ Hkd). simpl.
    rewrite bool_decide_eq_true_2 by done.
    destruct (IH (done ++ [(k, add_card h c :: t)])
                (set_player_hands
                   (set_rng (set_deck s (Some (mkDeck (num_decks d) (base ++ reverse run))))
                      (rng s))
                   (done ++ (k, add_card h c :: t) :: todo))
                (mkDeck (num_decks d) (base ++ reverse run)) run base)
      as (s' & Hrun & Hph' & Hd' & Hg' & Hdh' & Hb'); simpl; try done.
    + rewrite <- app_assoc. reflexivity.
    + intros k' Hk'. unfold dict_keys. rewrite map_app. simpl.
      rewrite elem_of_app, list_elem_of_singleton. intros [Hin | ->].
      * apply (Hdisj k'); [apply list_elem_of_further; exact Hk'|exact Hin].
      * done.
    + lia.
    + exists s'. split; [exact Hrun|]. rewrite Hph', <- app_assoc. done.
Qed.

Lemma dict_set_length_in {V : Type} (d : dict V) k v :
  is_Some (dict_get d k) -> length (dict_set d k v) = length d.
Proof.
  intros H. pose proof (f_equal length (dict_keys_set d k v H)) as E.
  unfold dict_keys in E. rewrite !length_map in E. exact E.
Qed.

Lemma Forall_dict_set {V : Type} (P : V -> Prop) (d : dict V) k v :
  Forall (fun kv : string * V => P kv.2) d ->
  P v ->
  Forall (fun kv : string * V => P kv.2) (dict_set d k v).
Proof.
  intros Hd Hv. induction Hd as [|[k0 v0] d H0 Hd IH]; simpl.
  - apply Forall_cons. split; [exact Hv|apply Forall_nil; done].
  - case_bool_decide; apply Forall_cons; auto.
Qed.

Lemma seat_players_spec bets :
  forall s s2,
    seat_players bets s = Some s2 ->
    seated (player_hands s) ->
    seated (player_hands s2)
    /\ deck s2 = deck s /\ rng s2 = rng s /\ dealer_hand s2 = dealer_hand s.
Proof.
  induction bets as [|[name b] bets IH]; intros s s2; simpl.
  - intros [= <-]. done.
  - destruct (0 <? b); [|apply IH]. simpl.
    destruct (dict_get (bankrolls s) name) as [bank|]; [|discriminate]. simpl.
    intros Hrun [Hnd Hall].
    apply IH in Hrun; [exact Hrun|]. simpl. split.
    + apply dict_keys_NoDup_set. exact Hnd.
    + apply (Forall_dict_set (fun hs => exists h, hs = [h] /\ cards h = []));
        [exact Hall|]. eexists. split; reflexivity.
Qed.

Lemma deal_round_length names :
  forall s s', deal_round shuffle names s = Some s' ->
               length (player_hands s') = length (player_hands s).
Proof.
  induction names as [|name names IH]; intros s s'; simpl.
  - intros [= <-]. reflexivity.
  - destruct (dict_get (player_hands s) name) as [hs|] eqn:Hg; [|discriminate].
    simpl. destruct (hs !! 0%nat) as [h|]; [|discriminate]. simpl.
    destruct (deck_deal shuffle s) as [[c s1]|] eqn:Hdeal; [|discriminate]. simpl.
    intros Hrun. apply IH in Hrun. rewrite Hrun. simpl.
    destruct (deck_deal_view s c s1 Hdeal) as [Hview _].
    apply round_view_fields in Hview as (_ & _ & _ & _ & Hph).
    rewrite Hph. apply dict_set_length_in. eauto.
Qed.

Lemma deal_pass_length s s' :
  deal_pass shuffle s = Some s' ->
  length (player_hands s') = length (player_hands s).
Proof.
  unfold deal_pass.
  destruct (deal_round shuffle _ s) as [s1|] eqn:Hr; [|discriminate]. simpl.
  unfold deal_dealer. destruct (dealer_hand s1); [|discriminate]. simpl.
  destruct (deck_deal shuffle s1) as [[c s2]|] eqn:Hdeal; [|discriminate]. simpl.
  intros [= <-]. simpl.
  destruct (deck_deal_view s1 c s2 Hdeal) as [Hview _].
  apply round_view_fields in Hview as (_ & _ & _ & _ & Hph).
  rewrite Hph. apply (deal_round_length _ _ _ Hr).
Qed.

Lemma deal_pass_spec s d dh run dc base :
  NoDup (dict_keys (player_hands s)) ->
  Forall (fun kv : string * list Hand => kv.2 <> []) (player_hands s) ->
  deck s = Some d ->
  deck_cards d = base ++ reverse (run ++ [dc]) ->
  length run = length (player_hands s) ->
  (14 <= length base)%nat ->
  dealer_hand s = Some dh ->
  exists s',
    deal_pass shuffle s = Some s'
    /\ player_hands s' = zip_with deal_entry (player_hands s) run
    /\ deck s' = Some (mkDeck (num_decks d) base)
    /\ rng s' = rng s
    /\ dealer_hand s' = Some (add_card dh dc)
    /\ bankrolls s' = bankrolls s.
Proof.
  intros Hnd Hne Hd Hc Hlen Hbase Hdh.
  rewrite reverse_snoc in Hc.
  destruct (deal_round_spec (player_hands s) [] s d run (base ++ [dc]))
    as (s1 & Hrun & Hph1 & Hd1 & Hg1 & Hdh1 & Hb1); try done.
  { intros k _. apply not_elem_of_nil. }
  { rewrite Hc, <- app_assoc. reflexivity. }
  { rewrite length_app. lia. }
  unfold deal_pass. rewrite Hrun. simpl. unfold deal_dealer.
  rewrite Hdh1, Hdh. simpl.
  rewrite (deck_deal_keep shuffle s1 _ dc base Hd1 eq_refl)
    by (simpl; rewrite length_app; simpl; lia).
  simpl. eexists. split; [reflexivity|]. simpl.
  rewrite Hph1, Hg1, Hb1. done.
Qed.

Lemma zip_deal_keys (ph : dict (list Hand)) (run : list Card) :
  length run = length ph ->
  dict_keys (zip_with deal_entry ph run) = dict_keys ph.
Proof.
  revert run. induction ph as [|[k hs] ph IH]; intros [|c run] Hlen;
    try discriminate; [reflexivity|].
  simpl. f_equal. apply IH. simpl in Hlen. lia.
Qed.

Lemma shoe_split (l : list Card) (n : nat) :
  (2 * n + 16 <= length l)%nat ->
  exists base run1 dc1 run2 dc2,
    l = base ++ reverse (run1 ++ [dc1] ++ run2 ++ [dc2])
    /\ length run1 = n /\ length run2 = n
    /\ (14 <= length base)%nat
    /\ (length base + (2 * n + 2) = length l)%nat.
Proof.
  intros Hlen. set (t := reverse l).
  assert (Ht : length t = length l) by apply length_reverse.
  destruct (drop n t) as [|dc1 r1] eqn:E1.
  { apply (f_equal length) in E1. rewrite length_drop in E1. simpl in E1. lia. }
  destruct (drop n r1) as [|dc2 r2] eqn:E2.
  { apply (f_equal length) in E1, E2. rewrite length_drop in E1, E2.
    simpl in E1, E2. lia. }
  assert (Hr1 : length r1 = (length l - n - 1)%nat).
  { apply (f_equal length) in E1. rewrite length_drop in E1. simpl in E1. lia. }
  assert (Hr2 : length r2 = (length l - n - 1 - n - 1)%nat).
  { apply (f_equal length) in E2. rewrite length_drop in E2. simpl in E2. lia. }
  exists (reverse r2), (take n t), dc1, (take n r1), dc2.
  split.
  { rewrite <- reverse_app. rewrite <- (reverse_involutive l). fold t. f_equal.
    rewrite <- !app_assoc. simpl.
    rewrite <- (take_drop n t) at 1. rewrite E1. f_equal. f_equal.
    rewrite <- (take_drop n r1) at 1. rewrite E2. reflexivity. }
  rewrite !length_take, length_reverse. lia.
Qed.

Lemma zip_deal_nonempty (ph : dict (list Hand)) (run : list Card) :
  Forall (fun kv : string * list Hand => kv.2 <> []) ph ->
  Forall (fun kv : string * list Hand => kv.2 <> []) (zip_with deal_entry ph run).
Proof.
  intros H. revert run. induction H as [|[k hs] ph Hhs _ IH]; intros [|c run];
    simpl; try apply Forall_nil; try done.
  apply Forall_cons. split; [|apply IH].
  simpl in *. destruct hs; done.
Qed.

(** C9: when no draw of the initial deal triggers a reshuffle (the shoe
    holds at least 2N + 16 cards for N player hands, that is at least 15
    before each draw), the deal takes exactly 2N + 2 cards off the shoe, in
    this order: one card to each player hand, one to the dealer, a second
    card to each player hand, a second to the dealer. *)
Theorem initial_deal (inputs : string -> Z) (s s' : State) (d : Deck) :
  in_betting s = true ->
  deck s = Some d ->
  deal_cards shuffle inputs s = Some s' ->
  round_active s' = true ->
  (2 * length (player_hands s') + 16 <= length (deck_cards d))%nat ->
  exists (d' : Deck) (base run1 : list Card) (dc1 : Card) (run2 : list Card)
         (dc2 : Card),
    deck_cards d = base ++ reverse (run1 ++ [dc1] ++ run2 ++ [dc2])
    /\ length run1 = length (player_hands s')
    /\ length run2 = length (player_hands s')
    /\ deck s' = Some d'
    /\ deck_cards d' = base
    /\ (length (deck_cards d') + (2 * length (player_hands s') + 2)
        = length (deck_cards d))%nat
    /\ rng s' = rng s
    /\ (forall (i : nat) (name : string) (hands : list Hand),
          player_hands s' !! i = Some (name, hands) ->
          exists (h : Hand) (c1 c2 : Card),
            hands = [h] /\ cards h = [c1; c2]
            /\ run1 !! i = Some c1 /\ run2 !! i = Some c2)
    /\ (exists dh : Hand, dealer_hand s' = Some dh /\ cards dh = [dc1; dc2]).
Proof.
  intros Hbet Hd H Hact Hlen.
  unfold deal_cards in H. rewrite Hbet in H. simpl in H.
  destruct (existsb _ (collect_bets s inputs)) eqn:Hex; simpl in H.
  2:{ injection H as <-. unfold in_betting in Hbet.
      rewrite Hact, !andb_false_r in Hbet. discriminate. }
  rewrite Hd in H.
  destruct (seat_players _ _) as [s2|] eqn:Hseat; [|discriminate]. simpl in H.
  destruct (deal_pass shuffle s2) as [s3|] eqn:Hp1; [|discriminate]. simpl in H.
  destruct (deal_pass shuffle s3) as [s4|] eqn:Hp2; [|discriminate]. simpl in H.
  injection H as <-. simpl in *.
  apply seat_players_spec in Hseat as ([Hnd Hall] & Hd2 & Hg2 & Hdh2);
    [|split; [apply NoDup_nil; done|apply Forall_nil; done]].
  simpl in Hd2, Hg2, Hdh2.
  pose proof (deal_pass_length _ _ Hp1) as HL3.
  pose proof (deal_pass_length _ _ Hp2) as HL4.
  rewrite HL4, HL3 in Hlen. rewrite HL4, HL3.
  destruct (shoe_split (deck_cards d) (length (player_hands s2)) Hlen)
    as (base & run1 & dc1 & run2 & dc2 & Hc & Hr1 & Hr2 & Hbase & Htot).
  assert (Hne : Forall (fun kv : string * list Hand => kv.2 <> []) (player_hands s2)).
  { eapply Forall_impl; [exact Hall|]. intros kv (h & -> & _). done. }
  destruct (deal_pass_spec s2 d Hand_new run1 dc1 (base ++ reverse (run2 ++ [dc2])))
    as (s3' & Hp1' & Hph3 & Hd3 & Hg3 & Hdh3 & _); try done.
  { rewrite Hc, <- app_assoc, <- reverse_app. f_equal. f_equal.
    rewrite <- !app_assoc. reflexivity. }
  { rewrite length_app. lia. }
  rewrite Hp1 in Hp1'. injection Hp1' as <-.
  destruct (deal_pass_spec s3 (mkDeck (num_decks d) (base ++ reverse (run2 ++ [dc2])))
              (add_card Hand_new dc1) run2 dc2 base)
    as (s4' & Hp2' & Hph4 & Hd4 & Hg4 & Hdh4 & _); try done.
  { rewrite Hph3, zip_deal_keys by done. exact Hnd. }
  { rewrite Hph3. apply zip_deal_nonempty. exact Hne. }
  { congruence. }
  rewrite Hp2 in Hp2'. injection Hp2' as <-.
  exists (mkDeck (num_decks d) base), base, run1, dc1, run2, dc2.
  split; [exact Hc|]. split; [exact Hr1|]. split; [exact Hr2|].
  split; [exact Hd4|]. split; [reflexivity|]. split; [simpl; lia|].
  split; [congruence|]. split.
  - intros i name hands. rewrite Hph4, Hph3.
    intros (kv1 & c2 & E2 & (kv0 & c1 & E1 & H0 & Hc1)%lookup_zip_with_Some & Hc2)
      %lookup_zip_with_Some.
    destruct (proj1 (Forall_lookup _ _) Hall i kv0 H0) as (h0 & Hh0 & Hcards0).
    subst kv1. destruct kv0 as [k0 hs0]. simpl in *. subst hs0.
    injection E2 as -> ->.
    exists (add_card (add_card h0 c1) c2), c1, c2.
    split; [reflexivity|]. split; [|done].
    rewrite !cards_add_card, Hcards0. reflexivity.
  - exists (add_card (add_card Hand_new dc1) dc2). split; [exact Hdh4|].
    rewrite !cards_add_card. reflexivity.
Qed.

(** ** Next round *)

(** C7 (as the code has it): the next-round buttons clear the dealer hand
    and all player hands, reset [round_active], [round_over], [dealer_turn]
    and [payouts_applied], and keep every bankroll; the turn pointer is left
    where it was and is set to (0, 0) by the following Deal Cards. *)
Theorem next_round_clears :
  (forall s : State,
     in_results s = true ->
     exists s' : State,
       next_round s = Some s'
       /\ (forall client : bool,
             (client = true -> is_Some (dealer_hand s)) ->
             save_and_next_round client s = Some s')
       /\ dealer_hand s' = None
       /\ player_hands s' = []
       /\ round_active s' = false
       /\ round_over s' = false
       /\ dealer_turn s' = false
       /\ payouts_applied s' = false
       /\ betting_phase s' = true
       /\ in_betting s' = true
       /\ bankrolls s' = bankrolls s
       /\ current_player_idx s' = current_player_idx s
       /\ current_hand_idx s' = current_hand_idx s)
  /\ (forall (inputs : string -> Z) (s s' : State),
        in_betting s = true ->
        deal_cards shuffle inputs s = Some s' ->
        round_active s' = true ->
        current_player_idx s' = 0%nat /\ current_hand_idx s' = 0%nat).
Proof.
  split.
  - intros s Hres. exists (next_round_body s).
    unfold next_round, save_and_next_round. rewrite Hres. simpl.
    split; [reflexivity|]. split.
    { intros [|] Hc; [|reflexivity]. unfold round_rows.
      destruct (Hc eq_refl) as [dh ->]. reflexivity. }
    assert (Hg : game_started s = true).
    { unfold in_results in Hres. destruct (game_started s); [done|discriminate]. }
    unfold in_betting. simpl. rewrite Hg. repeat split; reflexivity.
  - intros inputs s s' Hbet H Hact.
    unfold deal_cards in H. rewrite Hbet in H. simpl in H.
    destruct (existsb _ (collect_bets s inputs)); simpl in H.
    2:{ injection H as <-. unfold in_betting in Hbet.
        rewrite Hact, !andb_false_r in Hbet. discriminate. }
    destruct (match deck s with Some d => _ | None => _ end) as [d g].
    destruct (seat_players _ _) as [s2|]; [|discriminate]. simpl in H.
    destruct (deal_pass shuffle s2) as [s3|]; [|discriminate]. simpl in H.
    destruct (deal_pass shuffle s3) as [s4|]; [|discriminate]. simpl in H.
    injection H as <-. split; reflexivity.
Qed.

(** ** What holds in every reachable state *)

Lemma Forall_dict_get {V : Type} (P : V -> Prop) (d : dict V) k v :
  Forall (fun kv : string * V => P kv.2) d -> dict_get d k = Some v -> P v.
Proof.
  induction 1 as [|[k0 v0] d H0 _ IH]; simpl; [discriminate|].
  case_bool_decide; [intros [= <-]; exact H0|exact IH].
Qed.

Lemma table_ok_same s s' :
  player_hands s' = player_hands s ->
  dealer_hand s' = dealer_hand s ->
  table_ok s -> table_ok s'.
Proof. unfold table_ok. intros -> ->. done. Qed.

Lemma flags_ok_same h h' :
  cards h' = cards h -> is_bust h' = is_bust h ->
  is_blackjack h' = is_blackjack h ->
  flags_ok h -> flags_ok h'.
Proof. unfold flags_ok, get_value. intros -> -> ->. done. Qed.

Lemma hand_ok_add_card h c : 0 < bet h -> hand_ok (add_card h c).
Proof.
  intros Hb. split; [apply add_card_flags_ok|]. rewrite add_card_bet. exact Hb.
Qed.

Lemma table_ok_store s name i h' :
  table_ok s -> hand_ok h' -> table_ok (store_hand s name i h').
Proof.
  intros [Hph Hdh] Hh. unfold store_hand.
  destruct (dict_get (player_hands s) name) as [hands|] eqn:Hg; [|done].
  split; [|exact Hdh]. simpl.
  apply (Forall_dict_set seat_ok); [exact Hph|].
  destruct (Forall_dict_get seat_ok _ _ _ Hph Hg) as [Hall Hlen].
  split; [apply Forall_insert; done|rewrite length_insert; exact Hlen].
Qed.

Lemma current_hand_ok s name h :
  table_ok s -> current s = Some (name, h) -> hand_ok h.
Proof.
  intros [Hph _] (_ & _ & _ & hands & Hg & Hl)%current_Some.
  destruct (Forall_dict_get seat_ok _ _ _ Hph Hg) as [Hall _].
  exact (Forall_lookup_1 _ _ _ _ Hall Hl).
Qed.

Lemma deck_deal_table_ok s c s1 :
  deck_deal shuffle s = Some (c, s1) -> table_ok s -> table_ok s1.
Proof.
  intros Hdeal. destruct (deck_deal_view s c s1 Hdeal) as [Hview Hdh].
  apply round_view_fields in Hview as (_ & _ & _ & _ & Hph).
  apply table_ok_same; done.
Qed.

Lemma hit_table_ok s s' : table_ok s -> hit shuffle s = Some s' -> table_ok s'.
Proof.
  intros Hok. unfold hit. destruct (negb (in_playing s)); [congruence|].
  destruct (current s) as [[name h]|] eqn:Hcur; [|congruence].
  destruct (dict_get (bankrolls s) name); [|discriminate]. simpl.
  destruct (playable h); [|congruence].
  destruct (deck_deal shuffle s) as [[c s1]|] eqn:Hdeal; [|discriminate]. simpl.
  intros [= <-]. apply table_ok_store.
  - exact (deck_deal_table_ok s c s1 Hdeal Hok).
  - apply hand_ok_add_card. apply (current_hand_ok s name h Hok Hcur).
Qed.

Lemma stand_table_ok s s' : table_ok s -> stand s = Some s' -> table_ok s'.
Proof.
  intros Hok. unfold stand. destruct (negb (in_playing s)); [congruence|].
  destruct (current s) as [[name h]|] eqn:Hcur; [|congruence].
  destruct (dict_get (bankrolls s) name); [|discriminate]. simpl.
  destruct (playable h); [|congruence].
  intros [= <-]. apply table_ok_store; [exact Hok|].
  destruct (current_hand_ok s name h Hok Hcur) as [Hf Hb].
  split; [|exact Hb]. revert Hf. apply flags_ok_same; reflexivity.
Qed.

Lemma double_table_ok s s' :
  table_ok s -> double shuffle s = Some s' -> table_ok s'.
Proof.
  intros Hok. unfold double. destruct (negb (in_playing s)); [congruence|].
  destruct (current s) as [[name h]|] eqn:Hcur; [|congruence].
  destruct (dict_get (bankrolls s) name) as [bank|]; [|discriminate]. simpl.
  destruct (double_allowed bank h); [|congruence].
  destruct (deck_deal shuffle _) as [[c s1]|] eqn:Hdeal; [|discriminate]. simpl.
  intros [= <-]. apply table_ok_store.
  - apply (deck_deal_table_ok _ c s1 Hdeal). revert Hok. apply table_ok_same; done.
  - destruct (current_hand_ok s name h Hok Hcur) as [_ Hb].
    destruct (doubled_hand_facts h c) as (Hbet & _).
    split; [|unfold doubled_hand in Hbet; rewrite Hbet; lia].
    generalize (add_card_flags_ok (set_doubled (set_bet h (bet h * 2)) true) c).
    apply flags_ok_same; reflexivity.
Qed.

Lemma length_list_insert_at {A : Type} (i : nat) (x : A) (l : list A) :
  length (list_insert_at i x l) = S (length l).
Proof.
  unfold list_insert_at. rewrite length_app, length_take. simpl.
  rewrite length_drop. lia.
Qed.

Lemma Forall_list_insert_at {A : Type} (P : A -> Prop) (i : nat) (x : A) (l : list A) :
  Forall P l -> P x -> Forall P (list_insert_at i x l).
Proof.
  intros Hl Hx. unfold list_insert_at. apply Forall_app. split.
  - apply Forall_take. exact Hl.
  - apply Forall_cons. split; [exact Hx|apply Forall_drop; exact Hl].
Qed.

Lemma split_table_ok s s' :
  table_ok s -> split shuffle s = Some s' -> table_ok s'.
Proof.
  intros Hok. unfold split. destruct (negb (in_playing s)); [congruence|].
  destruct (current s) as [[name h]|] eqn:Hcur; [|congruence].
  destruct (dict_get (bankrolls s) name) as [bank|]; [|discriminate]. simpl.
  destruct (dict_get (player_hands s) name) as [hands|] eqn:Hg; [|discriminate].
  simpl. destruct (split_allowed bank h hands) eqn:Hal; [|congruence].
  destruct (pop (cards h)) as [[c2 rest]|]; [|discriminate]. simpl.
  destruct (deck_deal shuffle s) as [[k1 s1]|] eqn:Hdeal1; [|discriminate]. simpl.
  destruct (deck_deal shuffle s1) as [[k2 s2]|] eqn:Hdeal2; [|discriminate]. simpl.
  destruct (dict_get (bankrolls s2) name) as [bank2|]; [|discriminate]. simpl.
  intros [= <-].
  pose proof (deck_deal_table_ok _ _ _ Hdeal2 (deck_deal_table_ok _ _ _ Hdeal1 Hok))
    as [Hph2 Hdh2].
  destruct (current_hand_ok s name h Hok Hcur) as [_ Hb].
  destruct Hok as [Hph _].
  destruct (Forall_dict_get seat_ok _ _ _ Hph Hg) as [Hall Hlen].
  apply andb_true_iff in Hal as [_ Hlt%Nat.ltb_lt].
  split; [|exact Hdh2]. simpl.
  apply (Forall_dict_set seat_ok); [exact Hph2|]. split.
  - apply Forall_list_insert_at.
    + apply Forall_insert; [exact Hall|]. apply hand_ok_add_card. exact Hb.
    + apply hand_ok_add_card. exact Hb.
  - rewrite length_list_insert_at, length_insert. lia.
Qed.

Lemma seat_players_table_ok bets :
  forall s s2, seat_players bets s = Some s2 -> table_ok s -> table_ok s2.
Proof.
  induction bets as [|[name b] bets IH]; intros s s2; simpl.
  - intros [= <-]. done.
  - destruct (0 <? b) eqn:Hb; [|apply IH]. simpl.
    destruct (dict_get (bankrolls s) name) as [bank|]; [|discriminate]. simpl.
    intros Hrun [Hph Hdh]. apply IH in Hrun; [exact Hrun|].
    split; [|exact Hdh]. simpl.
    apply (Forall_dict_set seat_ok); [exact Hph|]. split; [|simpl; lia].
    apply Forall_cons. split; [|apply Forall_nil; done].
    split; [split; reflexivity|]. apply Z.ltb_lt. exact Hb.
Qed.

Lemma deal_round_table_ok names :
  forall s s', deal_round shuffle names s = Some s' -> table_ok s -> table_ok s'.
Proof.
  induction names as [|name names IH]; intros s s'; simpl.
  - intros [= <-]. done.
  - destruct (dict_get (player_hands s) name) as [hs|] eqn:Hg; [|discriminate].
    simpl. destruct (hs !! 0%nat) as [h|] eqn:Hl; [|discriminate]. simpl.
    destruct (deck_deal shuffle s) as [[c s1]|] eqn:Hdeal; [|discriminate]. simpl.
    intros Hrun Hok. apply IH in Hrun; [exact Hrun|].
    pose proof (deck_deal_table_ok _ _ _ Hdeal Hok) as [Hph1 Hdh1].
    destruct Hok as [Hph _].
    destruct (Forall_dict_get seat_ok _ _ _ Hph Hg) as [Hall Hlen].
    destruct (Forall_lookup_1 _ _ _ _ Hall Hl) as [_ Hb].
    split; [|exact Hdh1]. simpl.
    apply (Forall_dict_set seat_ok); [exact Hph1|]. split.
    + apply Forall_insert; [exact Hall|]. apply hand_ok_add_card. exact Hb.
    + rewrite length_insert. exact Hlen.
Qed.

Lemma deal_pass_table_ok s s' :
  deal_pass shuffle s = Some s' -> table_ok s -> table_ok s'.
Proof.
  unfold deal_pass.
  destruct (deal_round shuffle _ s) as [s1|] eqn:Hr; [|discriminate]. simpl.
  unfold deal_dealer. destruct (dealer_hand s1) as [dh|]; [|discriminate]. simpl.
  destruct (deck_deal shuffle s1) as [[c s2]|] eqn:Hdeal; [|discriminate]. simpl.
  intros [= <-] Hok.
  pose proof (deck_deal_table_ok _ _ _ Hdeal (deal_round_table_ok _ _ _ Hr Hok))
    as [Hph2 _].
  split; [exact Hph2|]. simpl. intros dh' [= <-]. apply add_card_flags_ok.
Qed.

Lemma deal_cards_table_ok inputs s s' :
  table_ok s -> deal_cards shuffle inputs s = Some s' -> table_ok s'.
Proof.
  intros Hok. unfold deal_cards. destruct (negb (in_betting s)); [congruence|].
  destruct (negb (existsb _ _)); [congruence|].
  destruct (match deck _ with Some d => _ | None => _ end) as [d g].
  destruct (seat_players _ _) as [s2|] eqn:Hseat; [|discriminate]. simpl.
  destruct (deal_pass shuffle s2) as [s3|] eqn:Hp1; [|discriminate]. simpl.
  destruct (deal_pass shuffle s3) as [s4|] eqn:Hp2; [|discriminate]. simpl.
  intros [= <-].
  apply (table_ok_same s4); [reflexivity..|].
  apply (deal_pass_table_ok _ _ Hp2), (deal_pass_table_ok _ _ Hp1).
  apply (seat_players_table_ok _ _ _ Hseat).
  split; [apply Forall_nil; done|]. simpl. intros dh [= <-]. apply Hand_new_flags_ok.
Qed.

Lemma dealer_draws_table_ok n s s' :
  dealer_draws shuffle n s s' -> table_ok s -> table_ok s'.
Proof.
  induction 1 as [|n s dh c s1 s' Hd Hv Hdeal _ IH]; [done|].
  intros Hok. apply IH.
  pose proof (deck_deal_table_ok _ _ _ Hdeal Hok) as [Hph1 _].
  split; [exact Hph1|]. simpl. intros dh' [= <-]. apply add_card_flags_ok.
Qed.

Lemma reveal_dealer_table_ok s s' :
  table_ok s -> reveal_dealer shuffle s = Some s' -> table_ok s'.
Proof.
  intros Hok. unfold reveal_dealer. destruct (negb (in_playing s)); [congruence|].
  destruct (current s) as [[name h]|]; [|congruence].
  destruct (dict_get (bankrolls s) name); [|discriminate]. simpl.
  destruct (all_done s h); [|congruence]. unfold reveal_dealer_body.
  destruct (dealer_loop shuffle _) as [sa|] eqn:Hrun; [|discriminate]. simpl.
  destruct (dealer_loop_draws _ _ Hrun) as [n Hn].
  assert (Hoka : table_ok sa).
  { apply (dealer_draws_table_ok _ _ _ Hn). revert Hok. apply table_ok_same; done. }
  destruct (negb (payouts_applied sa)).
  - destruct (apply_payouts sa) as [sb|] eqn:Hpay; [|discriminate]. simpl.
    intros [= <-]. apply apply_payouts_fields in Hpay as (_ & Hdh & _ & Hph).
    revert Hoka. apply table_ok_same; done.
  - simpl. intros [= <-]. revert Hoka. apply table_ok_same; done.
Qed.

Lemma next_hand_table_ok s s' : table_ok s -> next_hand s = Some s' -> table_ok s'.
Proof.
  intros Hok. unfold next_hand. destruct (negb (in_playing s)); [congruence|].
  destruct (current s) as [[name h]|]; [|congruence].
  destruct (dict_get (bankrolls s) name); [|discriminate]. simpl.
  destruct (dict_get (player_hands s) name); [|discriminate]. simpl.
  repeat match goal with |- context [if ?b then _ else _] => destruct b end;
    intros [= <-]; revert Hok; try done; apply table_ok_same; done.
Qed.

Lemma previous_hand_table_ok s s' :
  table_ok s -> previous_hand s = Some s' -> table_ok s'.
Proof.
  intros Hok. unfold previous_hand. destruct (negb (in_playing s)); [congruence|].
  destruct (current s) as [[name h]|]; [|congruence].
  destruct (dict_get (bankrolls s) name); [|discriminate]. simpl.
  destruct (0 <? current_hand_idx s)%nat.
  { intros [= <-]. revert Hok. apply table_ok_same; done. }
  destruct (0 <? current_player_idx s)%nat; [|congruence].
  simpl. destruct (dict_keys (player_hands s) !! _) as [prev|]; [|discriminate].
  simpl. destruct (dict_get (player_hands s) prev); [|discriminate]. simpl.
  intros [= <-]. revert Hok. apply table_ok_same; done.
Qed.

Lemma cleared_table_ok s : player_hands s = [] -> dealer_hand s = None -> table_ok s.
Proof.
  intros Hph Hdh. split; [rewrite Hph; apply Forall_nil; done|].
  rewrite Hdh. discriminate.
Qed.

(** Every reachable state satisfies [table_ok]: flags agree with cards, bets
    are positive, and each seated player holds one to four hands. *)
Lemma reachable_table_ok s : reachable shuffle s -> table_ok s.
Proof.
  induction 1 as [g|s a s' _ IH Hstep].
  - apply cleared_table_ok; reflexivity.
  - destruct a; simpl in Hstep.
    + unfold open_table in Hstep. destruct (game_started s); [congruence|].
      injection Hstep as <-. apply cleared_table_ok; reflexivity.
    + exact (deal_cards_table_ok _ _ _ IH Hstep).
    + exact (hit_table_ok _ _ IH Hstep).
    + exact (stand_table_ok _ _ IH Hstep).
    + exact (double_table_ok _ _ IH Hstep).
    + exact (split_table_ok _ _ IH Hstep).
    + exact (previous_hand_table_ok _ _ IH Hstep).
    + exact (next_hand_table_ok _ _ IH Hstep).
    + exact (reveal_dealer_table_ok _ _ IH Hstep).
    + unfold next_round in Hstep. destruct (negb (in_results s)); [congruence|].
      injection Hstep as <-. apply cleared_table_ok; reflexivity.
    + unfold save_and_next_round in Hstep.
      destruct (negb (in_results s)); [congruence|].
      destruct (if client then _ else _); [|discriminate].
      simpl in Hstep. injection Hstep as <-. apply cleared_table_ok; reflexivity.
    + injection Hstep as <-. apply cleared_table_ok; reflexivity.
Qed.

(** ** Hand value and payout over reachable states *)

Lemma reachable_hand_ok s name hands h :
  reachable shuffle s ->
  dict_get (player_hands s) name = Some hands ->
  h ∈ hands ->
  hand_ok h.
Proof.
  intros [Hph _]%reachable_table_ok Hg Hin.
  destruct (Forall_dict_get seat_ok _ _ _ Hph Hg) as [Hall _].
  rewrite Forall_forall in Hall. apply Hall. exact Hin.
Qed.

Lemma payout_follows_rules dh h :
  0 <= bet h -> 5 * bet h < 2 ^ 53 ->
  round_result dh h
  = payout_rules (is_bust h) (is_blackjack h) (is_bust dh) (is_blackjack dh)
      (get_value h) (get_value dh) (bet h).
Proof.
  intros Hbet Hsmall. unfold round_result, payout_rules. rewrite Z.gtb_ltb.
  rewrite (int_bet_2_5_floor _ Hbet Hsmall). reflexivity.
Qed.

Lemma result_follows_rules dh h :
  (round_result dh h).1
  = (payout_rules (is_bust h) (is_blackjack h) (is_bust dh) (is_blackjack dh)
       (get_value h) (get_value dh) (bet h)).1.
Proof.
  unfold round_result, payout_rules. rewrite Z.gtb_ltb.
  repeat match goal with |- context [if ?c then _ else _] => destruct c end;
    reflexivity.
Qed.

Lemma other_payouts_follow_rules dh h :
  (round_result dh h).1 <> blackjack ->
  round_result dh h
  = payout_rules (is_bust h) (is_blackjack h) (is_bust dh) (is_blackjack dh)
      (get_value h) (get_value dh) (bet h).
Proof.
  unfold round_result, payout_rules. rewrite Z.gtb_ltb.
  repeat match goal with |- context [if ?c then _ else _] => destruct c end;
    simpl; intros Hk; solve [reflexivity | contradiction Hk; reflexivity].
Qed.

Lemma blackjack_payout dh h :
  (round_result dh h).1 = blackjack ->
  round_result dh h = (blackjack, int_bet_2_5 (bet h)).
Proof.
  unfold round_result.
  repeat match goal with |- context [if ?c then _ else _] => destruct c end;
    simpl; intros Hk; solve [reflexivity | discriminate Hk].
Qed.

Lemma blackjack_push dh h :
  flags_ok h -> flags_ok dh ->
  is_blackjack h = true -> is_blackjack dh = true ->
  round_result dh h = (push, bet h) /\ payout dh h = bet h.
Proof.
  intros [Hb Hj] [Hdb Hdj] Hbj Hdbj.
  rewrite Hbj in Hj. rewrite Hdbj in Hdj. symmetry in Hj, Hdj.
  apply andb_true_iff in Hj as [_ Hv%Z.eqb_eq].
  apply andb_true_iff in Hdj as [_ Hdv%Z.eqb_eq].
  assert (Hres : round_result dh h = (push, bet h)).
  { unfold round_result. rewrite Hb, Hdb, Hbj, Hdbj, Hv, Hdv. reflexivity. }
  split; [exact Hres|]. rewrite <- round_result_payout, Hres. reflexivity.
Qed.

(** C1: the payout of a finished hand against the settled dealer hand follows
    the six rules in first-match order (bust 0; blackjack against a dealer
    without blackjack [int(bet * 2.5)]; dealer bust 2 bet; higher value 2 bet;
    equal value bet; otherwise 0).  The classification and every payout but
    the blackjack one are as the rules say for every bet; the blackjack payout
    is the float product truncated, which is floor(2.5 bet) for every bet with
    0 <= 5 bet < 2^53, and so for every such hand of a reachable state;
    blackjack against blackjack is a push that returns the bet. *)
Theorem payout_classification :
  (forall dh h : Hand,
     payout dh h = (round_result dh h).2
     /\ (round_result dh h).1
        = (payout_rules (is_bust h) (is_blackjack h) (is_bust dh) (is_blackjack dh)
             (get_value h) (get_value dh) (bet h)).1
     /\ ((round_result dh h).1 = blackjack ->
         round_result dh h = (blackjack, int_bet_2_5 (bet h)))
     /\ ((round_result dh h).1 <> blackjack ->
         round_result dh h
         = payout_rules (is_bust h) (is_blackjack h) (is_bust dh) (is_blackjack dh)
             (get_value h) (get_value dh) (bet h))
     /\ (0 <= bet h -> 5 * bet h < 2 ^ 53 ->
         round_result dh h
         = payout_rules (is_bust h) (is_blackjack h) (is_bust dh) (is_blackjack dh)
             (get_value h) (get_value dh) (bet h)))
  /\ (forall (s : State) (name : string) (hands : list Hand) (h dh : Hand),
        reachable shuffle s ->
        dict_get (player_hands s) name = Some hands ->
        h ∈ hands ->
        dealer_hand s = Some dh ->
        (5 * bet h < 2 ^ 53 ->
         payout dh h
         = (payout_rules (is_bust h) (is_blackjack h) (is_bust dh) (is_blackjack dh)
              (get_value h) (get_value dh) (bet h)).2)
        /\ ((round_result dh h).1 <> blackjack ->
            payout dh h
            = (payout_rules (is_bust h) (is_blackjack h) (is_bust dh)
                 (is_blackjack dh) (get_value h) (get_value dh) (bet h)).2)
        /\ (is_blackjack h = true -> is_blackjack dh = true ->
            round_result dh h = (push, bet h) /\ payout dh h = bet h))
  /\ (forall dh h : Hand,
        flags_ok h -> flags_ok dh ->
        is_blackjack h = true -> is_blackjack dh = true ->
        round_result dh h = (push, bet h) /\ payout dh h = bet h).
Proof.
  split; [|split].
  - intros dh h. split; [symmetry; apply round_result_payout|].
    split; [apply result_follows_rules|].
    split; [apply blackjack_payout|].
    split; [apply other_payouts_follow_rules|apply payout_follows_rules].
  - intros s name hands h dh Hreach Hg Hin Hdh.
    destruct (reachable_hand_ok s name hands h Hreach Hg Hin) as [Hf Hb].
    split; [|split].
    + intros Hsmall.
      rewrite <- round_result_payout, payout_follows_rules by lia. reflexivity.
    + intros Hk.
      rewrite <- round_result_payout, other_payouts_follow_rules by exact Hk.
      reflexivity.
    + apply blackjack_push; [exact Hf|].
      apply reachable_table_ok in Hreach as [_ Hd]. apply Hd. exact Hdh.
  - apply blackjack_push.
Qed.

(** C2: for every hand, [get_value] is the sum of the base card values with
    every ace as 11, reduced by 10 while it exceeds 21 and aces remain; so
    the value exceeds 21, and the bust flag is set, only when the sum with
    every ace as 1 exceeds 21. *)
Theorem get_value_soft_aces :
  (forall h : Hand,
     get_value h = downgrade (base_sum (cards h)) (num_aces (cards h)))
  /\ (forall h : Hand,
        exists k : nat,
          (k <= num_aces (cards h))%nat
          /\ get_value h = base_sum (cards h) - 10 * Z.of_nat k
          /\ ((0 < k)%nat -> 21 < get_value h + 10)
          /\ (21 < get_value h -> k = num_aces (cards h)))
  /\ (forall h : Hand, 21 < get_value h <-> 21 < low_sum (cards h))
  /\ (forall h : Hand, is_bust (update_states h) = true <-> 21 < low_sum (cards h))
  /\ (forall (h : Hand) (c : Card),
        is_bust (add_card h c) = true <-> 21 < low_sum (cards (add_card h c)))
  /\ (forall (s : State) (name : string) (hands : list Hand) (h : Hand),
        reachable shuffle s ->
        dict_get (player_hands s) name = Some hands ->
        h ∈ hands ->
        is_bust h = true <-> 21 < low_sum (cards h))
  /\ (forall (s : State) (dh : Hand),
        reachable shuffle s ->
        dealer_hand s = Some dh ->
        is_bust dh = true <-> 21 < low_sum (cards dh)).
Proof.
  assert (Hflag : forall h, flags_ok h ->
            is_bust h = true <-> 21 < low_sum (cards h)).
  { intros h [Hb _]. rewrite Hb, Z.ltb_lt. apply cards_value_bust. }
  split; [|split; [|split; [|split; [|split; [|split]]]]].
  - intros h. apply cards_value_sums.
  - intros h. unfold get_value. rewrite cards_value_sums. apply downgrade_spec.
  - intros h. apply cards_value_bust.
  - intros h. simpl. rewrite Z.ltb_lt. apply cards_value_bust.
  - intros h c. apply Hflag, add_card_flags_ok.
  - intros s name hands h Hreach Hg Hin. apply Hflag.
    apply (reachable_hand_ok s name hands h Hreach Hg Hin).
  - intros s dh Hreach Hdh. apply Hflag.
    apply reachable_table_ok in Hreach as [_ Hd]. apply Hd. exact Hdh.
Qed.

End TableFacts.

(** * Worked examples *)

Lemma keep_order_perm g l : keep_order g l ≡ₚ l.
Proof. reflexivity. Qed.

Ltac run_it :=
  first [ vm_compute; reflexivity | lia | vm_compute; lia
        | vm_compute; discriminate | split; vm_compute; discriminate ].

Lemma payout_classification_witness :
  round_result dealer_19 natural_hand = (blackjack, 250)
  /\ payout dealer_19 natural_hand = 250.
Proof.
  destruct (proj1 (payout_classification keep_order) dealer_19 natural_hand)
    as (Hp & _ & _ & _ & Hr).
  rewrite Hp, Hr; [split; reflexivity|run_it..].
Defined.


Lemma double_action_witness :
  exists (s' : State) (h' : Hand),
    double keep_order dealt_table = Some s'
    /\ dict_get (bankrolls s') "Ann"%string = Some 800
    /\ current s' = Some ("Ann"%string, h')
    /\ bet h' = 200
    /\ is_standing h' = true.
Proof.
  destruct (proj1 (double_action keep_order keep_order_perm) dealt_table
              "Ann"%string dealt_hand 900 dealt_deck)
    as (c & s_d & s' & h' & _ & Hd & Hb & Hc & Hbet & _ & _ & _ & Hs & _);
    [run_it..|].
  exists s', h'. auto.
Defined.

Lemma split_action_witness :
  exists (s' : State) (hands' : list Hand),
    split keep_order aces_table = Some s'
    /\ dict_get (player_hands s') "Ann"%string = Some hands'
    /\ length hands' = 2%nat
    /\ dict_get (bankrolls s') "Ann"%string = Some 800.
Proof.
  destruct (split_action keep_order keep_order_perm aces_table "Ann"%string
              aces_hand 900 [aces_hand] (Ace, Spades) (Ace, Hearts) aces_deck)
    as (k1 & k2 & s1 & s2 & s' & hands' & hA & hB & _ & _ & Hs & Hg & _ & _ & _
        & _ & _ & _ & _ & _ & _ & Hb & Hl & _);
    [run_it..|].
  exists s', hands'. auto.
Defined.

Lemma split_hand_blackjack_witness :
  exists (s' : State) (hands' : list Hand) (hA hB : Hand),
    split keep_order aces_table = Some s'
    /\ dict_get (player_hands s') "Ann"%string = Some hands'
    /\ hands' !! 0%nat = Some hA
    /\ hands' !! 1%nat = Some hB
    /\ (get_value hA = 21 -> payout dealer_19 hA = 250).
Proof.
  destruct (split_hand_blackjack keep_order keep_order_perm aces_table
              "Ann"%string aces_hand 900 [aces_hand] (Ace, Spades) (Ace, Hearts)
              aces_deck)
    as (s' & hands' & hA & hB & Hs & Hg & HA & HB & Hall & _);
    [run_it..|].
  exists s', hands', hA, hB.
  split; [exact Hs|]. split; [exact Hg|]. split; [exact HA|]. split; [exact HB|].
  intros Hv. destruct (Hall hA (or_introl eq_refl)) as [_ H21].
  destruct (H21 Hv) as (_ & _ & Hpay).
  destruct (Hpay dealer_19 eq_refl) as (_ & _ & Hfloor).
  destruct Hfloor as [_ Hp]; [run_it|exact Hp].
Defined.

Lemma initial_deal_witness :
  exists d' : Deck,
    deck dealt_table = Some d'
    /\ (length (deck_cards d') + 4 = length scenario_shoe)%nat.
Proof.
  destruct (initial_deal keep_order (fun _ => 100) scenario_table dealt_table
              (mkDeck 6 scenario_shoe))
    as (d' & base & run1 & dc1 & run2 & dc2 & _ & _ & _ & Hd & _ & Hl & _);
    [run_it..|].
  exists d'. split; [exact Hd|exact Hl].
Defined.

Lemma settlement_once_witness :
  exists s1 : State,
    reveal_dealer_body keep_order dealt_table = Some s1
    /\ payouts_applied s1 = true
    /\ reveal_dealer_body keep_order s1 = Some s1.
Proof.
  destruct (reveal_dealer_body keep_order dealt_table) as [s1|] eqn:E;
    [|vm_compute in E; discriminate].
  destruct (proj1 (settlement_once keep_order) dealt_table s1 E) as (Hp & Hagain & _).
  exists s1. auto.
Defined.

Lemma next_round_clears_witness :
  exists s s' : State,
    two_player_round = Some s
    /\ next_round s = Some s'
    /\ player_hands s' = []
    /\ bankrolls s' = bankrolls s.
Proof.
  destruct two_player_round as [s|] eqn:E; [|vm_compute in E; discriminate].
  destruct (proj1 (next_round_clears keep_order) s)
    as (s' & Hn & _ & _ & Hph & _ & _ & _ & _ & _ & _ & Hb & _).
  { vm_compute in E. injection E as <-. reflexivity. }
  exists s, s'. auto.
Defined.

Lemma can_split_two_equal_cards_witness :
  can_split (hand_run [OpAddCard (Eight, Spades); OpAddCard (Eight, Hearts)] Hand_new)
  = true
  /\ can_split
       (hand_run [OpAddCard (Eight, Spades); OpAddCard (Eight, Hearts);
                  OpAddCard (Two, Clubs); OpSplit (Eight, Clubs)] Hand_new)
     = false.
Proof.
  split.
  - apply (proj1 can_split_two_equal_cards). split; [reflexivity|].
    exists (Eight, Spades), (Eight, Hearts). split; reflexivity.
  - apply (proj2 (proj2 (proj2 can_split_two_equal_cards)) Hand_new
             [OpAddCard (Eight, Spades); OpAddCard (Eight, Hearts);
              OpAddCard (Two, Clubs)]
             [OpSplit (Eight, Clubs)]).
    vm_compute. lia.
Defined.

(** C7 as stated fails: after a round in which the turn moved on to the
    second player, the next-round button leaves the pointer at (1, 0). *)
Lemma next_round_keeps_pointer :
  exists s s' : State,
    two_player_round = Some s
    /\ in_results s = true
    /\ next_round s = Some s'
    /\ (current_player_idx s', current_hand_idx s') = (1%nat, 0%nat)
    /\ (current_player_idx s', current_hand_idx s') <> (0%nat, 0%nat).
Proof.
  destruct two_player_round as [s|] eqn:E; [|vm_compute in E; discriminate].
  exists s, (next_round_body s). split; [reflexivity|].
  vm_compute in E. injection E as <-.
  split; [reflexivity|]. split; [reflexivity|]. split; [reflexivity|].
  discriminate.
Qed.

(** A natural with [big_bet] on it against a dealer 19 is paid one chip more
    than floor(2.5 bet): the product [bet * 2.5] is a tie between two floats
    and rounds to the even one, above. *)
Lemma blackjack_payout_above_floor :
  bet big_natural = 1801439850948199
  /\ round_result dealer_19 big_natural = (blackjack, 4503599627370498)
  /\ payout dealer_19 big_natural = 4503599627370498
  /\ (5 * bet big_natural) / 2 = 4503599627370497
  /\ payout_rules (is_bust big_natural) (is_blackjack big_natural)
       (is_bust dealer_19) (is_blackjack dealer_19)
       (get_value big_natural) (get_value dealer_19) (bet big_natural)
     = (blackjack, 4503599627370497).
Proof. repeat split; vm_compute; reflexivity. Qed.

(** Ann stakes [big_bet] out of a stack of 4000000000000000, is dealt two
    aces and splits: the first hand draws a king, makes 21 on two cards, and
    is paid one chip more than floor(2.5 bet) against the dealer's 19. *)
Lemma split_blackjack_above_floor :
  exists (s' : State) (hands' : list Hand) (hA dh : Hand),
    split keep_order big_aces_table = Some s'
    /\ dict_get (player_hands s') "Ann"%string = Some hands'
    /\ hands' !! 0%nat = Some hA
    /\ dealer_hand s' = Some dh
    /\ length (cards hA) = 2%nat
    /\ get_value hA = 21
    /\ is_blackjack hA = true
    /\ is_blackjack dh = false
    /\ bet hA = 1801439850948199
    /\ round_result dh hA = (blackjack, 4503599627370498)
    /\ payout dh hA = 4503599627370498
    /\ (5 * bet hA) / 2 = 4503599627370497.
Proof.
  destruct (split keep_order big_aces_table) as [s'|] eqn:E;
    [|vm_compute in E; discriminate].
  vm_compute in E. injection E as <-.
  eexists _, _, _, _. split; [reflexivity|].
  do 3 (split; [reflexivity|]).
  repeat split; vm_compute; reflexivity.
Qed.


(** * Further properties of the table *)

(** ** The soft total *)

Lemma low_sum_ge_aces cs : Z.of_nat (num_aces cs) <= low_sum cs.
Proof.
  induction cs as [|c cs IH]; [reflexivity|].
  rewrite num_aces_cons.
  change (low_sum (c :: cs)) with (ace_low c + low_sum cs).
  pose proof (ace_low_pos c). case_bool_decide; lia.
Qed.

(** [get_value] is the best total: one ace counts 11 when that does not
    exceed 21, every other ace counts 1. *)
Theorem get_value_best_total (h : Hand) :
  get_value h
  = (if (0 <? num_aces (cards h))%nat && (low_sum (cards h) + 10 <=? 21)
     then low_sum (cards h) + 10
     else low_sum (cards h))
  /\ (get_value h <= 21 \/ get_value h = low_sum (cards h))
  /\ (forall k : Z,
        0 <= k <= Z.of_nat (num_aces (cards h)) ->
        low_sum (cards h) + 10 * k <= 21 ->
        low_sum (cards h) + 10 * k <= get_value h).
Proof.
  unfold get_value. set (cs := cards h).
  pose proof (low_sum_ge_aces cs) as Hge.
  pose proof (base_low_sum cs) as Hbase.
  destruct (downgrade_spec (base_sum cs) (num_aces cs)) as (k & Hk & Hv & Hpos & Hall).
  rewrite <- cards_value_sums in Hv, Hpos, Hall.
  assert (Hval : cards_value cs
                 = if (0 <? num_aces cs)%nat && (low_sum cs + 10 <=? 21)
                   then low_sum cs + 10 else low_sum cs).
  { destruct (0 <? num_aces cs)%nat eqn:Ea; simpl.
    - apply Nat.ltb_lt in Ea. destruct (low_sum cs + 10 <=? 21) eqn:El.
      + apply Z.leb_le in El.
        destruct (Z_lt_le_dec 21 (cards_value cs)) as [Hb|Hb]; [specialize (Hall Hb); lia|].
        destruct (Nat.eq_dec k (num_aces cs)); [|lia].
        assert (0 < k)%nat by lia. specialize (Hpos H). lia.
      + apply Z.leb_gt in El.
        destruct (Z_lt_le_dec 21 (cards_value cs)) as [Hb|Hb]; [specialize (Hall Hb); lia|].
        lia.
    - apply Nat.ltb_ge in Ea. lia. }
  split; [exact Hval|]. split.
  - destruct (Z_lt_le_dec 21 (cards_value cs)) as [Hb|Hb]; [|lia].
    right. specialize (Hall Hb). lia.
  - intros j Hj Hle. rewrite Hval.
    destruct (0 <? num_aces cs)%nat eqn:Ea; simpl.
    + destruct (low_sum cs + 10 <=? 21) eqn:El; [|apply Z.leb_gt in El; lia].
      apply Nat.ltb_lt in Ea. lia.
    + apply Nat.ltb_ge in Ea. lia.
Qed.

(** ** Playable hands *)

Lemma add_card_settled h c : hand_settled (add_card h c).
Proof.
  split; [apply add_card_flags_ok|].
  unfold get_value. rewrite cards_add_card, add_card_standing.
  intros ->. reflexivity.
Qed.

Lemma set_standing_settled h : hand_settled h -> hand_settled (set_standing h true).
Proof.
  intros [Hf _]. split; [|reflexivity].
  revert Hf. apply flags_ok_same; reflexivity.
Qed.

Lemma hand_step_settled h op : hand_settled h -> hand_settled (hand_step h op).
Proof.
  intros Hs. destruct op as [c|c| |c]; simpl.
  - apply add_card_settled.
  - destruct (can_split h); [|exact Hs].
    destruct (pop (cards h)) as [[x rest]|]; [apply add_card_settled|exact Hs].
  - apply set_standing_settled. exact Hs.
  - apply set_standing_settled, add_card_settled.
Qed.

Lemma hand_run_settled ops h : hand_settled h -> hand_settled (hand_run ops h).
Proof.
  revert h. induction ops as [|op ops IH]; intros h Hs; [exact Hs|].
  simpl. apply IH, hand_step_settled, Hs.
Qed.

Lemma settled_playable h :
  hand_settled h ->
  (playable h = true -> get_value h < 21)
  /\ (is_blackjack h = true -> length (cards h) = 2%nat /\ playable h = false)
  /\ (is_bust h = true -> playable h = false).
Proof.
  intros [[Hb Hj] Hst]. unfold playable. split; [|split].
  - intros [Hnb Hns]%andb_true_iff.
    rewrite Hb in Hnb. apply negb_true_iff, Z.ltb_ge in Hnb.
    destruct (Z.eq_dec (get_value h) 21) as [E|E]; [|lia].
    rewrite (Hst E) in Hns. discriminate.
  - intros Hbj. rewrite Hbj in Hj. symmetry in Hj.
    apply andb_true_iff in Hj as [Hl%Nat.eqb_eq Hv%Z.eqb_eq].
    split; [exact Hl|]. rewrite (Hst Hv). apply andb_false_r.
  - intros ->. reflexivity.
Qed.

(** A new hand, and the one-card hand a split starts from, are settled; every
    hand operation keeps a hand settled; so whatever has been done to a hand,
    it can still be played only below 21, a blackjack hand has two cards and
    cannot be played, and neither can a bust hand. *)
Theorem playable_only_below_21 :
  (forall b : Z, hand_settled (set_bet Hand_new b))
  /\ (forall (b : Z) (c : Card), hand_settled (set_cards (set_bet Hand_new b) [c]))
  /\ (forall (ops : list HandOp) (h : Hand),
        hand_settled h ->
        hand_settled (hand_run ops h)
        /\ (playable (hand_run ops h) = true -> get_value (hand_run ops h) < 21)
        /\ (is_blackjack (hand_run ops h) = true ->
            length (cards (hand_run ops h)) = 2%nat
            /\ playable (hand_run ops h) = false)
        /\ (is_bust (hand_run ops h) = true -> playable (hand_run ops h) = false)).
Proof.
  split; [|split].
  - intros b. split; [split; reflexivity|]. intros H. discriminate H.
  - intros b [r u]. split.
    + split; destruct r; reflexivity.
    + destruct r; intros H; discriminate H.
  - intros ops h Hs. pose proof (hand_run_settled ops h Hs) as Hs'.
    split; [exact Hs'|]. apply settled_playable. exact Hs'.
Qed.

Lemma playable_only_below_21_witness :
  hand_settled (hand_run [OpAddCard (Ace, Spades); OpAddCard (King, Hearts)]
                  (set_bet Hand_new 100))
  /\ playable (hand_run [OpAddCard (Ace, Spades); OpAddCard (King, Hearts)]
                 (set_bet Hand_new 100)) = false.
Proof.
  destruct (proj2 (proj2 playable_only_below_21)
              [OpAddCard (Ace, Spades); OpAddCard (King, Hearts)]
              (set_bet Hand_new 100)
              (proj1 playable_only_below_21 100))
    as (Hs & _ & Hbj & _).
  split; [exact Hs|]. apply Hbj. reflexivity.
Defined.

(** ** The shoe *)

Lemma card_count_app l1 l2 c :
  card_count (l1 ++ l2) c = (card_count l1 c + card_count l2 c)%nat.
Proof. unfold card_count. rewrite filter_app, length_app. reflexivity. Qed.

Lemma card_count_perm l1 l2 c : l1 ≡ₚ l2 -> card_count l1 c = card_count l2 c.
Proof. intros H. unfold card_count. rewrite H. reflexivity. Qed.

Lemma card_count_one_deck c : card_count one_deck c = 1%nat.
Proof. destruct c as [r u]. destruct r, u; reflexivity. Qed.

Lemma card_count_unshuffled n c : card_count (unshuffled n) c = n.
Proof.
  unfold unshuffled. induction n as [|n IH]; [reflexivity|].
  change (concat (replicate (S n) one_deck))
    with (one_deck ++ concat (replicate n one_deck)).
  rewrite card_count_app, IH, card_count_one_deck. reflexivity.
Qed.

Section ShoeExtras.

Variable shuffle : nat -> list Card -> list Card.
Hypothesis shuffle_perm : forall g l, shuffle g l ≡ₚ l.

(** A shoe built for [n] decks holds 52 n cards, every card of the pack
    exactly [n] times, whatever the shuffle; building advances the shuffle
    count by one. *)
Theorem fresh_shoe (n g : nat) :
  let d := (Deck_build shuffle n g).1 in
  num_decks d = n
  /\ length (deck_cards d) = (52 * n)%nat
  /\ (forall c : Card, card_count (deck_cards d) c = n)
  /\ shoe_ok d
  /\ (Deck_build shuffle n g).2 = S g.
Proof.
  simpl. split; [reflexivity|]. split.
  { rewrite (Permutation_length (shuffle_perm g (unshuffled n))).
    apply length_unshuffled. }
  assert (Hc : forall c, card_count (shuffle g (unshuffled n)) c = n).
  { intros c. rewrite (card_count_perm _ _ c (shuffle_perm g (unshuffled n))).
    apply card_count_unshuffled. }
  split; [exact Hc|]. split; [|reflexivity].
  intros c. simpl. rewrite Hc. lia.
Qed.

Lemma Deck_deal_spec (d : Deck) (g : nat) :
  (0 < num_decks d)%nat ->
  shoe_ok d ->
  exists (c : Card) (d' : Deck) (g' : nat),
    Deck_deal shuffle d g = Some (c, d', g')
    /\ num_decks d' = num_decks d
    /\ (forall x : Card,
          (card_count (deck_cards d' ++ [c]) x <= num_decks d)%nat)
    /\ shoe_ok d'
    /\ (14 <= length (deck_cards d'))%nat
    /\ ((15 <= length (deck_cards d))%nat ->
        deck_cards d = deck_cards d' ++ [c] /\ g' = g)
    /\ ((length (deck_cards d) < 15)%nat ->
        deck_cards d' ++ [c] ≡ₚ unshuffled (num_decks d)
        /\ length (deck_cards d') = (52 * num_decks d - 1)%nat
        /\ g' = S g).
Proof.
  intros Hn Hok. unfold Deck_deal.
  destruct ((length (deck_cards d) =? 0)%nat || (length (deck_cards d) <? 15)%nat)
    eqn:E.
  - assert (Hlt : (length (deck_cards d) < 15)%nat).
    { apply orb_true_iff in E as [E%Nat.eqb_eq|E%Nat.ltb_lt]; lia. }
    unfold Deck_build. cbn [deck_cards num_decks].
    pose proof (shuffle_perm g (unshuffled (num_decks d))) as Hp.
    pose proof (Permutation_length Hp) as HL. rewrite length_unshuffled in HL.
    destruct (pop_nonempty (shuffle g (unshuffled (num_decks d)))) as (c & r & Hpop & Hr).
    { intros Hnil. rewrite Hnil in HL. simpl in HL. lia. }
    rewrite Hpop. simpl. exists c, (mkDeck (num_decks d) r), (S g).
    rewrite Hr in Hp, HL. rewrite length_app in HL. simpl in HL.
    assert (Hcnt : forall x, card_count (r ++ [c]) x = num_decks d).
    { intros x. rewrite (card_count_perm _ _ x Hp). apply card_count_unshuffled. }
    split; [reflexivity|]. split; [reflexivity|]. simpl.
    split; [intros x; rewrite Hcnt; lia|].
    split.
    { intros x. simpl. specialize (Hcnt x). rewrite card_count_app in Hcnt. lia. }
    split; [lia|]. split; [lia|].
    intros _. split; [exact Hp|]. split; [lia|reflexivity].
  - apply orb_false_iff in E as [_ Hge%Nat.ltb_ge].
    destruct (pop_nonempty (deck_cards d)) as (c & r & Hpop & Hr).
    { intros Hnil. rewrite Hnil in Hge. simpl in Hge. lia. }
    rewrite Hpop. simpl. exists c, (mkDeck (num_decks d) r), g.
    split; [reflexivity|]. split; [reflexivity|]. simpl.
    split; [intros x; rewrite <- Hr; apply Hok|].
    split.
    { intros x. simpl. specialize (Hok x). rewrite Hr, card_count_app in Hok. lia. }
    rewrite Hr, length_app in Hge. simpl in Hge.
    split; [lia|]. split; [intros _; split; [exact Hr|reflexivity]|].
    rewrite Hr, length_app. simpl. lia.
Qed.

(** Dealing from a shoe of at least one deck always yields a card.  With 15
    cards or more it is the last card of the shoe and nothing is shuffled;
    below 15 the shoe is rebuilt first, so the card and the rest together
    are a full build.  Either way the shoe keeps its deck count, still holds
    no card more often than there are decks (the dealt card included), and
    is left with at least 14 cards. *)
Theorem deal_keeps_shoe (d : Deck) (g : nat) :
  (0 < num_decks d)%nat ->
  shoe_ok d ->
  exists (c : Card) (d' : Deck) (g' : nat),
    Deck_deal shuffle d g = Some (c, d', g')
    /\ num_decks d' = num_decks d
    /\ (forall x : Card,
          (card_count (deck_cards d' ++ [c]) x <= num_decks d)%nat)
    /\ shoe_ok d'
    /\ (14 <= length (deck_cards d'))%nat
    /\ ((15 <= length (deck_cards d))%nat ->
        deck_cards d = deck_cards d' ++ [c] /\ g' = g)
    /\ ((length (deck_cards d) < 15)%nat ->
        deck_cards d' ++ [c] ≡ₚ unshuffled (num_decks d)
        /\ length (deck_cards d') = (52 * num_decks d - 1)%nat
        /\ g' = S g).
Proof. apply Deck_deal_spec. Qed.

(** The only way a deal can fail: a shoe of zero decks that is below 15
    cards is rebuilt empty, and there is no card to pop. *)
Theorem deal_fails_only_without_decks (d : Deck) (g : nat) :
  Deck_deal shuffle d g = None
  <-> num_decks d = 0%nat /\ (length (deck_cards d) < 15)%nat.
Proof.
  unfold Deck_deal.
  destruct ((length (deck_cards d) =? 0)%nat || (length (deck_cards d) <? 15)%nat)
    eqn:E.
  - assert (Hlt : (length (deck_cards d) < 15)%nat).
    { apply orb_true_iff in E as [E%Nat.eqb_eq|E%Nat.ltb_lt]; lia. }
    unfold Deck_build. cbn [deck_cards num_decks].
    pose proof (Permutation_length (shuffle_perm g (unshuffled (num_decks d)))) as HL.
    rewrite length_unshuffled in HL.
    destruct (shuffle g (unshuffled (num_decks d))) as [|x l] eqn:Es using rev_ind.
    + simpl in HL. split; [intros _; split; lia|reflexivity].
    + rewrite pop_snoc. simpl. rewrite length_app in HL. simpl in HL.
      split; [discriminate|]. intros [H0 _]. lia.
  - apply orb_false_iff in E as [_ Hge%Nat.ltb_ge].
    destruct (pop_nonempty (deck_cards d)) as (c & r & Hpop & _).
    { intros Hnil. rewrite Hnil in Hge. simpl in Hge. lia. }
    rewrite Hpop. simpl. split; [discriminate|]. intros [_ H]. lia.
Qed.

End ShoeExtras.

(** ** What each button does to the state *)

Section TableExtras.

Variable shuffle : nat -> list Card -> list Card.
Hypothesis shuffle_perm : forall g l, shuffle g l ≡ₚ l.

Lemma deck_deal_inv s c s1 :
  deck_deal shuffle s = Some (c, s1) ->
  exists d d' g',
    deck s = Some d
    /\ Deck_deal shuffle d (rng s) = Some (c, d', g')
    /\ s1 = set_rng (set_deck s (Some d')) g'.
Proof.
  unfold deck_deal. destruct (deck s) as [d|]; [|discriminate]. simpl.
  destruct (Deck_deal shuffle d (rng s)) as [[[c0 d0] g0]|] eqn:E; [|discriminate].
  simpl. intros [= <- <-]. eauto 10.
Qed.

Lemma store_hand_eq s name i h hands :
  dict_get (player_hands s) name = Some hands ->
  store_hand s name i h
  = set_player_hands s (dict_set (player_hands s) name (<[i := h]> hands)).
Proof. intros H. unfold store_hand. rewrite H. reflexivity. Qed.

Lemma dict_get_key_lookup {V : Type} (d : dict V) i k :
  dict_keys d !! i = Some k -> is_Some (dict_get d k).
Proof.
  intros H. destruct (dict_get d k) eqn:E; [eauto|].
  apply dict_get_None_key in E. exfalso. apply E.
  apply list_elem_of_lookup. eauto.
Qed.

Lemma hit_inv s s' :
  hit shuffle s = Some s' ->
  s' = s
  \/ exists name h hands c d d' g',
       in_playing s = true
       /\ current s = Some (name, h)
       /\ dict_get (player_hands s) name = Some hands
       /\ hands !! current_hand_idx s = Some h
       /\ is_Some (dict_get (bankrolls s) name)
       /\ playable h = true
       /\ deck s = Some d
       /\ Deck_deal shuffle d (rng s) = Some (c, d', g')
       /\ s' = set_player_hands (set_rng (set_deck s (Some d')) g')
                 (dict_set (player_hands s) name
                    (<[current_hand_idx s := add_card h c]> hands)).
Proof.
  unfold hit. destruct (in_playing s) eqn:Hp; simpl; [|intros [= <-]; auto].
  destruct (current s) as [[name h]|] eqn:Hcur; [|intros [= <-]; auto].
  destruct (dict_get (bankrolls s) name) eqn:Hb; [|discriminate]. simpl.
  destruct (playable h) eqn:Hpl; [|intros [= <-]; auto].
  destruct (deck_deal shuffle s) as [[c s1]|] eqn:Hdeal; [|discriminate]. simpl.
  intros [= <-]. right.
  destruct (deck_deal_inv _ _ _ Hdeal) as (d & d' & g' & Hd & HD & ->).
  destruct (current_Some s name h Hcur) as (_ & _ & _ & hands & Hh & Hl).
  exists name, h, hands, c, d, d', g'.
  rewrite (store_hand_eq _ name _ _ hands) by exact Hh.
  repeat (split; [solve [eauto]|]). reflexivity.
Qed.

Lemma stand_inv s s' :
  stand s = Some s' ->
  (s' = s
   /\ (in_playing s = false \/ current s = None
       \/ exists name h,
            current s = Some (name, h)
            /\ is_Some (dict_get (bankrolls s) name)
            /\ playable h = false))
  \/ exists name h hands,
       in_playing s = true
       /\ current s = Some (name, h)
       /\ dict_get (player_hands s) name = Some hands
       /\ hands !! current_hand_idx s = Some h
       /\ is_Some (dict_get (bankrolls s) name)
       /\ playable h = true
       /\ s' = set_player_hands s
                 (dict_set (player_hands s) name
                    (<[current_hand_idx s := set_standing h true]> hands)).
Proof.
  unfold stand. destruct (in_playing s) eqn:Hp; simpl; [|intros [= <-]; auto].
  destruct (current s) as [[name h]|] eqn:Hcur; [|intros [= <-]; auto].
  destruct (dict_get (bankrolls s) name) eqn:Hb; [|discriminate]. simpl.
  destruct (playable h) eqn:Hpl.
  2:{ intros [= <-]. left. split; [reflexivity|]. right. right. eauto 10. }
  intros [= <-]. right.
  destruct (current_Some s name h Hcur) as (_ & _ & _ & hands & Hh & Hl).
  exists name, h, hands.
  rewrite (store_hand_eq _ name _ _ hands) by exact Hh.
  repeat (split; [solve [eauto]|]). reflexivity.
Qed.

Lemma double_inv s s' :
  double shuffle s = Some s' ->
  s' = s
  \/ exists name h hands bank c d d' g',
       in_playing s = true
       /\ current s = Some (name, h)
       /\ dict_get (player_hands s) name = Some hands
       /\ hands !! current_hand_idx s = Some h
       /\ dict_get (bankrolls s) name = Some bank
       /\ double_allowed bank h = true
       /\ deck s = Some d
       /\ Deck_deal shuffle d (rng s) = Some (c, d', g')
       /\ s' = set_player_hands
                 (set_rng
                    (set_deck
                       (set_bankrolls s (dict_set (bankrolls s) name (bank - bet h)))
                       (Some d'))
                    g')
                 (dict_set (player_hands s) name
                    (<[current_hand_idx s := doubled_hand h c]> hands)).
Proof.
  unfold double. destruct (in_playing s) eqn:Hp; simpl; [|intros [= <-]; auto].
  destruct (current s) as [[name h]|] eqn:Hcur; [|intros [= <-]; auto].
  destruct (dict_get (bankrolls s) name) as [bank|] eqn:Hb; [|discriminate]. simpl.
  destruct (double_allowed bank h) eqn:Hal; [|intros [= <-]; auto].
  destruct (deck_deal shuffle _) as [[c s1]|] eqn:Hdeal; [|discriminate]. simpl.
  intros [= <-]. right.
  destruct (deck_deal_inv _ _ _ Hdeal) as (d & d' & g' & Hd & HD & ->).
  destruct (current_Some s name h Hcur) as (_ & _ & _ & hands & Hh & Hl).
  exists name, h, hands, bank, c, d, d', g'.
  rewrite (store_hand_eq _ name _ _ hands) by exact Hh. auto 12.
Qed.

Lemma split_inv s s' :
  split shuffle s = Some s' ->
  s' = s
  \/ exists name h hands bank c1 c2 k1 k2 d d1 g1 d2 g2,
       in_playing s = true
       /\ current s = Some (name, h)
       /\ dict_get (player_hands s) name = Some hands
       /\ hands !! current_hand_idx s = Some h
       /\ dict_get (bankrolls s) name = Some bank
       /\ split_allowed bank h hands = true
       /\ cards h = [c1; c2]
       /\ deck s = Some d
       /\ Deck_deal shuffle d (rng s) = Some (k1, d1, g1)
       /\ Deck_deal shuffle d1 g1 = Some (k2, d2, g2)
       /\ s' = set_player_hands
                 (set_bankrolls
                    (set_rng (set_deck s (Some d2)) g2)
                    (dict_set (bankrolls s) name (bank - bet h)))
                 (dict_set (player_hands s) name
                    (take (current_hand_idx s) hands
                     ++ [split_kept h c1 k1; split_new h c2 k2]
                     ++ drop (S (current_hand_idx s)) hands)).
Proof.
  unfold split. destruct (in_playing s) eqn:Hp; simpl; [|intros [= <-]; auto].
  destruct (current s) as [[name h]|] eqn:Hcur; [|intros [= <-]; auto].
  destruct (dict_get (bankrolls s) name) as [bank|] eqn:Hb; [|discriminate]. simpl.
  destruct (dict_get (player_hands s) name) as [hands|] eqn:Hh; [|discriminate].
  simpl. destruct (split_allowed bank h hands) eqn:Hal; [|intros [= <-]; auto].
  assert (Hcs : can_split h = true).
  { unfold split_allowed in Hal. destruct (can_split h); [reflexivity|].
    rewrite andb_false_r in Hal. discriminate. }
  apply can_split_iff in Hcs as (c1 & c2 & Hcards & _). rewrite Hcards.
  change (pop [c1; c2]) with (Some (c2, [c1])). simpl.
  destruct (deck_deal shuffle s) as [[k1 s1]|] eqn:Hdeal1; [|discriminate]. simpl.
  destruct (deck_deal shuffle s1) as [[k2 s2]|] eqn:Hdeal2; [|discriminate]. simpl.
  destruct (dict_get (bankrolls s2) name) as [bank2|] eqn:Hb2; [|discriminate].
  simpl. intros [= <-]. right.
  destruct (deck_deal_inv _ _ _ Hdeal1) as (d & d1 & g1 & Hd & HD1 & ->).
  destruct (deck_deal_inv _ _ _ Hdeal2) as (d1' & d2 & g2 & Hd1 & HD2 & ->).
  simpl in Hd1, HD2, Hb2. injection Hd1 as <-.
  rewrite Hb in Hb2. injection Hb2 as <-.
  destruct (current_Some s name h Hcur) as (_ & _ & _ & hands0 & Hh0 & Hl).
  rewrite Hh in Hh0. injection Hh0 as <-.
  exists name, h, hands, bank, c1, c2, k1, k2, d, d1, g1, d2, g2.
  rewrite (list_insert_at_after hands (current_hand_idx s) _ _ h Hl).
  unfold split_kept, split_new.
  simpl.
  rewrite (add_card_bet (set_cards (set_bet Hand_new (bet h)) [c2]) k2).
  repeat (split; [solve [eauto]|]). reflexivity.
Qed.

(** ** Navigation *)

Lemma set_pointer_same s p q :
  current_player_idx s = p -> current_hand_idx s = q ->
  set_current_hand_idx (set_current_player_idx s p) q = s.
Proof. destruct s. simpl. intros -> ->. reflexivity. Qed.

Lemma next_hand_cases s s' :
  next_hand s = Some s' ->
  s' = s
  \/ exists name h hands,
       in_playing s = true
       /\ current s = Some (name, h)
       /\ dict_get (player_hands s) name = Some hands
       /\ is_Some (dict_get (bankrolls s) name)
       /\ playable h = false
       /\ (((current_hand_idx s + 1 < length hands)%nat
            /\ s' = set_current_hand_idx s (current_hand_idx s + 1))
           \/ ((current_hand_idx s + 1 = length hands)%nat
               /\ (current_player_idx s + 1 < length (dict_keys (player_hands s)))%nat
               /\ s' = set_current_hand_idx
                         (set_current_player_idx s (current_player_idx s + 1)) 0)).
Proof.
  unfold next_hand. destruct (in_playing s) eqn:Hp; simpl; [|intros [= <-]; auto].
  destruct (current s) as [[name h]|] eqn:Hcur; [|intros [= <-]; auto].
  destruct (dict_get (bankrolls s) name) as [bank|] eqn:Hb; [|discriminate]. simpl.
  destruct (dict_get (player_hands s) name) as [hands|] eqn:Hh; [|discriminate].
  simpl. destruct (all_done s h) eqn:Hall; [intros [= <-]; auto|].
  destruct (negb (is_standing h) && negb (is_bust h)) eqn:Hfin;
    [intros [= <-]; auto|].
  destruct (current_Some s name h Hcur) as (_ & Hk & _ & hands0 & Hh0 & Hl).
  rewrite Hh in Hh0. injection Hh0 as <-.
  pose proof (lookup_lt_Some _ _ _ Hl) as Hi.
  pose proof (lookup_lt_Some _ _ _ Hk) as Hj.
  assert (Hnp : playable h = false).
  { unfold playable. rewrite andb_comm. exact Hfin. }
  destruct (Z.of_nat (current_hand_idx s) <? Z.of_nat (length hands) - 1) eqn:E1.
  { apply Z.ltb_lt in E1. intros [= <-]. right. exists name, h, hands.
    repeat (split; [solve [eauto]|]). left. split; [lia|reflexivity]. }
  apply Z.ltb_ge in E1.
  destruct (Z.of_nat (current_player_idx s)
            <? Z.of_nat (length (dict_keys (player_hands s))) - 1) eqn:E2.
  { apply Z.ltb_lt in E2. intros [= <-]. right. exists name, h, hands.
    repeat (split; [solve [eauto]|]). right.
    split; [lia|]. split; [lia|reflexivity]. }
  apply Z.ltb_ge in E2. exfalso.
  unfold all_done in Hall. rewrite Hk, Hh in Hall.
  assert (Hf : is_bust h || is_standing h = true).
  { destruct (is_standing h), (is_bust h); try reflexivity. discriminate Hfin. }
  rewrite Hf in Hall.
  replace (Z.of_nat (current_player_idx s)
           =? Z.of_nat (length (dict_keys (player_hands s))) - 1) with true in Hall
    by (symmetry; apply Z.eqb_eq; lia).
  replace (Z.of_nat (current_hand_idx s) =? Z.of_nat (length hands) - 1)
    with true in Hall by (symmetry; apply Z.eqb_eq; lia).
  discriminate Hall.
Qed.

Lemma next_hand_finished s s' name h hands :
  next_hand s = Some s' ->
  in_playing s = true ->
  current s = Some (name, h) ->
  dict_get (player_hands s) name = Some hands ->
  playable h = false ->
  (current_hand_idx s < length hands)%nat
  /\ (current_player_idx s < length (dict_keys (player_hands s)))%nat
  /\ ((current_hand_idx s + 1 < length hands)%nat ->
      s' = set_current_hand_idx s (current_hand_idx s + 1))
  /\ ((current_hand_idx s + 1 = length hands)%nat ->
      (current_player_idx s + 1 < length (dict_keys (player_hands s)))%nat ->
      s' = set_current_hand_idx
             (set_current_player_idx s (current_player_idx s + 1)) 0)
  /\ ((current_hand_idx s + 1 = length hands)%nat ->
      (current_player_idx s + 1 = length (dict_keys (player_hands s)))%nat ->
      s' = s).
Proof.
  intros Hnext Hp Hcur Hh Hnp.
  destruct (current_Some s name h Hcur) as (_ & Hk & _ & hands0 & Hh0 & Hl).
  rewrite Hh in Hh0. injection Hh0 as <-.
  pose proof (lookup_lt_Some _ _ _ Hl) as Hi.
  pose proof (lookup_lt_Some _ _ _ Hk) as Hj.
  split; [exact Hi|]. split; [exact Hj|].
  assert (Hfin : negb (is_standing h) && negb (is_bust h) = false).
  { unfold playable in Hnp. rewrite andb_comm. exact Hnp. }
  assert (Hf : is_bust h || is_standing h = true).
  { destruct (is_standing h), (is_bust h); try reflexivity. discriminate Hfin. }
  unfold next_hand in Hnext. rewrite Hp, Hcur in Hnext. simpl in Hnext.
  destruct (dict_get (bankrolls s) name); [|discriminate]. simpl in Hnext.
  rewrite Hh in Hnext. simpl in Hnext.
  unfold all_done in Hnext. rewrite Hk, Hh, Hf, Hfin, andb_true_r in Hnext.
  destruct (Z.of_nat (current_player_idx s)
            =? Z.of_nat (length (dict_keys (player_hands s))) - 1) eqn:Elp;
    destruct (Z.of_nat (current_hand_idx s) =? Z.of_nat (length hands) - 1)
      eqn:Elh;
    destruct (Z.of_nat (current_hand_idx s) <? Z.of_nat (length hands) - 1)
      eqn:E1;
    destruct (Z.of_nat (current_player_idx s)
              <? Z.of_nat (length (dict_keys (player_hands s))) - 1) eqn:E2;
    simpl in Hnext; injection Hnext as <-;
    repeat split; intros; try reflexivity; exfalso; lia.
Qed.

(** Next Hand changes nothing but the turn pointer, and what it does to the
    pointer is fixed.  Outside the playing phase, without a current hand,
    and on a hand that can still be played it changes nothing.  From a
    finished hand it goes to the player's next hand when there is one; from
    a player's last hand to the first hand of the next player when there is
    one; and from the last hand of the last player it changes nothing: the
    fallback branch of the handler, which hands the turn to the dealer,
    cannot be reached.  So a move to the same player's next hand happens
    only from a finished hand that is not the last, and a move to the next
    player only from a finished last hand.  A pointer that names an existing
    hand keeps doing so when every seated player holds a hand. *)
Theorem next_hand_moves_pointer (s s' : State) :
  next_hand s = Some s' ->
  (exists p q : nat, s' = set_current_hand_idx (set_current_player_idx s p) q)
  /\ dealer_turn s' = dealer_turn s
  /\ (in_playing s = false -> s' = s)
  /\ (current s = None -> s' = s)
  /\ (forall name h,
        current s = Some (name, h) -> playable h = true -> s' = s)
  /\ (forall name h hands,
        in_playing s = true ->
        current s = Some (name, h) ->
        dict_get (player_hands s) name = Some hands ->
        playable h = false ->
        (current_hand_idx s < length hands)%nat
        /\ (current_player_idx s < length (dict_keys (player_hands s)))%nat
        /\ ((current_hand_idx s + 1 < length hands)%nat ->
            s' = set_current_hand_idx s (current_hand_idx s + 1)
            /\ s' <> s)
        /\ ((current_hand_idx s + 1 = length hands)%nat ->
            (current_player_idx s + 1 < length (dict_keys (player_hands s)))%nat ->
            s' = set_current_hand_idx
                   (set_current_player_idx s (current_player_idx s + 1)) 0
            /\ s' <> s)
        /\ ((current_hand_idx s + 1 = length hands)%nat ->
            (current_player_idx s + 1 = length (dict_keys (player_hands s)))%nat ->
            s' = s))
  /\ (s' <> s ->
      exists name h hands,
        in_playing s = true
        /\ current s = Some (name, h)
        /\ dict_get (player_hands s) name = Some hands
        /\ playable h = false
        /\ ((current_player_idx s' = current_player_idx s
             /\ current_hand_idx s' = S (current_hand_idx s)
             /\ (S (current_hand_idx s) < length hands)%nat)
            \/ (current_player_idx s' = S (current_player_idx s)
                /\ current_hand_idx s' = 0%nat
                /\ S (current_hand_idx s) = length hands
                /\ (S (current_player_idx s)
                    < length (dict_keys (player_hands s)))%nat)))
  /\ (Forall (fun kv : string * list Hand => kv.2 <> []) (player_hands s) ->
      pointer_ok s -> pointer_ok s').
Proof.
  intros Hnext.
  assert (Hout : in_playing s = false -> s' = s).
  { intros Hp. unfold next_hand in Hnext. rewrite Hp in Hnext.
    simpl in Hnext. congruence. }
  assert (Hnone : current s = None -> s' = s).
  { intros Hc. unfold next_hand in Hnext. rewrite Hc in Hnext.
    destruct (negb (in_playing s)); congruence. }
  assert (Hfin : forall name h hands,
             in_playing s = true ->
             current s = Some (name, h) ->
             dict_get (player_hands s) name = Some hands ->
             playable h = false ->
             (current_hand_idx s < length hands)%nat
             /\ (current_player_idx s < length (dict_keys (player_hands s)))%nat
             /\ ((current_hand_idx s + 1 < length hands)%nat ->
                 s' = set_current_hand_idx s (current_hand_idx s + 1)
                 /\ s' <> s)
             /\ ((current_hand_idx s + 1 = length hands)%nat ->
                 (current_player_idx s + 1
                  < length (dict_keys (player_hands s)))%nat ->
                 s' = set_current_hand_idx
                        (set_current_player_idx s (current_player_idx s + 1)) 0
                 /\ s' <> s)
             /\ ((current_hand_idx s + 1 = length hands)%nat ->
                 (current_player_idx s + 1
                  = length (dict_keys (player_hands s)))%nat ->
                 s' = s)).
  { intros name h hands Hp Hcur Hh Hnp.
    destruct (next_hand_finished s s' name h hands Hnext Hp Hcur Hh Hnp)
      as (Hi & Hj & H1 & H2 & H3).
    split; [exact Hi|]. split; [exact Hj|]. split; [|split; [|exact H3]].
    - intros Hlt. split; [exact (H1 Hlt)|]. rewrite (H1 Hlt).
      intros Heq. apply (f_equal current_hand_idx) in Heq. simpl in Heq. lia.
    - intros Hlast Hlt. split; [exact (H2 Hlast Hlt)|]. rewrite (H2 Hlast Hlt).
      intros Heq. apply (f_equal current_player_idx) in Heq. simpl in Heq. lia. }
  destruct (next_hand_cases s s' Hnext)
    as [->|(name & h & hands & Hp & Hcur & Hh & Hb & Hnp & Hcase)].
  { split; [exists (current_player_idx s), (current_hand_idx s);
            symmetry; apply set_pointer_same; reflexivity|].
    split; [reflexivity|]. split; [reflexivity|]. split; [reflexivity|].
    split; [reflexivity|]. split; [exact Hfin|]. split; [done|]. done. }
  destruct (current_Some s name h Hcur) as (_ & Hk & _).
  assert (Hplay : forall n0 h0,
             current s = Some (n0, h0) -> playable h0 = true -> s' = s).
  { intros n0 h0 Hc0 Hpl. rewrite Hcur in Hc0. injection Hc0 as <- <-.
    congruence. }
  split; [destruct Hcase as [[Hlt ->]|(Hlast & Hlt & ->)];
          [exists (current_player_idx s), (current_hand_idx s + 1)%nat;
           destruct s; reflexivity
          |exists (current_player_idx s + 1)%nat, 0%nat; reflexivity]|].
  split; [destruct Hcase as [[Hlt ->]|(Hlast & Hlt & ->)]; reflexivity|].
  split; [exact Hout|]. split; [exact Hnone|]. split; [exact Hplay|].
  split; [exact Hfin|]. split.
  { intros _. exists name, h, hands.
    split; [exact Hp|]. split; [exact Hcur|]. split; [exact Hh|].
    split; [exact Hnp|].
    destruct Hcase as [[Hlt ->]|(Hlast & Hlt & ->)]; simpl.
    - left. split; [reflexivity|]. split; lia.
    - right. split; [lia|]. split; [reflexivity|]. split; lia. }
  destruct Hcase as [[Hlt ->]|(Hlast & Hlt & ->)].
  - intros _ _. exists name, hands. simpl.
    split; [exact Hk|]. split; [exact Hh|lia].
  - intros Hne _.
    destruct (lookup_lt_is_Some_2 (dict_keys (player_hands s))
                (current_player_idx s + 1) Hlt) as [name' Hk'].
    destruct (dict_get_key_lookup _ _ _ Hk') as [hands' Hh'].
    exists name', hands'. simpl. split; [exact Hk'|]. split; [exact Hh'|].
    pose proof (Forall_dict_get (fun hs => hs <> []) _ _ _ Hne Hh') as Hnn.
    destruct hands'; [done|simpl; lia].
Qed.

Lemma previous_hand_cases s s' :
  previous_hand s = Some s' ->
  s' = s
  \/ ((0 < current_hand_idx s)%nat
      /\ s' = set_current_hand_idx s (current_hand_idx s - 1))
  \/ (current_hand_idx s = 0%nat
      /\ (0 < current_player_idx s)%nat
      /\ exists prev hands,
           dict_keys (player_hands s) !! (current_player_idx s - 1)%nat = Some prev
           /\ dict_get (player_hands s) prev = Some hands
           /\ s' = set_current_hand_idx
                     (set_current_player_idx s (current_player_idx s - 1))
                     (length hands - 1)).
Proof.
  unfold previous_hand. destruct (in_playing s); simpl; [|intros [= <-]; auto].
  destruct (current s) as [[name h]|]; [|intros [= <-]; auto].
  destruct (dict_get (bankrolls s) name); [|discriminate]. simpl.
  destruct (0 <? current_hand_idx s)%nat eqn:E1.
  { apply Nat.ltb_lt in E1. intros [= <-]. auto. }
  apply Nat.ltb_ge in E1.
  destruct (0 <? current_player_idx s)%nat eqn:E2; [|intros [= <-]; auto].
  apply Nat.ltb_lt in E2. simpl.
  destruct (dict_keys (player_hands s) !! _) as [prev|] eqn:Hk; [|discriminate].
  simpl. destruct (dict_get (player_hands s) prev) as [hands|] eqn:Hh; [|discriminate].
  simpl. intros [= <-]. right. right.
  split; [lia|]. split; [lia|]. exists prev, hands. auto.
Qed.

Lemma previous_hand_eq s name h bank :
  in_playing s = true ->
  current s = Some (name, h) ->
  dict_get (bankrolls s) name = Some bank ->
  previous_hand s
  = if (0 <? current_hand_idx s)%nat
    then Some (set_current_hand_idx s (current_hand_idx s - 1))
    else if (0 <? current_player_idx s)%nat
    then prev_name ← dict_keys (player_hands s) !! (current_player_idx s - 1)%nat;
         prev_hands ← dict_get (player_hands s) prev_name;
         Some (set_current_hand_idx
                 (set_current_player_idx s (current_player_idx s - 1))
                 (length prev_hands - 1))
    else Some s.
Proof.
  intros Hp Hcur Hb. unfold previous_hand. rewrite Hp, Hcur. simpl.
  rewrite Hb. reflexivity.
Qed.

Lemma set_pointer_back s p q p' q' :
  p' = current_player_idx s -> q' = current_hand_idx s ->
  set_current_hand_idx
    (set_current_player_idx
       (set_current_hand_idx (set_current_player_idx s p) q) p') q' = s.
Proof. destruct s. simpl. intros -> ->. reflexivity. Qed.

(** Previous Hand undoes Next Hand: whenever Next Hand has moved the pointer
    and the control panel shows the hand it moved to, Previous Hand brings
    back the state Next Hand started from. *)
Theorem previous_undoes_next (s s' : State) (name' : string) (h' : Hand) :
  next_hand s = Some s' ->
  s' <> s ->
  current s' = Some (name', h') ->
  is_Some (dict_get (bankrolls s') name') ->
  previous_hand s' = Some s.
Proof.
  intros Hnext Hmoved Hcur' [bank' Hb'].
  destruct (next_hand_cases s s' Hnext)
    as [->|(name & h & hands & Hp & Hcur & Hh & Hb & Hnp & Hcase)]; [done|].
  destruct (current_Some s name h Hcur) as (_ & Hk & _).
  destruct Hcase as [[Hlt ->]|(Hlast & Hlt & ->)].
  - rewrite (previous_hand_eq (set_current_hand_idx s (current_hand_idx s + 1))
               name' h' bank' Hp Hcur' Hb').
    cbn [current_hand_idx set_current_hand_idx].
    replace (0 <? current_hand_idx s + 1)%nat with true
      by (symmetry; apply Nat.ltb_lt; lia).
    replace (current_hand_idx s + 1 - 1)%nat with (current_hand_idx s) by lia.
    f_equal. destruct s. reflexivity.
  - rewrite (previous_hand_eq
               (set_current_hand_idx
                  (set_current_player_idx s (current_player_idx s + 1)) 0)
               name' h' bank' Hp Hcur' Hb').
    cbn [current_hand_idx current_player_idx player_hands
         set_current_hand_idx set_current_player_idx].
    replace (0 <? 0)%nat with false by reflexivity.
    replace (0 <? current_player_idx s + 1)%nat with true
      by (symmetry; apply Nat.ltb_lt; lia).
    replace (current_player_idx s + 1 - 1)%nat with (current_player_idx s) by lia.
    rewrite Hk. simpl. rewrite Hh. simpl.
    replace (length hands - 1)%nat with (current_hand_idx s) by lia.
    f_equal. destruct s. reflexivity.
Qed.

(** ** Hit, and hands that are finished *)

Lemma current_after_store s s1 name h h' hands :
  current s = Some (name, h) ->
  dict_get (player_hands s) name = Some hands ->
  dealer_turn s1 = dealer_turn s ->
  current_player_idx s1 = current_player_idx s ->
  current_hand_idx s1 = current_hand_idx s ->
  player_hands s1
  = dict_set (player_hands s) name (<[current_hand_idx s := h']> hands) ->
  current s1 = Some (name, h').
Proof.
  intros Hcur Hh Ht Hp Hq Hph.
  destruct (current_Some s name h Hcur) as (Hdt & Hk & Hne & hands0 & Hh0 & Hl).
  rewrite Hh in Hh0. injection Hh0 as <-.
  apply current_intro with (hands := <[current_hand_idx s := h']> hands).
  - congruence.
  - rewrite Hph, Hp, dict_keys_set by eauto. exact Hk.
  - exact Hne.
  - rewrite Hph. apply dict_get_set_eq.
  - rewrite Hq. apply list_lookup_insert_eq. eapply lookup_lt_Some. exact Hl.
Qed.

(** Hit on a hand that can be played draws the top card of the shoe into
    that hand and nothing else: bankrolls, the dealer hand, the pointer, the
    other players and the player's other hands stay as they are; the hand
    can be played further exactly when its new value is below 21. *)
Theorem hit_draws_one_card
    (s : State) (name : string) (h : Hand) (hands : list Hand) (d : Deck) :
  in_playing s = true ->
  current s = Some (name, h) ->
  dict_get (player_hands s) name = Some hands ->
  is_Some (dict_get (bankrolls s) name) ->
  playable h = true ->
  deck s = Some d ->
  (0 < num_decks d)%nat ->
  exists (c : Card) (s_d s' : State),
    deck_deal shuffle s = Some (c, s_d)
    /\ hit shuffle s = Some s'
    /\ current s' = Some (name, add_card h c)
    /\ dict_get (player_hands s') name
       = Some (<[current_hand_idx s := add_card h c]> hands)
    /\ (forall other : string,
          other <> name ->
          dict_get (player_hands s') other = dict_get (player_hands s) other)
    /\ bankrolls s' = bankrolls s
    /\ dealer_hand s' = dealer_hand s
    /\ current_player_idx s' = current_player_idx s
    /\ current_hand_idx s' = current_hand_idx s
    /\ bet (add_card h c) = bet h
    /\ (playable (add_card h c) = true <-> get_value (add_card h c) < 21).
Proof.
  intros Hp Hcur Hh [bank Hb] Hpl Hd Hn.
  destruct (Deck_deal_total shuffle shuffle_perm d (rng s) Hn)
    as (c & d' & g' & HD & _).
  assert (Hdeal : deck_deal shuffle s = Some (c, set_rng (set_deck s (Some d')) g')).
  { unfold deck_deal. rewrite Hd. simpl. rewrite HD. reflexivity. }
  assert (Hhit : hit shuffle s
                 = Some (set_player_hands (set_rng (set_deck s (Some d')) g')
                           (dict_set (player_hands s) name
                              (<[current_hand_idx s := add_card h c]> hands)))).
  { unfold hit. rewrite Hp, Hcur. simpl. rewrite Hb. simpl. rewrite Hpl, Hdeal.
    simpl. rewrite (store_hand_eq _ name _ _ hands) by exact Hh. reflexivity. }
  eexists c, _, _. split; [exact Hdeal|]. split; [exact Hhit|].
  split; [eapply current_after_store; eauto; reflexivity|].
  split; [simpl; apply dict_get_set_eq|].
  split; [intros other Hne; simpl; apply dict_get_set_ne; congruence|].
  split; [reflexivity|]. split; [reflexivity|]. split; [reflexivity|].
  split; [reflexivity|]. split; [apply add_card_bet|].
  destruct (settled_playable _ (add_card_settled h c)) as (Hlt & _ & _).
  split; [exact Hlt|]. intros Hv.
  destruct (add_card_settled h c) as [[Hbu _] _].
  unfold playable. rewrite Hbu, add_card_standing.
  assert (Hst : is_standing h = false).
  { unfold playable in Hpl. destruct (is_standing h); [|reflexivity].
    rewrite andb_false_r in Hpl. discriminate. }
  rewrite Hst.
  unfold get_value in Hv. rewrite cards_add_card in Hv.
  replace (21 <? get_value (add_card h c)) with false
    by (symmetry; apply Z.ltb_ge; unfold get_value; rewrite cards_add_card; lia).
  replace (cards_value (cards h ++ [c]) =? 21) with false
    by (symmetry; apply Z.eqb_neq; lia).
  reflexivity.
Qed.

Lemma frozen_hand s name h :
  current s = Some (name, h) ->
  playable h = false ->
  is_Some (dict_get (bankrolls s) name) ->
  hit shuffle s = Some s /\ stand s = Some s
  /\ double shuffle s = Some s /\ split shuffle s = Some s.
Proof.
  intros Hcur Hpl [bank Hb].
  destruct (current_Some s name h Hcur) as (_ & _ & _ & hands & Hh & _).
  unfold hit, stand, double, split, double_allowed, split_allowed.
  destruct (negb (in_playing s)); [auto|].
  rewrite Hcur. simpl. rewrite Hb. simpl. rewrite Hh. simpl. rewrite Hpl. simpl.
  auto.
Qed.

(** A hand that is bust or standing is out of reach of the action buttons:
    Hit, Stand, Double and Split all leave the state as it is.  That is the
    case after Stand, after a Double that went through and after every
    Hit that brought the hand to 21 or beyond. *)
Theorem finished_hand_is_frozen :
  (forall (s : State) (name : string) (h : Hand),
     current s = Some (name, h) ->
     playable h = false ->
     is_Some (dict_get (bankrolls s) name) ->
     hit shuffle s = Some s /\ stand s = Some s
     /\ double shuffle s = Some s /\ split shuffle s = Some s)
  /\ (forall s s' : State,
        stand s = Some s' ->
        hit shuffle s' = Some s' /\ stand s' = Some s'
        /\ double shuffle s' = Some s' /\ split shuffle s' = Some s')
  /\ (forall s s' : State,
        double shuffle s = Some s' ->
        s' <> s ->
        hit shuffle s' = Some s' /\ stand s' = Some s'
        /\ double shuffle s' = Some s' /\ split shuffle s' = Some s')
  /\ (forall (s s' : State) (name : string) (h : Hand),
        hit shuffle s = Some s' ->
        s' <> s ->
        current s' = Some (name, h) ->
        21 <= get_value h ->
        hit shuffle s' = Some s' /\ stand s' = Some s'
        /\ double shuffle s' = Some s' /\ split shuffle s' = Some s').
Proof.
  split; [exact frozen_hand|]. split; [|split].
  - intros s s' Hstand.
    destruct (stand_inv s s' Hstand)
      as [[-> [Hp|[Hc|(name & h & Hcur & Hb & Hpl)]]]
         |(name & h & hands & _ & Hcur & Hh & _ & Hb & _ & ->)].
    + unfold hit, stand, double, split. rewrite Hp. auto.
    + unfold hit, stand, double, split. rewrite Hc.
      destruct (negb (in_playing s)); auto.
    + apply (frozen_hand s name h); done.
    + apply (frozen_hand _ name (set_standing h true)).
      * eapply current_after_store; eauto; reflexivity.
      * unfold playable. simpl. apply andb_false_r.
      * exact Hb.
  - intros s s' Hdouble Hne.
    destruct (double_inv s s' Hdouble)
      as [->|(name & h & hands & bank & c & d & d' & g' & _ & Hcur & Hh & _ & Hb
              & _ & _ & _ & ->)]; [done|].
    apply (frozen_hand _ name (doubled_hand h c)).
    + eapply current_after_store; eauto; reflexivity.
    + unfold playable, doubled_hand. simpl. apply andb_false_r.
    + simpl. rewrite dict_get_set_eq. eauto.
  - intros s s' name h Hhit Hne Hcur' Hv.
    destruct (hit_inv s s' Hhit)
      as [->|(name0 & h0 & hands & c & d & d' & g' & _ & Hcur & Hh & _ & Hb & _
              & _ & _ & ->)]; [done|].
    match type of Hcur' with
    | current ?t = _ =>
        assert (Hc : current t = Some (name0, add_card h0 c))
          by (eapply current_after_store; eauto; reflexivity)
    end.
    rewrite Hc in Hcur'. injection Hcur' as <- <-.
    apply (frozen_hand _ name0 (add_card h0 c)).
    + exact Hc.
    + destruct (playable (add_card h0 c)) eqn:Hpl; [|reflexivity].
      destruct (settled_playable _ (add_card_settled h0 c)) as (Hlt & _).
      specialize (Hlt Hpl). lia.
    + exact Hb.
Qed.

(** ** Settlement arithmetic *)

Lemma pay_hands_spec dh name hands :
  forall bank old,
    dict_get bank name = Some old ->
    exists bank',
      pay_hands dh name hands bank = Some bank'
      /\ dict_get bank' name = Some (old + hands_payout dh hands)
      /\ (forall k, k <> name -> dict_get bank' k = dict_get bank k)
      /\ dict_keys bank' = dict_keys bank.
Proof.
  induction hands as [|h hands IH]; intros bank old Hb; simpl.
  - exists bank. split; [reflexivity|]. split; [rewrite Hb; f_equal; unfold hands_payout; simpl; lia|].
    done.
  - rewrite Hb. simpl.
    destruct (IH (dict_set bank name (old + payout dh h)) (old + payout dh h))
      as (bank' & Hrun & Hget & Hother & Hkeys); [apply dict_get_set_eq|].
    exists bank'. split; [exact Hrun|]. split.
    { rewrite Hget. f_equal. unfold hands_payout. simpl. lia. }
    split.
    { intros k Hk. rewrite Hother by done. apply dict_get_set_ne. congruence. }
    rewrite Hkeys. apply dict_keys_set. eauto.
Qed.

Lemma pay_hands_missing dh name hands bank :
  dict_get bank name = None ->
  pay_hands dh name hands bank = (if hands is [] then Some bank else None).
Proof. intros Hb. destruct hands; simpl; [reflexivity|]. rewrite Hb. reflexivity. Qed.

Lemma dict_keys_same_get {V : Type} (d1 d2 : dict V) k :
  dict_keys d1 = dict_keys d2 ->
  dict_get d1 k = None <-> dict_get d2 k = None.
Proof. intros H. rewrite !dict_get_None_key, H. reflexivity. Qed.

Lemma pay_hands_keys dh name hands bank bank' :
  pay_hands dh name hands bank = Some bank' -> dict_keys bank' = dict_keys bank.
Proof.
  destruct (dict_get bank name) as [old|] eqn:Hb.
  - destruct (pay_hands_spec dh name hands bank old Hb) as (b & Hrun & _ & _ & Hk).
    rewrite Hrun. intros [= <-]. exact Hk.
  - rewrite (pay_hands_missing dh name hands bank Hb).
    destruct hands; [intros [= <-]; reflexivity|discriminate].
Qed.

Lemma pay_players_keys dh items :
  forall bank bank',
    pay_players dh items bank = Some bank' -> dict_keys bank' = dict_keys bank.
Proof.
  induction items as [|[name hands] items IH]; intros bank bank'; simpl.
  - intros [= <-]. reflexivity.
  - destruct (pay_hands dh name hands bank) as [b1|] eqn:H1; [|discriminate].
    simpl. intros H2. rewrite (IH _ _ H2). apply (pay_hands_keys _ _ _ _ _ H1).
Qed.

Lemma pay_players_fails dh items :
  forall bank,
    pay_players dh items bank = None
    <-> Exists (fun kv : string * list Hand =>
                  kv.2 <> [] /\ dict_get bank kv.1 = None) items.
Proof.
  induction items as [|[name hands] items IH]; intros bank; simpl.
  - split; [discriminate|]. intros H. inversion H.
  - rewrite Exists_cons. simpl.
    destruct (pay_hands dh name hands bank) as [b1|] eqn:H1; simpl.
    + rewrite IH. pose proof (pay_hands_keys _ _ _ _ _ H1) as Hk.
      assert (Hsame : Exists (fun kv : string * list Hand =>
                                kv.2 <> [] /\ dict_get b1 kv.1 = None) items
                      <-> Exists (fun kv : string * list Hand =>
                                kv.2 <> [] /\ dict_get bank kv.1 = None) items).
      { rewrite !Exists_exists. split; intros (kv & Hin & Hne & Hg);
          exists kv; (split; [exact Hin|]); (split; [exact Hne|]);
          [apply (dict_keys_same_get b1 bank _ Hk)|apply (dict_keys_same_get b1 bank _ Hk)];
          exact Hg. }
      rewrite Hsame. split; [auto|]. intros [[Hne Hg]|H]; [|exact H].
      rewrite (pay_hands_missing dh name hands bank Hg) in H1.
      destruct hands; [done|discriminate].
    + split; [|reflexivity]. intros _. left.
      destruct (dict_get bank name) as [old|] eqn:Hb.
      * destruct (pay_hands_spec dh name hands bank old Hb) as (b & Hrun & _).
        congruence.
      * rewrite (pay_hands_missing dh name hands bank Hb) in H1.
        destruct hands; [discriminate|]. split; [done|reflexivity].
Qed.

Lemma pay_players_spec dh items :
  forall bank bank',
    NoDup (dict_keys items) ->
    pay_players dh items bank = Some bank' ->
    forall name,
      dict_get bank' name
      = match dict_get items name with
        | Some hands => (fun b => b + hands_payout dh hands) <$> dict_get bank name
        | None => dict_get bank name
        end.
Proof.
  induction items as [|[k hands] items IH]; intros bank bank' Hnd; simpl.
  - intros [= <-] name. reflexivity.
  - apply NoDup_cons in Hnd as [Hk Hnd]. simpl in Hk.
    destruct (pay_hands dh k hands bank) as [b1|] eqn:H1; [|discriminate]. simpl.
    intros H2 name. rewrite (IH _ _ Hnd H2 name).
    case_bool_decide as E.
    + subst name. apply dict_get_None_key in Hk. rewrite Hk.
      destruct (dict_get bank k) as [old|] eqn:Hb.
      * destruct (pay_hands_spec dh k hands bank old Hb) as (b & Hrun & Hget & _).
        rewrite Hrun in H1. injection H1 as <-. rewrite Hget. reflexivity.
      * rewrite (pay_hands_missing dh k hands bank Hb) in H1.
        destruct hands; [|discriminate]. injection H1 as <-. rewrite Hb. reflexivity.
    + assert (Hsame : dict_get b1 name = dict_get bank name).
      { destruct (dict_get bank k) as [old|] eqn:Hb.
        - destruct (pay_hands_spec dh k hands bank old Hb) as (b & Hrun & _ & Ho & _).
          rewrite Hrun in H1. injection H1 as <-. apply Ho. congruence.
        - rewrite (pay_hands_missing dh k hands bank Hb) in H1.
          destruct hands; [|discriminate]. injection H1 as <-. reflexivity. }
      rewrite Hsame. reflexivity.
Qed.

(** Settlement credits every seated player with the payouts of all that
    player's hands, once, leaves every other bankroll alone, and marks the
    round as paid; nothing else in the session changes. *)
Theorem apply_payouts_credits (s s' : State) (dh : Hand) :
  NoDup (dict_keys (player_hands s)) ->
  dealer_hand s = Some dh ->
  apply_payouts s = Some s' ->
  (forall name : string,
     dict_get (bankrolls s') name
     = match dict_get (player_hands s) name with
       | Some hands =>
           (fun b => b + hands_payout dh hands) <$> dict_get (bankrolls s) name
       | None => dict_get (bankrolls s) name
       end)
  /\ dict_keys (bankrolls s') = dict_keys (bankrolls s)
  /\ payouts_applied s' = true
  /\ s' = set_payouts_applied (set_bankrolls s (bankrolls s')) true.
Proof.
  intros Hnd Hdh. unfold apply_payouts. rewrite Hdh. simpl.
  destruct (pay_players dh (player_hands s) (bankrolls s)) as [bank|] eqn:Hpay;
    [|discriminate].
  simpl. intros [= <-]. simpl.
  split; [apply (pay_players_spec dh _ _ _ Hnd Hpay)|].
  split; [apply (pay_players_keys dh _ _ _ Hpay)|]. split; reflexivity.
Qed.


(** ** Dictionaries, keys and bets *)

Lemma is_Some_dict_get {V : Type} (d : dict V) k :
  is_Some (dict_get d k) <-> k ∈ dict_keys d.
Proof.
  destruct (dict_get d k) as [v|] eqn:E.
  - split; [intros _; apply (dict_get_Some_key d k v E)|eauto].
  - split; [intros [? [=]]|]. intros Hin. apply dict_get_None_key in E. done.
Qed.

Lemma dict_set_same {V : Type} (d : dict V) k v :
  dict_get d k = Some v -> dict_set d k v = d.
Proof.
  induction d as [|[k0 v0] d IH]; simpl; [discriminate|].
  case_bool_decide as E.
  - intros [= ->]. subst. reflexivity.
  - intros H. f_equal. auto.
Qed.

Lemma dict_set_new {V : Type} (d : dict V) k v :
  dict_get d k = None -> dict_set d k v = d ++ [(k, v)].
Proof.
  induction d as [|[k0 v0] d IH]; simpl; [reflexivity|].
  case_bool_decide as E; [discriminate|]. intros H. f_equal. auto.
Qed.

Lemma dict_get_bets_of ph name :
  dict_get (bets_of ph) name = map bet <$> dict_get ph name.
Proof.
  induction ph as [|[k v] ph IH]; simpl; [reflexivity|].
  case_bool_decide; [reflexivity|exact IH].
Qed.

Lemma dict_keys_bets_of ph : dict_keys (bets_of ph) = dict_keys ph.
Proof. induction ph as [|[k v] ph IH]; simpl; [reflexivity|]. f_equal. exact IH. Qed.

Lemma bets_of_set ph name hs :
  bets_of (dict_set ph name hs) = dict_set (bets_of ph) name (map bet hs).
Proof.
  induction ph as [|[k v] ph IH]; simpl; [reflexivity|].
  case_bool_decide; simpl; [reflexivity|]. f_equal. exact IH.
Qed.

Lemma bets_of_set_same ph name hs hs' :
  dict_get ph name = Some hs -> map bet hs' = map bet hs ->
  bets_of (dict_set ph name hs') = bets_of ph.
Proof.
  intros Hg Hm. rewrite bets_of_set, Hm. apply dict_set_same.
  rewrite dict_get_bets_of, Hg. reflexivity.
Qed.

Lemma bet_add_card h c : bet (add_card h c) = bet h.
Proof. unfold add_card. destruct (get_value _ =? 21); reflexivity. Qed.

Lemma map_bet_insert hands i h h' :
  hands !! i = Some h -> bet h' = bet h ->
  map bet (<[i := h']> hands) = map bet hands.
Proof.
  intros Hl Hb. rewrite list_fmap_insert. rewrite Hb.
  apply list_insert_id. rewrite list_lookup_fmap, Hl. reflexivity.
Qed.

Lemma keys_ok_same s s' :
  dict_keys (player_hands s') = dict_keys (player_hands s) ->
  dict_keys (bankrolls s') = dict_keys (bankrolls s) ->
  keys_ok s -> keys_ok s'.
Proof.
  intros Hp Hk [Hnd Hin]. split.
  - rewrite Hp. exact Hnd.
  - intros name. rewrite !is_Some_dict_get, Hk, Hp, <- !is_Some_dict_get. apply Hin.
Qed.

Lemma bets_of_keys ph ph' :
  bets_of ph' = bets_of ph -> dict_keys ph' = dict_keys ph.
Proof.
  intros H. rewrite <- (dict_keys_bets_of ph'), H. apply dict_keys_bets_of.
Qed.

(** ** The shoe of a running table *)

Lemma Deck_new_ok g :
  num_decks (Deck_new shuffle g).1 = 6%nat
  /\ shoe_ok (Deck_new shuffle g).1
  /\ (14 <= length (deck_cards (Deck_new shuffle g).1))%nat.
Proof.
  unfold Deck_new, Deck_build. simpl. split; [reflexivity|]. split.
  - intros c. simpl.
    rewrite (card_count_perm _ _ c (shuffle_perm g (unshuffled 6))),
      card_count_unshuffled. lia.
  - rewrite (Permutation_length (shuffle_perm g (unshuffled 6))), length_unshuffled.
    lia.
Qed.

Lemma deck_deal_wired s d :
  deck s = Some d ->
  deck_ok s ->
  exists c d' g',
    deck_deal shuffle s = Some (c, set_rng (set_deck s (Some d')) g')
    /\ deck_ok (set_rng (set_deck s (Some d')) g').
Proof.
  intros Hd Hok. destruct (Hok d Hd) as (Hn & Hshoe & Hlen).
  destruct (Deck_deal_spec shuffle shuffle_perm d (rng s))
    as (c & d' & g' & Hdeal & Hn' & _ & Hshoe' & Hlen' & _); [lia|done|].
  exists c, d', g'. split.
  - unfold deck_deal. rewrite Hd. simpl. rewrite Hdeal. reflexivity.
  - intros d0. simpl. intros [= <-]. split; [lia|]. done.
Qed.

(** ** What the deal leaves alone *)

Lemma deal_round_total names :
  forall s d,
    deck s = Some d ->
    deck_ok s ->
    (forall name, name ∈ names ->
       exists bs, dict_get (bets_of (player_hands s)) name = Some bs /\ bs <> []) ->
    exists s',
      deal_round shuffle names s = Some s'
      /\ flow s' = flow s /\ pointer s' = pointer s
      /\ bankrolls s' = bankrolls s /\ dealer_hand s' = dealer_hand s
      /\ bets_of (player_hands s') = bets_of (player_hands s)
      /\ is_Some (deck s') /\ deck_ok s'.
Proof.
  induction names as [|name names IH]; intros s d Hd Hok Hn; simpl.
  - exists s. do 6 (split; [reflexivity|]). split; [eauto|exact Hok].
  - destruct (Hn name) as (bs & Hbs & Hne); [left|].
    rewrite dict_get_bets_of in Hbs.
    destruct (dict_get (player_hands s) name) as [hands|] eqn:Hg; [|discriminate].
    simpl in Hbs. injection Hbs as <-.
    destruct hands as [|h hands]; [done|]. simpl.
    destruct (deck_deal_wired s d Hd Hok) as (c & d' & g' & Hdeal & Hok').
    rewrite Hdeal. simpl.
    assert (Hbets : bets_of (dict_set (player_hands s) name (add_card h c :: hands))
                    = bets_of (player_hands s)).
    { apply (bets_of_set_same _ _ (h :: hands)); [exact Hg|].
      simpl. rewrite bet_add_card. reflexivity. }
    edestruct (IH (set_player_hands (set_rng (set_deck s (Some d')) g')
                     (dict_set (player_hands s) name (add_card h c :: hands))) d')
      as (s' & Hrun & Hflow & Hptr & Hbank & Hdh & Hb & Hdk & Hok2).
    { reflexivity. }
    { exact Hok'. }
    { intros name0 Hin. simpl. rewrite Hbets. apply Hn. right. exact Hin. }
    exists s'. split; [exact Hrun|].
    rewrite Hflow, Hptr, Hbank, Hdh, Hb. simpl. rewrite Hbets. done.
Qed.

Lemma deal_pass_total s d dh :
  deck s = Some d ->
  deck_ok s ->
  dealer_hand s = Some dh ->
  Forall (fun kv : string * list Z => kv.2 <> []) (bets_of (player_hands s)) ->
  exists s' c,
    deal_pass shuffle s = Some s'
    /\ flow s' = flow s /\ pointer s' = pointer s
    /\ bankrolls s' = bankrolls s /\ dealer_hand s' = Some (add_card dh c)
    /\ bets_of (player_hands s') = bets_of (player_hands s)
    /\ is_Some (deck s') /\ deck_ok s'.
Proof.
  intros Hd Hok Hdh Hne. unfold deal_pass.
  destruct (deal_round_total (dict_keys (player_hands s)) s d Hd Hok)
    as (s1 & Hrun & Hflow & Hptr & Hbank & Hdh1 & Hb & [d1 Hd1] & Hok1).
  { intros name Hin. rewrite <- dict_keys_bets_of in Hin.
    apply is_Some_dict_get in Hin as [bs Hbs]. exists bs. split; [exact Hbs|].
    apply (Forall_dict_get (fun bs => bs <> []) _ _ _ Hne Hbs). }
  rewrite Hrun. simpl. unfold deal_dealer. rewrite Hdh1, Hdh. simpl.
  destruct (deck_deal_wired s1 d1 Hd1 Hok1) as (c & d' & g' & Hdeal & Hok').
  rewrite Hdeal. simpl. eexists _, c. split; [reflexivity|]. simpl.
  rewrite <- Hflow, <- Hptr, <- Hbank, <- Hb.
  do 5 (split; [reflexivity|]). split; [eauto|exact Hok'].
Qed.

(** ** The betting form *)

Lemma collect_bets_fold s inputs names :
  forall acc,
    fold_left
      (fun bets name =>
         let max_bet := default 0 (dict_get (bankrolls s) name) in
         if max_bet <? MIN_BET then dict_set bets name 0
         else dict_set bets name (inputs name))
      names acc
    = fold_left (fun bets name => dict_set bets name (bet_for s inputs name))
        names acc.
Proof.
  induction names as [|name names IH]; intros acc; simpl; [reflexivity|].
  rewrite IH. f_equal. unfold bet_for.
  destruct (default 0 (dict_get (bankrolls s) name) <? MIN_BET); reflexivity.
Qed.

Lemma build_get {V : Type} (f : string -> V) names :
  forall acc name,
    dict_get (fold_left (fun d k => dict_set d k (f k)) names acc) name
    = if bool_decide (name ∈ names) then Some (f name) else dict_get acc name.
Proof.
  induction names as [|k names IH]; intros acc name; cbn [fold_left].
  - rewrite bool_decide_eq_false_2; [reflexivity|]. apply not_elem_of_nil.
  - rewrite IH. case_bool_decide as Hin.
    + rewrite bool_decide_eq_true_2; [reflexivity|]. right. exact Hin.
    + destruct (decide (k = name)) as [->|Hne].
      * rewrite dict_get_set_eq, bool_decide_eq_true_2; [reflexivity|]. left.
      * rewrite dict_get_set_ne by done.
        rewrite bool_decide_eq_false_2; [reflexivity|].
        rewrite not_elem_of_cons. split; [congruence|exact Hin].
Qed.

Lemma build_NoDup {V : Type} (f : string -> V) names :
  forall acc,
    NoDup (dict_keys acc) ->
    NoDup (dict_keys (fold_left (fun d k => dict_set d k (f k)) names acc)).
Proof.
  induction names as [|k names IH]; intros acc Hnd; simpl; [exact Hnd|].
  apply IH, dict_keys_NoDup_set, Hnd.
Qed.

Lemma build_keys {V : Type} (f : string -> V) names :
  forall acc,
    NoDup names ->
    (forall k, k ∈ names -> k ∉ dict_keys acc) ->
    dict_keys (fold_left (fun d k => dict_set d k (f k)) names acc)
    = dict_keys acc ++ names.
Proof.
  induction names as [|k names IH]; intros acc Hnd Hnew; simpl.
  - rewrite app_nil_r. reflexivity.
  - apply NoDup_cons in Hnd as [Hk Hnd].
    assert (Hkeys : dict_keys (dict_set acc k (f k)) = dict_keys acc ++ [k]).
    { apply dict_keys_set_new, dict_get_None_key, Hnew. left. }
    rewrite IH; [|exact Hnd|].
    + rewrite Hkeys, <- app_assoc. reflexivity.
    + intros k0 Hin. rewrite Hkeys, not_elem_of_app. split.
      * apply Hnew. right. exact Hin.
      * rewrite list_elem_of_singleton. intros ->. done.
Qed.

Lemma build_entries {V : Type} (f : string -> V) names :
  forall acc,
    Forall (fun kv : string * V => kv.2 = f kv.1) acc ->
    Forall (fun kv : string * V => kv.2 = f kv.1)
      (fold_left (fun d k => dict_set d k (f k)) names acc).
Proof.
  induction names as [|k names IH]; intros acc Hacc; simpl; [exact Hacc|].
  apply IH. clear IH. induction acc as [|[k0 v0] acc IHa]; simpl.
  - constructor; [reflexivity|constructor].
  - apply Forall_cons in Hacc as [H0 Hacc]. case_bool_decide.
    + constructor; [reflexivity|exact Hacc].
    + constructor; [exact H0|auto].
Qed.

Lemma collect_bets_spec s inputs :
  collect_bets s inputs
  = fold_left (fun bets name => dict_set bets name (bet_for s inputs name))
      (player_names s) []
  /\ NoDup (dict_keys (collect_bets s inputs))
  /\ Forall (fun kv : string * Z => kv.2 = bet_for s inputs kv.1)
       (collect_bets s inputs)
  /\ (forall name,
        dict_get (collect_bets s inputs) name
        = if bool_decide (name ∈ player_names s)
          then Some (bet_for s inputs name) else None)
  /\ (NoDup (player_names s) ->
      dict_keys (collect_bets s inputs) = player_names s).
Proof.
  assert (Heq : collect_bets s inputs
                = fold_left (fun bets name => dict_set bets name (bet_for s inputs name))
                    (player_names s) []).
  { apply collect_bets_fold. }
  split; [exact Heq|]. rewrite Heq. split; [apply build_NoDup; constructor|].
  split; [apply build_entries; constructor|]. split.
  - intros name. apply (build_get (bet_for s inputs)).
  - intros Hnd. rewrite (build_keys (bet_for s inputs)); [reflexivity|exact Hnd|].
    intros k _. apply not_elem_of_nil.
Qed.

Lemma bet_for_positive s inputs name :
  0 < bet_for s inputs name ->
  exists b, dict_get (bankrolls s) name = Some b /\ MIN_BET <= b
            /\ bet_for s inputs name = inputs name.
Proof.
  unfold bet_for. destruct (dict_get (bankrolls s) name) as [b|]; simpl.
  - destruct (b <? MIN_BET) eqn:E; [lia|]. apply Z.ltb_ge in E. eauto.
  - change (0 <? MIN_BET) with true. simpl. lia.
Qed.

Lemma stake_of_cons_eq k b rest :
  stake_of ((k, b) :: rest) k = if 0 <? b then b else 0.
Proof. unfold stake_of. simpl. rewrite bool_decide_eq_true_2; reflexivity. Qed.

Lemma stake_of_cons_ne k b rest name :
  k <> name -> stake_of ((k, b) :: rest) name = stake_of rest name.
Proof.
  intros Hne. unfold stake_of. simpl. rewrite bool_decide_eq_false_2; done.
Qed.

Lemma stake_of_missing bets name :
  name ∉ dict_keys bets -> stake_of bets name = 0.
Proof.
  intros Hn. apply dict_get_None_key in Hn. unfold stake_of. rewrite Hn.
  reflexivity.
Qed.

Lemma fmap_sub_zero (x : option Z) : (fun b => b - 0) <$> x = x.
Proof. destruct x; simpl; [f_equal; lia|reflexivity]. Qed.

Lemma seat_players_effect bets :
  forall s,
    NoDup (dict_keys bets) ->
    (forall k, k ∈ dict_keys bets -> k ∉ dict_keys (player_hands s)) ->
    Forall (fun kv : string * Z =>
              0 < kv.2 -> is_Some (dict_get (bankrolls s) kv.1)) bets ->
    exists s2,
      seat_players bets s = Some s2
      /\ player_hands s2 = player_hands s ++ fresh_seats bets
      /\ (forall name,
            dict_get (bankrolls s2) name
            = (fun b => b - stake_of bets name) <$> dict_get (bankrolls s) name)
      /\ dict_keys (bankrolls s2) = dict_keys (bankrolls s)
      /\ flow s2 = flow s /\ pointer s2 = pointer s
      /\ deck s2 = deck s /\ rng s2 = rng s /\ dealer_hand s2 = dealer_hand s.
Proof.
  induction bets as [|[k b] bets IH]; intros s Hnd Hnew Hbank.
  - exists s. split; [reflexivity|]. split; [symmetry; apply app_nil_r|].
    split; [intros name; symmetry; apply fmap_sub_zero|]. done.
  - simpl in Hnd. apply NoDup_cons in Hnd as [Hk Hnd].
    apply Forall_cons in Hbank as [Hb Hbank]. simpl in Hb.
    cbn [seat_players]. destruct (0 <? b) eqn:Eb.
    + apply Z.ltb_lt in Eb. destruct (Hb Eb) as [bank Hbk].
      cbn [bankrolls set_player_hands]. rewrite Hbk. cbn [mbind option_bind].
      assert (Hnk : dict_get (player_hands s) k = None).
      { apply dict_get_None_key, Hnew. left. }
      edestruct (IH (set_bankrolls
                       (set_player_hands s
                          (dict_set (player_hands s) k [set_bet Hand_new b]))
                       (dict_set (bankrolls s) k (bank - b))))
        as (s2 & Hrun & Hph & Hget & Hkeys & Hflow & Hptr & Hdeck & Hrng & Hdh).
      { exact Hnd. }
      { intros k0 Hin. simpl. rewrite dict_keys_set_new by exact Hnk.
        rewrite not_elem_of_app. split.
        - apply Hnew. right. exact Hin.
        - rewrite list_elem_of_singleton. intros ->. done. }
      { eapply Forall_impl; [exact Hbank|]. intros [k0 b0] H0 Hpos. simpl in *.
        apply is_Some_dict_get. rewrite dict_keys_set by eauto.
        apply is_Some_dict_get. auto. }
      exists s2. split; [exact Hrun|]. simpl in *. split.
      { rewrite Hph, (dict_set_new _ _ _ Hnk), <- app_assoc. f_equal.
        unfold fresh_seats. rewrite filter_cons_True by exact Eb. reflexivity. }
      split.
      { intros name. rewrite Hget. destruct (decide (k = name)) as [<-|Hne].
        - rewrite dict_get_set_eq, Hbk, stake_of_cons_eq, stake_of_missing by exact Hk.
          simpl. apply Z.ltb_lt in Eb. rewrite Eb. f_equal. lia.
        - rewrite dict_get_set_ne by exact Hne.
          rewrite (stake_of_cons_ne k b bets name Hne). reflexivity. }
      split; [rewrite Hkeys; apply dict_keys_set; eauto|done].
    + apply Z.ltb_ge in Eb.
      destruct (IH s Hnd) as (s2 & Hrun & Hph & Hget & Hrest).
      { intros k0 Hin. apply Hnew. right. exact Hin. }
      { exact Hbank. }
      exists s2. split; [exact Hrun|]. split.
      { rewrite Hph. f_equal. unfold fresh_seats.
        rewrite filter_cons_False; [reflexivity|]. simpl. lia. }
      split; [|exact Hrest].
      intros name. rewrite Hget. destruct (decide (k = name)) as [<-|Hne].
      * rewrite stake_of_cons_eq, stake_of_missing by exact Hk.
        destruct (0 <? b) eqn:E; [apply Z.ltb_lt in E; lia|reflexivity].
      * rewrite (stake_of_cons_ne k b bets name Hne). reflexivity.
Qed.

Lemma fresh_seats_keys bets :
  dict_keys (fresh_seats bets)
  = dict_keys (filter (fun kv : string * Z => 0 < kv.2) bets).
Proof.
  unfold fresh_seats, dict_keys. rewrite map_map. reflexivity.
Qed.

Lemma fresh_seats_get bets name :
  NoDup (dict_keys bets) ->
  dict_get (fresh_seats bets) name
  = match dict_get bets name with
    | Some b => if 0 <? b then Some [set_bet Hand_new b] else None
    | None => None
    end.
Proof.
  induction bets as [|[k b] bets IH]; intros Hnd; [reflexivity|].
  simpl in Hnd. apply NoDup_cons in Hnd as [Hk Hnd]. unfold fresh_seats.
  cbn [dict_get]. destruct (decide (0 < b)) as [Hb|Hb].
  - rewrite filter_cons_True by exact Hb. cbn [map dict_get fst snd].
    case_bool_decide as E.
    + apply Z.ltb_lt in Hb. rewrite Hb. reflexivity.
    + apply IH, Hnd.
  - rewrite filter_cons_False by exact Hb. case_bool_decide as E.
    + subst k. destruct (0 <? b) eqn:E; [apply Z.ltb_lt in E; done|].
      fold (fresh_seats bets). rewrite (IH Hnd).
      apply dict_get_None_key in Hk. rewrite Hk. reflexivity.
    + apply IH, Hnd.
Qed.

Lemma fresh_seats_bets bets :
  Forall (fun kv : string * list Z => kv.2 <> []) (bets_of (fresh_seats bets)).
Proof.
  unfold bets_of, fresh_seats. rewrite Forall_fmap, Forall_fmap.
  apply Forall_forall. intros kv _. simpl. discriminate.
Qed.

Lemma deal_cards_spec inputs s :
  in_betting s = true ->
  deck_ok s ->
  exists s',
    deal_cards shuffle inputs s = Some s'
    /\ (existsb (fun kv : string * Z => MIN_BET <=? kv.2) (collect_bets s inputs)
        = false -> s' = s)
    /\ (existsb (fun kv : string * Z => MIN_BET <=? kv.2) (collect_bets s inputs)
        = true ->
        bets_of (player_hands s') = bets_of (fresh_seats (collect_bets s inputs))
        /\ (forall name,
              dict_get (bankrolls s') name
              = (fun b => b - stake_of (collect_bets s inputs) name)
                  <$> dict_get (bankrolls s) name)
        /\ dict_keys (bankrolls s') = dict_keys (bankrolls s)
        /\ flow s' = (game_started s, false, true, false, false, false,
                      num_players s, player_names s)
        /\ pointer s' = (0%nat, 0%nat)
        /\ is_Some (dealer_hand s') /\ is_Some (deck s') /\ deck_ok s'
        /\ exists c1 c2 : Card,
             dealer_hand s' = Some (add_card (add_card Hand_new c1) c2)).
Proof.
  intros Hbet Hok. unfold deal_cards. rewrite Hbet. cbn [negb].
  destruct (existsb _ (collect_bets s inputs)) eqn:Hq; cbn [negb].
  2:{ exists s. split; [reflexivity|]. split; [reflexivity|discriminate]. }
  destruct (collect_bets_spec s inputs) as (_ & Hnd & Hent & _ & _).
  cbn [deck set_player_hands set_dealer_hand rng].
  assert (Hdk : exists d g,
             match deck s with
             | Some d => (d, rng s)
             | None => Deck_new shuffle (rng s)
             end = (d, g)
             /\ num_decks d = 6%nat /\ shoe_ok d /\ (14 <= length (deck_cards d))%nat).
  { destruct (deck s) as [d|] eqn:Hd.
    - exists d, (rng s). split; [reflexivity|]. apply (Hok d Hd).
    - exists (Deck_new shuffle (rng s)).1, (Deck_new shuffle (rng s)).2.
      split; [reflexivity|]. apply Deck_new_ok. }
  destruct Hdk as (d & g & -> & Hd6 & Hshoe & Hlen).
  match goal with
  | |- context [seat_players _ ?t] => set (s1 := t)
  end.
  assert (Hok1 : forall t : State, deck t = Some d -> deck_ok t).
  { intros t Ht d0. rewrite Ht. intros [= <-]. done. }
  destruct (seat_players_effect (collect_bets s inputs) s1 Hnd)
    as (s2 & Hseat & Hph2 & Hget2 & Hkeys2 & Hflow2 & Hptr2 & Hdeck2 & Hrng2 & Hdh2).
  { intros k _. apply not_elem_of_nil. }
  { eapply Forall_impl; [exact Hent|]. intros [k b] Hb Hpos. simpl in *. subst b.
    destruct (bet_for_positive s inputs k Hpos) as (b0 & Hb0 & _). eauto. }
  rewrite Hseat. cbn [mbind option_bind].
  simpl in Hph2, Hget2, Hkeys2, Hdeck2, Hdh2.
  destruct (deal_pass_total s2 d Hand_new) as
    (s3 & c3 & Hp3 & Hflow3 & Hptr3 & Hbank3 & Hdh3 & Hb3 & [d3 Hd3] & Hok3);
    [exact Hdeck2|apply Hok1, Hdeck2|exact Hdh2
    |rewrite Hph2; apply fresh_seats_bets|].
  rewrite Hp3. cbn [mbind option_bind].
  destruct (deal_pass_total s3 d3 (add_card Hand_new c3)) as
    (s4 & c4 & Hp4 & Hflow4 & Hptr4 & Hbank4 & Hdh4 & Hb4 & Hd4 & Hok4);
    [exact Hd3|exact Hok3|exact Hdh3
    |rewrite Hb3, Hph2; apply fresh_seats_bets|].
  rewrite Hp4. cbn [mbind option_bind].
  eexists. split; [reflexivity|]. split; [discriminate|]. intros _.
  simpl. rewrite Hb4, Hb3, Hph2, Hbank4, Hbank3, Hkeys2, Hdh4.
  split; [reflexivity|]. split; [exact Hget2|]. split; [reflexivity|].
  split.
  { unfold flow in *. subst s1. simpl in *. congruence. }
  split; [reflexivity|]. split; [eauto|]. split; [exact Hd4|].
  split; [exact Hok4|eauto].
Qed.

(** ** What Reveal Dealer leaves alone *)

Lemma dealer_draws_wired n s s' :
  dealer_draws shuffle n s s' ->
  is_Some (deck s) -> deck_ok s ->
  is_Some (deck s') /\ deck_ok s'.
Proof.
  induction 1 as [s dh Hdh Hv|n s dh c s1 s' Hdh Hv Hdeal _ IH];
    intros [d Hd] Hok; [eauto|].
  destruct (deck_deal_wired s d Hd Hok) as (c0 & d' & g' & Hdeal' & Hok').
  rewrite Hdeal in Hdeal'. injection Hdeal' as -> ->.
  apply IH; [simpl; eauto|exact Hok'].
Qed.

Lemma pay_players_total dh s :
  keys_ok s -> is_Some (pay_players dh (player_hands s) (bankrolls s)).
Proof.
  intros [_ Hkeys].
  destruct (pay_players dh (player_hands s) (bankrolls s)) eqn:Hpay; [eauto|].
  apply pay_players_fails, Exists_exists in Hpay as ([name hands] & Hin & _ & Hnone).
  simpl in Hnone. destruct (Hkeys name) as [b Hb]; [|congruence].
  apply is_Some_dict_get. unfold dict_keys.
  apply (list_elem_of_fmap_2 fst _ _ Hin).
Qed.

Lemma reveal_dealer_body_spec s dh d :
  dealer_hand s = Some dh ->
  deck s = Some d ->
  deck_ok s ->
  keys_ok s ->
  exists s' dh',
    reveal_dealer_body shuffle s = Some s'
    /\ dealer_hand s' = Some dh' /\ 17 <= get_value dh'
    /\ player_hands s' = player_hands s
    /\ (if payouts_applied s then bankrolls s' = bankrolls s
        else pay_players dh' (player_hands s) (bankrolls s) = Some (bankrolls s'))
    /\ dict_keys (bankrolls s') = dict_keys (bankrolls s)
    /\ flow s' = (game_started s, betting_phase s, round_active s, true, true, true,
                  num_players s, player_names s)
    /\ pointer s' = pointer s
    /\ is_Some (deck s') /\ deck_ok s'.
Proof.
  intros Hdh Hd Hok Hkeys.
  destruct (Hok d Hd) as (Hn & _).
  destruct (dealer_draws_total shuffle shuffle_perm
              (Z.to_nat (17 - low_sum (cards dh))) (set_dealer_turn s true) dh d)
    as (n & s1 & _ & Hdraws); [exact Hdh|exact Hd|lia|lia|].
  pose proof (dealer_draws_run shuffle _ _ _ Hdraws) as Hloop.
  destruct (dealer_draws_result shuffle _ _ _ dh Hdraws Hdh)
    as (Hview & dh' & drawn & Hdh' & Hv' & _).
  destruct (dealer_draws_wired _ _ _ Hdraws) as (Hdk1 & Hok1);
    [simpl; eauto|exact Hok|].
  unfold round_view in Hview. simpl in Hview.
  injection Hview as Hgs Hbp Hra Hdt Hro Hpa Hnp Hpn Hbank Hph Hci Hhi.
  unfold reveal_dealer_body. rewrite Hloop. cbn [mbind option_bind].
  rewrite Hpa. destruct (payouts_applied s) eqn:Epa; cbn [negb mbind option_bind].
  - exists (set_round_over s1 true), dh'. split; [reflexivity|]. simpl.
    rewrite Hbank, Hph. do 5 (split; [done|]).
    split; [unfold flow; simpl; congruence|].
    split; [unfold pointer; simpl; congruence|]. done.
  - assert (Hk1 : keys_ok s1).
    { revert Hkeys. apply keys_ok_same; congruence. }
    destruct (pay_players_total dh' s1 Hk1) as [bank Hpay].
    unfold apply_payouts. rewrite Hdh'. cbn [mbind option_bind]. rewrite Hpay.
    cbn [mbind option_bind].
    eexists _, dh'. split; [reflexivity|]. simpl.
    split; [exact Hdh'|]. split; [exact Hv'|]. split; [exact Hph|].
    split; [rewrite <- Hph, <- Hbank; exact Hpay|].
    split; [rewrite (pay_players_keys _ _ _ _ Hpay); congruence|].
    split; [unfold flow; simpl; congruence|].
    split; [unfold pointer; simpl; congruence|]. done.
Qed.

(** ** The invariant of a running table *)

Lemma Deck_deal_ok d g c d' g' :
  num_decks d = 6%nat /\ shoe_ok d /\ (14 <= length (deck_cards d))%nat ->
  Deck_deal shuffle d g = Some (c, d', g') ->
  num_decks d' = 6%nat /\ shoe_ok d' /\ (14 <= length (deck_cards d'))%nat.
Proof.
  intros (Hn & Hshoe & _) Hdeal.
  destruct (Deck_deal_spec shuffle shuffle_perm d g)
    as (c0 & d0 & g0 & Hdeal0 & Hn0 & _ & Hshoe0 & Hlen0 & _); [lia|done|].
  rewrite Hdeal in Hdeal0. injection Hdeal0 as <- <- <-.
  split; [lia|]. done.
Qed.

Lemma wired_same s s' :
  flow s' = flow s ->
  (is_Some (dealer_hand s) -> is_Some (dealer_hand s')) ->
  (is_Some (deck s) -> is_Some (deck s')) ->
  dict_keys (player_hands s') = dict_keys (player_hands s) ->
  dict_keys (bankrolls s') = dict_keys (bankrolls s) ->
  deck_ok s' ->
  wired s -> wired s'.
Proof.
  intros Hflow Hdh Hdk Hp Hb Hok (Hkeys & (H1 & H2 & H3) & _).
  unfold flow in Hflow. injection Hflow as Hgs Hbp Hra _ Hro _ _ _.
  split; [exact (keys_ok_same s s' Hp Hb Hkeys)|]. split; [|exact Hok].
  unfold phase_ok. rewrite Hgs, Hbp, Hra, Hro.
  split; [exact H1|]. split; [|exact H3].
  intros Ha. destruct (H2 Ha) as (? & ? & ?). auto.
Qed.

Lemma in_playing_active s : in_playing s = true -> round_active s = true.
Proof.
  unfold in_playing.
  destruct (game_started s), (betting_phase s), (round_active s), (round_over s);
    simpl; done.
Qed.

Lemma wired_playing s :
  wired s -> in_playing s = true ->
  exists dh d, dealer_hand s = Some dh /\ deck s = Some d /\ deck_ok s.
Proof.
  intros (_ & (_ & H2 & _) & Hok) Hin.
  destruct (H2 (in_playing_active s Hin)) as (_ & [dh Hdh] & [d Hd]). eauto.
Qed.

Lemma hit_wired s s' : wired s -> hit shuffle s = Some s' -> wired s'.
Proof.
  intros Hw [->|(name & h & hands & c & d & d' & g' & Hin & Hcur & Hg & Hl & Hb
                 & Hp & Hd & Hdeal & ->)]%hit_inv; [exact Hw|].
  pose proof Hw as (_ & _ & Hok).
  revert Hw. apply wired_same; simpl; try done;
    try (apply dict_keys_set; eauto). intros d0 [= <-].
  apply (Deck_deal_ok d (rng s) c d' g'); [apply (Hok d Hd)|exact Hdeal].
Qed.

Lemma stand_wired s s' : wired s -> stand s = Some s' -> wired s'.
Proof.
  intros Hw [[-> _]|(name & h & hands & Hin & Hcur & Hg & Hl & Hb & Hp & ->)]%stand_inv;
    [exact Hw|].
  pose proof Hw as (_ & _ & Hok).
  revert Hw. apply wired_same; simpl; try done;
    try (apply dict_keys_set; eauto).
Qed.

Lemma double_wired s s' : wired s -> double shuffle s = Some s' -> wired s'.
Proof.
  intros Hw [->|(name & h & hands & bank & c & d & d' & g' & Hin & Hcur & Hg & Hl
                 & Hb & Hp & Hd & Hdeal & ->)]%double_inv; [exact Hw|].
  pose proof Hw as (_ & _ & Hok).
  revert Hw. apply wired_same; simpl; try done;
    try (apply dict_keys_set; eauto). intros d0 [= <-].
  apply (Deck_deal_ok d (rng s) c d' g'); [apply (Hok d Hd)|exact Hdeal].
Qed.

Lemma split_wired s s' : wired s -> split shuffle s = Some s' -> wired s'.
Proof.
  intros Hw [->|(name & h & hands & bank & c1 & c2 & k1 & k2 & d & d1 & g1 & d2 & g2
                 & Hin & Hcur & Hg & Hl & Hb & Hp & Hc & Hd & Hdeal1 & Hdeal2 & ->)]
    %split_inv; [exact Hw|].
  pose proof Hw as (_ & _ & Hok).
  revert Hw. apply wired_same; simpl; try done;
    try (apply dict_keys_set; eauto). intros d0 [= <-].
  apply (Deck_deal_ok d1 g1 k2 d2 g2); [|exact Hdeal2].
  apply (Deck_deal_ok d (rng s) k1 d1 g1); [apply (Hok d Hd)|exact Hdeal1].
Qed.

Lemma pointer_wired s p q :
  wired s -> wired (set_current_hand_idx (set_current_player_idx s p) q).
Proof.
  intros Hw. pose proof Hw as (_ & _ & Hok).
  revert Hw. apply wired_same; simpl; done.
Qed.

Lemma next_hand_wired s s' : wired s -> next_hand s = Some s' -> wired s'.
Proof.
  intros Hw [->|(name & h & hands & _ & _ & _ & _ & _ & [[_ ->]|(_ & _ & ->)])]
    %next_hand_cases; [exact Hw| |].
  - pose proof Hw as (_ & _ & Hok). revert Hw. apply wired_same; simpl; done.
  - apply pointer_wired, Hw.
Qed.

Lemma previous_hand_wired s s' :
  wired s -> previous_hand s = Some s' -> wired s'.
Proof.
  intros Hw [->|[[_ ->]|(_ & _ & prev & hands & _ & _ & ->)]]%previous_hand_cases;
    [exact Hw| |].
  - pose proof Hw as (_ & _ & Hok). revert Hw. apply wired_same; simpl; done.
  - apply pointer_wired, Hw.
Qed.

Lemma Forall_dict_entry {V : Type} (P : string * V -> Prop) (d : dict V) k v :
  Forall P d -> dict_get d k = Some v -> P (k, v).
Proof.
  induction d as [|[k0 v0] d IH]; simpl; [discriminate|].
  intros [H0 Hd]%Forall_cons. case_bool_decide as E.
  - intros [= <-]. subst. exact H0.
  - auto.
Qed.

Lemma initial_wired g : wired (initial_state g).
Proof.
  split; [|split].
  - split; [constructor|]. intros name [? [=]].
  - unfold phase_ok. simpl. done.
  - intros d [=].
Qed.

Lemma cleared_wired s s' :
  player_hands s' = [] ->
  game_started s' = game_started s \/ game_started s' = true ->
  betting_phase s' = true ->
  round_active s' = false ->
  round_over s' = false ->
  deck_ok s' ->
  wired s'.
Proof.
  intros Hph Hgs Hbp Hra Hro Hok. split; [|split; [|exact Hok]].
  - unfold keys_ok. rewrite Hph. split; [constructor|]. intros name [? [=]].
  - unfold phase_ok. rewrite Hbp, Hra, Hro. done.
Qed.

Lemma open_table_wired n names s s' :
  wired s -> open_table shuffle n names s = Some s' -> wired s'.
Proof.
  intros Hw. unfold open_table. destruct (game_started s) eqn:Hgs.
  { intros [= <-]. exact Hw. }
  destruct Hw as (_ & (H1 & _ & H3) & _).
  pose proof (H1 Hgs) as Hra. destruct (H3 Hra) as (_ & Hro).
  pose proof (Deck_new_ok (rng s)) as Hnew.
  destruct (Deck_new shuffle (rng s)) as [d g]. intros [= <-].
  apply (cleared_wired s); simpl; auto.
  intros d0 [= <-]. exact Hnew.
Qed.

Lemma next_round_body_wired s : wired s -> wired (next_round_body s).
Proof.
  intros (_ & _ & Hok). apply (cleared_wired s); simpl; auto.
Qed.

Lemma in_betting_started s : in_betting s = true -> game_started s = true.
Proof. unfold in_betting. destruct (game_started s); done. Qed.

Lemma fresh_seats_NoDup bets :
  NoDup (dict_keys bets) -> NoDup (dict_keys (fresh_seats bets)).
Proof.
  intros Hnd. rewrite fresh_seats_keys. apply (sublist_NoDup _ _ Hnd).
  unfold dict_keys. apply fmap_sublist, sublist_filter.
Qed.

Lemma deal_cards_wired inputs s s' :
  wired s -> deal_cards shuffle inputs s = Some s' -> wired s'.
Proof.
  intros Hw Hdeal. destruct (in_betting s) eqn:Hbet.
  2:{ unfold deal_cards in Hdeal. rewrite Hbet in Hdeal. simpl in Hdeal.
      injection Hdeal as <-. exact Hw. }
  pose proof Hw as (_ & _ & Hok).
  destruct (deal_cards_spec inputs s Hbet Hok) as (s0 & Hrun & Hno & Hyes).
  rewrite Hrun in Hdeal. injection Hdeal as ->.
  destruct (existsb _ (collect_bets s inputs)); [|rewrite (Hno eq_refl); exact Hw].
  destruct (Hyes eq_refl)
    as (Hbets & Hget & Hkeys & Hflow & _ & Hdh & Hdk & Hok' & _).
  destruct (collect_bets_spec s inputs) as (_ & Hnd & Hent & _ & _).
  apply bets_of_keys in Hbets.
  unfold flow in Hflow. injection Hflow as Hgs Hbp Hra _ Hro _ _ _.
  split; [|split; [|exact Hok']].
  - split; [rewrite Hbets; apply fresh_seats_NoDup, Hnd|].
    intros name. rewrite !is_Some_dict_get, Hbets, Hkeys, <- !is_Some_dict_get.
    rewrite (fresh_seats_get _ _ Hnd).
    destruct (dict_get (collect_bets s inputs) name) as [b|] eqn:Hb;
      [|intros [? [=]]].
    destruct (0 <? b) eqn:Eb; [|intros [? [=]]]. intros _.
    apply Z.ltb_lt in Eb.
    assert (Hbf : b = bet_for s inputs name).
    { apply (Forall_dict_entry _ _ _ _ Hent Hb). }
    rewrite Hbf in Eb.
    destruct (bet_for_positive s inputs name Eb) as (b0 & Hb0 & _). eauto.
  - unfold phase_ok. rewrite Hgs, Hbp, Hra, Hro.
    rewrite (in_betting_started s Hbet). done.
Qed.

Lemma reveal_dealer_wired s s' :
  wired s -> reveal_dealer shuffle s = Some s' -> wired s'.
Proof.
  intros Hw. unfold reveal_dealer. destruct (in_playing s) eqn:Hin; simpl.
  2:{ intros [= <-]. exact Hw. }
  destruct (current s) as [[name h]|]; [|intros [= <-]; exact Hw].
  destruct (dict_get (bankrolls s) name); [|discriminate]. simpl.
  destruct (all_done s h); [|intros [= <-]; exact Hw].
  destruct (wired_playing s Hw Hin) as (dh & d & Hdh & Hd & Hok).
  pose proof Hw as (Hkeys & (H1 & H2 & H3) & _).
  destruct (reveal_dealer_body_spec s dh d Hdh Hd Hok Hkeys)
    as (s0 & dh' & Hrun & Hdh' & _ & Hph & _ & Hbk & Hflow & _ & Hdk & Hok').
  rewrite Hrun. intros [= <-].
  unfold flow in Hflow. injection Hflow as Hgs Hbp Hra _ Hro _ _ _.
  split; [|split; [|exact Hok']].
  - revert Hkeys. apply keys_ok_same; congruence.
  - unfold phase_ok. rewrite Hgs, Hbp, Hra, Hro, Hdh'.
    pose proof (in_playing_active s Hin) as Ha. rewrite Ha in *.
    destruct (H2 eq_refl) as (Hb & _). split; [exact H1|]. split; [eauto|done].
Qed.

Lemma handle_wired a s s' : wired s -> handle shuffle a s = Some s' -> wired s'.
Proof.
  intros Hw. destruct a; simpl.
  - apply open_table_wired, Hw.
  - apply deal_cards_wired, Hw.
  - apply hit_wired, Hw.
  - apply stand_wired, Hw.
  - apply double_wired, Hw.
  - apply split_wired, Hw.
  - apply previous_hand_wired, Hw.
  - apply next_hand_wired, Hw.
  - apply reveal_dealer_wired, Hw.
  - unfold next_round. destruct (negb (in_results s)); intros [= <-];
      [exact Hw|apply next_round_body_wired, Hw].
  - unfold save_and_next_round. destruct (negb (in_results s)); [intros [= <-]; exact Hw|].
    destruct (if client then _ else _); [|discriminate]. simpl. intros [= <-].
    apply next_round_body_wired, Hw.
  - intros [= <-]. apply initial_wired.
Qed.

Lemma reachable_wired s : reachable shuffle s -> wired s.
Proof.
  induction 1 as [g|s a s' _ IH Hstep]; [apply initial_wired|].
  exact (handle_wired a s s' IH Hstep).
Qed.

(** ** No handler raises *)

Lemma current_bankroll s name h :
  wired s -> current s = Some (name, h) -> is_Some (dict_get (bankrolls s) name).
Proof.
  intros ((_ & Hk) & _) (_ & Hkey & _ & hands & Hg & _)%current_Some.
  apply Hk. eauto.
Qed.

Lemma hit_total s : wired s -> is_Some (hit shuffle s).
Proof.
  intros Hw. unfold hit. destruct (in_playing s) eqn:Hin; simpl; [|eauto].
  destruct (current s) as [[name h]|] eqn:Hcur; [|eauto].
  destruct (current_bankroll s name h Hw Hcur) as [b Hb]. rewrite Hb. simpl.
  destruct (playable h); [|eauto].
  destruct (wired_playing s Hw Hin) as (dh & d & _ & Hd & Hok).
  destruct (deck_deal_wired s d Hd Hok) as (c & d' & g' & Hdeal & _).
  rewrite Hdeal. simpl. eauto.
Qed.

Lemma stand_total s : wired s -> is_Some (stand s).
Proof.
  intros Hw. unfold stand. destruct (in_playing s); simpl; [|eauto].
  destruct (current s) as [[name h]|] eqn:Hcur; [|eauto].
  destruct (current_bankroll s name h Hw Hcur) as [b Hb]. rewrite Hb. simpl.
  destruct (playable h); eauto.
Qed.

Lemma double_total s : wired s -> is_Some (double shuffle s).
Proof.
  intros Hw. unfold double. destruct (in_playing s) eqn:Hin; simpl; [|eauto].
  destruct (current s) as [[name h]|] eqn:Hcur; [|eauto].
  destruct (current_bankroll s name h Hw Hcur) as [b Hb]. rewrite Hb. simpl.
  destruct (double_allowed b h); [|eauto].
  destruct (wired_playing s Hw Hin) as (dh & d & _ & Hd & Hok).
  destruct (deck_deal_wired
              (set_bankrolls s (dict_set (bankrolls s) name (b - bet h))) d Hd Hok)
    as (c & d' & g' & Hdeal & _).
  rewrite Hdeal. simpl. eauto.
Qed.

Lemma split_total s : wired s -> is_Some (split shuffle s).
Proof.
  intros Hw. destruct (in_playing s) eqn:Hin.
  2:{ unfold split. rewrite Hin. simpl. eauto. }
  destruct (current s) as [[name h]|] eqn:Hcur.
  2:{ unfold split. rewrite Hin, Hcur. simpl. eauto. }
  destruct (current_bankroll s name h Hw Hcur) as [b Hb].
  destruct (current_Some s name h Hcur) as (_ & _ & _ & hands & Hg & _).
  destruct (split_allowed b h hands) eqn:Hal.
  2:{ unfold split. rewrite Hin, Hcur, Hb. simpl. rewrite Hg. simpl.
      rewrite Hal. eauto. }
  assert (Hcs : can_split h = true).
  { unfold split_allowed in Hal. destruct (can_split h); [reflexivity|].
    rewrite andb_false_r in Hal. done. }
  apply can_split_iff in Hcs as (c1 & c2 & Hc & _).
  destruct (wired_playing s Hw Hin) as (dh & d & _ & Hd & Hok).
  destruct (Hok d Hd) as (Hn & _).
  destruct (split_effect shuffle shuffle_perm s name h b hands c1 c2 d)
    as (k1 & d1 & g1 & k2 & d2 & g2 & _ & _ & Hsplit);
    try done; try lia; try (rewrite Hsplit; eauto).
Qed.

Lemma previous_hand_total s : wired s -> is_Some (previous_hand s).
Proof.
  intros Hw. unfold previous_hand. destruct (in_playing s); simpl; [|eauto].
  destruct (current s) as [[name h]|] eqn:Hcur; [|eauto].
  destruct (current_bankroll s name h Hw Hcur) as [b Hb]. rewrite Hb. simpl.
  destruct (0 <? current_hand_idx s)%nat; [eauto|].
  destruct (0 <? current_player_idx s)%nat; [|eauto].
  destruct (current_Some s name h Hcur) as (_ & Hkey & _).
  destruct (lookup_lt_is_Some_2 (dict_keys (player_hands s))
              (current_player_idx s - 1)) as [prev Hprev].
  { apply lookup_lt_Some in Hkey. lia. }
  rewrite Hprev. simpl.
  destruct (dict_get_key_lookup _ _ _ Hprev) as [hands Hh]. rewrite Hh. simpl. eauto.
Qed.

Lemma next_hand_total s : wired s -> is_Some (next_hand s).
Proof.
  intros Hw. unfold next_hand. destruct (in_playing s); simpl; [|eauto].
  destruct (current s) as [[name h]|] eqn:Hcur; [|eauto].
  destruct (current_bankroll s name h Hw Hcur) as [b Hb]. rewrite Hb. simpl.
  destruct (current_Some s name h Hcur) as (_ & _ & _ & hands & Hg & _).
  rewrite Hg. simpl.
  repeat match goal with |- is_Some (if ?c then _ else _) => destruct c end; eauto.
Qed.

Lemma reveal_dealer_total s : wired s -> is_Some (reveal_dealer shuffle s).
Proof.
  intros Hw. unfold reveal_dealer. destruct (in_playing s) eqn:Hin; simpl; [|eauto].
  destruct (current s) as [[name h]|] eqn:Hcur; [|eauto].
  destruct (current_bankroll s name h Hw Hcur) as [b Hb]. rewrite Hb. simpl.
  destruct (all_done s h); [|eauto].
  destruct (wired_playing s Hw Hin) as (dh & d & Hdh & Hd & Hok).
  pose proof Hw as (Hkeys & _).
  destruct (reveal_dealer_body_spec s dh d Hdh Hd Hok Hkeys) as (s0 & dh' & Hrun & _).
  rewrite Hrun. eauto.
Qed.

Lemma in_results_dealer s :
  wired s -> in_results s = true -> is_Some (dealer_hand s).
Proof.
  intros (_ & (_ & H2 & H3) & _) Hin.
  assert (Hro : round_over s = true).
  { unfold in_results in Hin. destruct (round_over s); [reflexivity|].
    rewrite andb_false_r in Hin. done. }
  destruct (round_active s) eqn:Ha.
  - destruct (H2 eq_refl) as (_ & Hdh & _). exact Hdh.
  - destruct (H3 eq_refl) as (_ & Hro'). congruence.
Qed.

Lemma handle_total a s : wired s -> is_Some (handle shuffle a s).
Proof.
  intros Hw. destruct a; simpl.
  - unfold open_table. destruct (game_started s); [eauto|].
    destruct (Deck_new shuffle (rng s)). eauto.
  - destruct (in_betting s) eqn:Hbet.
    + pose proof Hw as (_ & _ & Hok).
      destruct (deal_cards_spec inputs s Hbet Hok) as (s' & -> & _). eauto.
    + unfold deal_cards. rewrite Hbet. simpl. eauto.
  - apply hit_total, Hw.
  - apply stand_total, Hw.
  - apply double_total, Hw.
  - apply split_total, Hw.
  - apply previous_hand_total, Hw.
  - apply next_hand_total, Hw.
  - apply reveal_dealer_total, Hw.
  - unfold next_round. destruct (negb (in_results s)); eauto.
  - unfold save_and_next_round. destruct (in_results s) eqn:Hin; simpl; [|eauto].
    destruct client; simpl; [|eauto].
    destruct (in_results_dealer s Hw Hin) as [dh Hdh].
    unfold round_rows. rewrite Hdh. simpl. eauto.
  - eauto.
Qed.

(** ** The turn pointer of a running table *)

Lemma table_ok_nonempty s :
  table_ok s -> Forall (fun kv : string * list Hand => kv.2 <> []) (player_hands s).
Proof.
  intros [Hph _]. eapply Forall_impl; [exact Hph|].
  intros [name hands] [_ Hlen]. simpl in *. destruct hands; [simpl in Hlen; lia|done].
Qed.

Lemma pointer_ok_set s s' name h hands hands' :
  current s = Some (name, h) ->
  dict_get (player_hands s) name = Some hands ->
  player_hands s' = dict_set (player_hands s) name hands' ->
  pointer s' = pointer s ->
  (length hands <= length hands')%nat ->
  pointer_ok s'.
Proof.
  intros (_ & Hk & _ & hands0 & Hg0 & Hl)%current_Some Hg Hph Hptr Hlen.
  rewrite Hg in Hg0. injection Hg0 as <-.
  unfold pointer in Hptr. injection Hptr as Hp Hq.
  exists name, hands'. rewrite Hph, Hp, Hq.
  split; [rewrite dict_keys_set by eauto; exact Hk|].
  split; [apply dict_get_set_eq|].
  apply lookup_lt_Some in Hl. lia.
Qed.

Lemma pointer_ok_same s s' :
  player_hands s' = player_hands s -> pointer s' = pointer s ->
  pointer_ok s -> pointer_ok s'.
Proof.
  unfold pointer, pointer_ok. intros -> [= -> ->]. done.
Qed.

Lemma hit_pointer_ok s s' :
  pointer_ok s -> hit shuffle s = Some s' -> pointer_ok s'.
Proof.
  intros Hp [->|(name & h & hands & c & d & d' & g' & Hin & Hcur & Hg & Hl & Hb
                 & Hpl & Hd & Hdeal & ->)]%hit_inv; [exact Hp|].
  eapply (pointer_ok_set s); [exact Hcur|exact Hg|reflexivity|reflexivity|].
  rewrite length_insert. lia.
Qed.

Lemma stand_pointer_ok s s' :
  pointer_ok s -> stand s = Some s' -> pointer_ok s'.
Proof.
  intros Hp [[-> _]|(name & h & hands & Hin & Hcur & Hg & Hl & Hb & Hpl & ->)]
    %stand_inv; [exact Hp|].
  eapply (pointer_ok_set s); [exact Hcur|exact Hg|reflexivity|reflexivity|].
  rewrite length_insert. lia.
Qed.

Lemma double_pointer_ok s s' :
  pointer_ok s -> double shuffle s = Some s' -> pointer_ok s'.
Proof.
  intros Hp [->|(name & h & hands & bank & c & d & d' & g' & Hin & Hcur & Hg & Hl
                 & Hb & Hpl & Hd & Hdeal & ->)]%double_inv; [exact Hp|].
  eapply (pointer_ok_set s); [exact Hcur|exact Hg|reflexivity|reflexivity|].
  rewrite length_insert. lia.
Qed.

Lemma split_pointer_ok s s' :
  pointer_ok s -> split shuffle s = Some s' -> pointer_ok s'.
Proof.
  intros Hp [->|(name & h & hands & bank & c1 & c2 & k1 & k2 & d & d1 & g1 & d2 & g2
                 & Hin & Hcur & Hg & Hl & Hb & Hal & Hc & Hd & Hdeal1 & Hdeal2 & ->)]
    %split_inv; [exact Hp|].
  eapply (pointer_ok_set s); [exact Hcur|exact Hg|reflexivity|reflexivity|].
  apply lookup_lt_Some in Hl.
  rewrite !length_app, length_take, length_drop. simpl. lia.
Qed.

Lemma next_hand_pointer_ok s s' :
  table_ok s -> pointer_ok s -> next_hand s = Some s' -> pointer_ok s'.
Proof.
  intros Hne%table_ok_nonempty Hp
    [->|(name & h & hands & _ & Hcur & Hh & _ & _ & [[Hlt ->]|(_ & Hlt & ->)])]
    %next_hand_cases; [exact Hp| |].
  - destruct (current_Some s name h Hcur) as (_ & Hk & _).
    exists name, hands. simpl. split; [exact Hk|]. split; [exact Hh|lia].
  - destruct (lookup_lt_is_Some_2 (dict_keys (player_hands s))
                (current_player_idx s + 1) Hlt) as [name' Hk'].
    destruct (dict_get_key_lookup _ _ _ Hk') as [hands' Hh'].
    exists name', hands'. simpl. split; [exact Hk'|]. split; [exact Hh'|].
    pose proof (Forall_dict_get (fun hs => hs <> []) _ _ _ Hne Hh') as Hnn.
    destruct hands'; [done|simpl; lia].
Qed.

Lemma previous_hand_pointer_ok s s' :
  table_ok s -> pointer_ok s -> previous_hand s = Some s' -> pointer_ok s'.
Proof.
  intros Hne%table_ok_nonempty (name & hands & Hk & Hh & Hlt)
    [->|[[Hpos ->]|(_ & _ & prev & hands' & Hk' & Hh' & ->)]]%previous_hand_cases.
  - exists name, hands. done.
  - exists name, hands. simpl. split; [exact Hk|]. split; [exact Hh|lia].
  - exists prev, hands'. simpl. split; [exact Hk'|]. split; [exact Hh'|].
    pose proof (Forall_dict_get (fun hs => hs <> []) _ _ _ Hne Hh') as Hnn.
    destruct hands'; [done|simpl; lia].
Qed.

(** ** The flags of a running table *)

Lemma play_frame a s s' :
  playing_action a = true ->
  handle shuffle a s = Some s' ->
  flow s' = flow s /\ dealer_hand s' = dealer_hand s
  /\ (s' = s \/ in_playing s = true).
Proof.
  destruct a; try discriminate; intros _; simpl.
  - intros [->|(name & h & hands & c & d & d' & g' & Hin & _ & _ & _ & _ & _ & _ & _
                & ->)]%hit_inv; auto.
  - intros [[-> _]|(name & h & hands & Hin & _ & _ & _ & _ & _ & ->)]%stand_inv; auto.
  - intros [->|(name & h & hands & bank & c & d & d' & g' & Hin & _ & _ & _ & _ & _
                & _ & _ & ->)]%double_inv; auto.
  - intros [->|(name & h & hands & bank & c1 & c2 & k1 & k2 & d & d1 & g1 & d2 & g2
                & Hin & _ & _ & _ & _ & _ & _ & _ & _ & _ & ->)]%split_inv; auto.
  - intros Hprev. destruct (in_playing s) eqn:Hin.
    + apply previous_hand_cases in Hprev
        as [->|[[_ ->]|(_ & _ & prev & hands & _ & _ & ->)]]; auto.
    + unfold previous_hand in Hprev. rewrite Hin in Hprev. simpl in Hprev.
      injection Hprev as <-. auto.
  - intros [->|(name & h & hands & Hin & _ & _ & _ & _ & [[_ ->]|(_ & _ & ->)])]
      %next_hand_cases; auto.
Qed.

Lemma play_pointer_ok a s s' :
  playing_action a = true ->
  table_ok s -> pointer_ok s ->
  handle shuffle a s = Some s' -> pointer_ok s'.
Proof.
  destruct a; try discriminate; intros _ Hok Hp; simpl.
  - apply hit_pointer_ok, Hp.
  - apply stand_pointer_ok, Hp.
  - apply double_pointer_ok, Hp.
  - apply split_pointer_ok, Hp.
  - apply previous_hand_pointer_ok; assumption.
  - apply next_hand_pointer_ok; assumption.
Qed.

Lemma play_turn_ok a s s' :
  playing_action a = true ->
  table_ok s -> turn_ok s ->
  handle shuffle a s = Some s' -> turn_ok s'.
Proof.
  intros Ha Hok (H1 & H2 & H3 & H4 & H5) Hstep.
  destruct (play_frame a s s' Ha Hstep) as (Hflow & Hdh & Hsame).
  unfold flow in Hflow. injection Hflow as _ _ Hra Hdt Hro Hpa _ _.
  unfold turn_ok. rewrite Hra, Hdt, Hro, Hpa, Hdh.
  do 3 (split; [assumption|]). split.
  - intros Hact. apply (play_pointer_ok a s s' Ha Hok (H4 Hact) Hstep).
  - intros Hact. destruct Hsame as [->|Hin]; [exact (H5 Hact)|].
    apply in_playing_active in Hin. congruence.
Qed.

Lemma fresh_seats_nonempty bets :
  existsb (fun kv : string * Z => MIN_BET <=? kv.2) bets = true ->
  fresh_seats bets <> [].
Proof.
  intros (kv & Hin & Hb)%existsb_exists. apply Z.leb_le in Hb.
  assert (Hf : kv ∈ filter (fun kv : string * Z => 0 < kv.2) bets).
  { apply list_elem_of_filter. split; [unfold MIN_BET in Hb; lia|].
    apply list_elem_of_In. exact Hin. }
  unfold fresh_seats. destruct (filter _ bets); [inversion Hf|discriminate].
Qed.

Lemma pointer_ok_first s bets :
  bets_of (player_hands s) = bets_of (fresh_seats bets) ->
  fresh_seats bets <> [] ->
  pointer s = (0%nat, 0%nat) ->
  pointer_ok s.
Proof.
  unfold pointer. intros Hb Hne [= Hp Hq]. unfold pointer_ok. rewrite Hp, Hq.
  unfold fresh_seats in *.
  destruct (filter _ bets) as [|[k b] rest]; [done|].
  destruct (player_hands s) as [|[k' hands] ph]; [discriminate|].
  simpl in Hb. injection Hb as -> Hbet _.
  exists k, hands. simpl. split; [reflexivity|].
  rewrite bool_decide_eq_true_2 by reflexivity. split; [reflexivity|].
  destruct hands; [discriminate|simpl; lia].
Qed.

Lemma deal_cards_turn_ok inputs s s' :
  wired s -> turn_ok s -> deal_cards shuffle inputs s = Some s' -> turn_ok s'.
Proof.
  intros Hw Ht Hdeal. destruct (in_betting s) eqn:Hbet.
  2:{ unfold deal_cards in Hdeal. rewrite Hbet in Hdeal. simpl in Hdeal.
      injection Hdeal as <-. exact Ht. }
  pose proof Hw as (_ & _ & Hok).
  destruct (deal_cards_spec inputs s Hbet Hok) as (s0 & Hrun & Hno & Hyes).
  rewrite Hrun in Hdeal. injection Hdeal as ->.
  destruct (existsb _ (collect_bets s inputs)) eqn:Hq;
    [|rewrite (Hno eq_refl); exact Ht].
  destruct (Hyes eq_refl) as (Hbets & _ & _ & Hflow & Hptr & _).
  unfold flow in Hflow. injection Hflow as _ _ Hra Hdt Hro Hpa _ _.
  unfold turn_ok. rewrite Hra, Hdt, Hro, Hpa.
  do 2 (split; [reflexivity|]). split; [discriminate|].
  split; [|discriminate]. intros _.
  apply (pointer_ok_first s' (collect_bets s inputs) Hbets); [|exact Hptr].
  apply fresh_seats_nonempty, Hq.
Qed.

Lemma reveal_dealer_turn_ok s s' :
  wired s -> turn_ok s -> reveal_dealer shuffle s = Some s' -> turn_ok s'.
Proof.
  intros Hw Ht. unfold reveal_dealer. destruct (in_playing s) eqn:Hin; simpl.
  2:{ intros [= <-]. exact Ht. }
  destruct (current s) as [[name h]|]; [|intros [= <-]; exact Ht].
  destruct (dict_get (bankrolls s) name); [|discriminate]. simpl.
  destruct (all_done s h); [|intros [= <-]; exact Ht].
  destruct (wired_playing s Hw Hin) as (dh & d & Hdh & Hd & Hok).
  pose proof Hw as (Hkeys & _).
  destruct (reveal_dealer_body_spec s dh d Hdh Hd Hok Hkeys)
    as (s0 & dh' & Hrun & Hdh' & Hv & Hph & _ & _ & Hflow & Hptr & _).
  rewrite Hrun. intros [= <-].
  unfold flow in Hflow. injection Hflow as _ _ Hra Hdt Hro Hpa _ _.
  destruct Ht as (_ & _ & _ & H4 & _).
  unfold turn_ok. rewrite Hra, Hdt, Hro, Hpa.
  do 2 (split; [reflexivity|]). split; [eauto|]. split.
  - intros Hact. apply (pointer_ok_same s s0 Hph Hptr (H4 Hact)).
  - rewrite (in_playing_active s Hin). discriminate.
Qed.

Lemma cleared_turn_ok s :
  dealer_turn s = false -> round_over s = false -> payouts_applied s = false ->
  round_active s = false -> player_hands s = [] -> dealer_hand s = None ->
  turn_ok s.
Proof. unfold turn_ok. intros -> -> -> -> -> ->. done. Qed.

Lemma handle_turn_ok a s s' :
  wired s -> table_ok s -> turn_ok s ->
  handle shuffle a s = Some s' -> turn_ok s'.
Proof.
  intros Hw Hok Ht Hstep.
  destruct (playing_action a) eqn:Ha;
    [exact (play_turn_ok a s s' Ha Hok Ht Hstep)|].
  destruct a; try discriminate; simpl in Hstep.
  - unfold open_table in Hstep. destruct (game_started s) eqn:Hgs.
    { injection Hstep as <-. exact Ht. }
    destruct Hw as (_ & (H1 & _ & H3) & _).
    pose proof (H1 Hgs) as Hra. destruct (H3 Hra) as (_ & Hro).
    destruct Ht as (Hdt & _).
    destruct (Deck_new shuffle (rng s)) as [d g]. injection Hstep as <-.
    apply cleared_turn_ok; simpl; congruence.
  - exact (deal_cards_turn_ok inputs s s' Hw Ht Hstep).
  - exact (reveal_dealer_turn_ok s s' Hw Ht Hstep).
  - unfold next_round in Hstep. destruct (negb (in_results s));
      injection Hstep as <-; [exact Ht|]. apply cleared_turn_ok; reflexivity.
  - unfold save_and_next_round in Hstep.
    destruct (negb (in_results s)); [injection Hstep as <-; exact Ht|].
    destruct (if client then _ else _); [|discriminate]. simpl in Hstep.
    injection Hstep as <-. apply cleared_turn_ok; reflexivity.
  - injection Hstep as <-. apply cleared_turn_ok; reflexivity.
Qed.

Lemma reachable_sound s :
  reachable shuffle s -> wired s /\ table_ok s /\ turn_ok s.
Proof.
  intros Hr. split; [exact (reachable_wired s Hr)|].
  split; [exact (reachable_table_ok shuffle s Hr)|].
  induction Hr as [g|s a s' Hr IH Hstep];
    [apply cleared_turn_ok; reflexivity|].
  exact (handle_turn_ok a s s' (reachable_wired s Hr)
           (reachable_table_ok shuffle s Hr) IH Hstep).
Qed.

(** ** What holds of every state a session reaches *)

(** No click raises: from every state a session can reach, whatever has
    been clicked and typed before, every button handler runs to the end. *)
Theorem no_click_raises (s : State) (a : Action) :
  reachable shuffle s -> is_Some (handle shuffle a s).
Proof. intros Hr. apply handle_total, reachable_wired, Hr. Qed.

(** Once the table is open the page shows exactly one of its three phases.
    In the betting phase the table is empty.  While a round is played there
    are a dealer hand and a shoe, the dealer has not played and nothing has
    been paid; the results are shown only after the dealer has reached 17 or
    more and the payouts have been applied, and the round they belong to is
    still the active one. *)
Theorem one_phase_at_a_time (s : State) :
  reachable shuffle s ->
  game_started s = true ->
  ((in_betting s = true /\ in_playing s = false /\ in_results s = false)
   \/ (in_betting s = false /\ in_playing s = true /\ in_results s = false)
   \/ (in_betting s = false /\ in_playing s = false /\ in_results s = true))
  /\ (in_betting s = true -> player_hands s = [] /\ dealer_hand s = None)
  /\ (in_playing s = true ->
      dealer_turn s = false /\ payouts_applied s = false
      /\ is_Some (dealer_hand s) /\ is_Some (deck s))
  /\ (in_results s = true ->
      round_active s = true /\ dealer_turn s = true /\ payouts_applied s = true
      /\ exists dh : Hand, dealer_hand s = Some dh /\ 17 <= get_value dh).
Proof.
  intros Hr Hgs.
  destruct (reachable_sound s Hr)
    as ((_ & (_ & H2 & H3) & _) & _ & (Hdt & Hpa & Hdh & _ & H5)).
  unfold in_betting, in_playing, in_results. rewrite Hgs, Hdt, Hpa.
  destruct (round_active s) eqn:Ha.
  - destruct (H2 eq_refl) as (-> & Hd & Hk).
    destruct (round_over s) eqn:Ho; simpl.
    + split; [auto|]. do 2 (split; [discriminate|]). intros _. auto.
    + split; [auto|]. split; [discriminate|]. split; [auto|discriminate].
  - destruct (H3 eq_refl) as (-> & ->). simpl.
    split; [auto|]. split; [intros _; exact (H5 eq_refl)|]. split; discriminate.
Qed.

(** While a round is on, the turn pointer names a seated player and one of
    that player's hands; the hand has a positive bet and flags that agree
    with its cards.  During play the control panel shows that hand unless
    the player's name is empty. *)
Theorem pointer_names_a_hand (s : State) :
  reachable shuffle s ->
  round_active s = true ->
  exists (name : string) (hands : list Hand) (h : Hand),
    dict_keys (player_hands s) !! current_player_idx s = Some name
    /\ dict_get (player_hands s) name = Some hands
    /\ hands !! current_hand_idx s = Some h
    /\ hand_ok h
    /\ is_Some (dict_get (bankrolls s) name)
    /\ (in_playing s = true -> name <> EmptyString -> current s = Some (name, h)).
Proof.
  intros Hr Ha.
  destruct (reachable_sound s Hr)
    as (((_ & Hkeys) & _ & _) & [Hph _] & (Hdt & _ & _ & Hp & _)).
  destruct (Hp Ha) as (name & hands & Hk & Hg & Hlt).
  destruct (lookup_lt_is_Some_2 hands (current_hand_idx s) Hlt) as [h Hl].
  exists name, hands, h. do 3 (split; [assumption|]). split.
  { pose proof (Forall_dict_get seat_ok _ _ _ Hph Hg) as [Hall _].
    apply (Forall_lookup_1 _ _ _ _ Hall Hl). }
  split; [apply Hkeys; eauto|].
  intros Hin Hne. apply (current_intro s name h hands); try assumption.
  rewrite Hdt. unfold in_playing in Hin. destruct (round_over s); [|reflexivity].
  rewrite andb_false_r in Hin. done.
Qed.

(** A round is never stuck.  Whenever the control panel shows a hand, one
    of its buttons gets the round further: a hand that can be played can
    stand, which finishes it; from a finished hand that is not the last one
    Next Hand moves the turn on; and on the last finished hand Reveal Dealer
    ends the round and brings up the results. *)
Theorem round_never_stuck (s : State) (name : string) (h : Hand) :
  reachable shuffle s ->
  in_playing s = true ->
  current s = Some (name, h) ->
  (playable h = true ->
   exists s' : State,
     stand s = Some s'
     /\ current s' = Some (name, set_standing h true)
     /\ playable (set_standing h true) = false)
  /\ (playable h = false ->
      all_done s h = false ->
      exists s' : State, next_hand s = Some s' /\ pointer s' <> pointer s)
  /\ (all_done s h = true ->
      playable h = false
      /\ exists s' : State,
           reveal_dealer shuffle s = Some s' /\ in_results s' = true).
Proof.
  intros Hr Hin Hcur.
  pose proof (reachable_wired s Hr) as Hw.
  destruct (current_bankroll s name h Hw Hcur) as [b Hb].
  destruct (current_Some s name h Hcur) as (Hdt & Hk & Hne & hands & Hg & Hl).
  split; [|split].
  - intros Hpl. unfold stand. rewrite Hin, Hcur. simpl. rewrite Hb. simpl.
    rewrite Hpl. eexists. split; [reflexivity|]. split.
    + rewrite (store_hand_eq s name _ _ hands Hg).
      apply (current_after_store s _ name h _ hands Hcur Hg); reflexivity.
    + unfold playable. simpl. apply andb_false_r.
  - intros Hpl Hnd. unfold next_hand. rewrite Hin, Hcur. simpl. rewrite Hb. simpl.
    rewrite Hg. simpl. rewrite Hnd.
    assert (Hfin : negb (is_standing h) && negb (is_bust h) = false).
    { unfold playable in Hpl. destruct (is_standing h), (is_bust h); done. }
    rewrite Hfin.
    unfold all_done in Hnd. rewrite Hk, Hg in Hnd.
    assert (Hbs : is_bust h || is_standing h = true).
    { unfold playable in Hpl. destruct (is_standing h), (is_bust h); done. }
    rewrite Hbs, andb_true_r in Hnd.
    apply lookup_lt_Some in Hl. apply lookup_lt_Some in Hk.
    destruct (Z.of_nat (current_hand_idx s) <? Z.of_nat (length hands) - 1) eqn:E1.
    { eexists. split; [reflexivity|]. unfold pointer. simpl. intros [= ?]. lia. }
    destruct (Z.of_nat (current_player_idx s)
              <? Z.of_nat (length (dict_keys (player_hands s))) - 1) eqn:E2.
    { eexists. split; [reflexivity|]. unfold pointer. simpl. intros [= ? ?]. lia. }
    apply Z.ltb_ge in E1, E2. exfalso.
    apply andb_false_iff in Hnd as [Hnd|Hnd]; apply Z.eqb_neq in Hnd; lia.
  - intros Hall.
    assert (Hpl : playable h = false).
    { unfold all_done in Hall. rewrite Hk, Hg in Hall.
      apply andb_true_iff in Hall as [_ Hbs]. unfold playable.
      destruct (is_bust h), (is_standing h); done. }
    split; [exact Hpl|].
    unfold reveal_dealer. rewrite Hin, Hcur. simpl. rewrite Hb. simpl. rewrite Hall.
    destruct (wired_playing s Hw Hin) as (dh & d & Hdh & Hd & Hok).
    pose proof Hw as (Hkeys & _).
    destruct (reveal_dealer_body_spec s dh d Hdh Hd Hok Hkeys)
      as (s0 & dh' & Hrun & _ & _ & _ & _ & _ & Hflow & _).
    exists s0. split; [exact Hrun|].
    unfold flow in Hflow. injection Hflow as Hgs Hbp Hra _ Hro _ _ _.
    unfold in_results. rewrite Hgs, Hbp, Hra, Hro.
    unfold in_playing in Hin.
    destruct (game_started s), (betting_phase s), (round_active s); done.
Qed.

(** ** Chips *)

Lemma staked_cons h t : staked (h :: t) = bet h + staked t.
Proof. reflexivity. Qed.

Lemma staked_app a b : staked (a ++ b) = staked a + staked b.
Proof.
  unfold staked. rewrite map_app, fold_right_app.
  induction (map bet a) as [|x xs IH]; simpl; lia.
Qed.

Lemma staked_middle hands i h :
  hands !! i = Some h ->
  staked hands = staked (take i hands) + bet h + staked (drop (S i) hands).
Proof.
  intros Hl. rewrite <- (take_drop_middle hands i h Hl) at 1.
  rewrite staked_app. unfold staked at 2. simpl.
  fold (staked (drop (S i) hands)). lia.
Qed.

Lemma staked_insert hands i h h' :
  hands !! i = Some h ->
  staked (<[i := h']> hands) = staked hands - bet h + bet h'.
Proof.
  intros Hl. pose proof (lookup_lt_Some _ _ _ Hl) as Hlt.
  rewrite (staked_middle hands i h Hl).
  rewrite (staked_middle (<[i := h']> hands) i h').
  - rewrite take_insert_ge by lia. rewrite drop_insert_lt by lia. lia.
  - apply list_lookup_insert_eq. exact Hlt.
Qed.

Lemma chips_update s s' name hands hands' bank bank' :
  dict_get (player_hands s) name = Some hands ->
  dict_get (bankrolls s) name = Some bank ->
  player_hands s' = dict_set (player_hands s) name hands' ->
  dict_get (bankrolls s') name = Some bank' ->
  (forall n, n <> name -> dict_get (bankrolls s') n = dict_get (bankrolls s) n) ->
  bank' + staked hands' = bank + staked hands ->
  forall n, chips s' n = chips s n.
Proof.
  intros Hg Hb Hph Hb' Hother Heq n. unfold chips. rewrite Hph.
  destruct (decide (n = name)) as [->|Hne].
  - rewrite dict_get_set_eq, Hg, Hb, Hb'. simpl. exact Heq.
  - rewrite dict_get_set_ne by congruence. rewrite (Hother n Hne). reflexivity.
Qed.

Lemma bet_doubled_hand h c : bet (doubled_hand h c) = bet h * 2.
Proof. unfold doubled_hand. simpl. rewrite bet_add_card. reflexivity. Qed.

Lemma bet_split_kept h c1 k1 : bet (split_kept h c1 k1) = bet h.
Proof. unfold split_kept. rewrite bet_add_card. reflexivity. Qed.

Lemma bet_split_new h c2 k2 : bet (split_new h c2 k2) = bet h.
Proof. unfold split_new. rewrite bet_add_card. reflexivity. Qed.

Lemma play_chips a s s' :
  playing_action a = true ->
  handle shuffle a s = Some s' ->
  forall n, chips s' n = chips s n.
Proof.
  destruct a; try discriminate; intros _; simpl.
  - intros [->|(name & h & hands & c & d & d' & g' & Hin & _ & Hg & Hl & [b Hb] & _
                & _ & _ & ->)]%hit_inv; [done|].
    eapply (chips_update s _ name hands _ b b);
      [exact Hg|exact Hb|reflexivity|exact Hb|done|].
    rewrite (staked_insert hands _ h _ Hl), bet_add_card. lia.
  - intros [[-> _]|(name & h & hands & Hin & _ & Hg & Hl & [b Hb] & _ & ->)]
      %stand_inv; [done|].
    eapply (chips_update s _ name hands _ b b);
      [exact Hg|exact Hb|reflexivity|exact Hb|done|].
    rewrite (staked_insert hands _ h _ Hl). simpl. lia.
  - intros [->|(name & h & hands & bank & c & d & d' & g' & Hin & _ & Hg & Hl & Hb
                & _ & _ & _ & ->)]%double_inv; [done|].
    eapply (chips_update s _ name hands _ bank (bank - bet h));
      [exact Hg|exact Hb|reflexivity|simpl..].
    + apply dict_get_set_eq.
    + intros n Hn. apply dict_get_set_ne. congruence.
    + rewrite (staked_insert hands _ h _ Hl), bet_doubled_hand. lia.
  - intros [->|(name & h & hands & bank & c1 & c2 & k1 & k2 & d & d1 & g1 & d2 & g2
                & Hin & _ & Hg & Hl & Hb & _ & _ & _ & _ & _ & ->)]%split_inv; [done|].
    eapply (chips_update s _ name hands _ bank (bank - bet h));
      [exact Hg|exact Hb|reflexivity|simpl..].
    + apply dict_get_set_eq.
    + intros n Hn. apply dict_get_set_ne. congruence.
    + rewrite (staked_middle hands _ h Hl), !staked_app.
      rewrite !staked_cons, bet_split_kept, bet_split_new. lia.
  - intros Hprev. destruct (in_playing s) eqn:Hin.
    + apply previous_hand_cases in Hprev
        as [->|[[_ ->]|(_ & _ & prev & hands & _ & _ & ->)]]; done.
    + unfold previous_hand in Hprev. rewrite Hin in Hprev. simpl in Hprev.
      injection Hprev as <-. done.
  - intros [->|(name & h & hands & Hin & _ & _ & _ & _ & [[_ ->]|(_ & _ & ->)])]
      %next_hand_cases; done.
Qed.

Lemma staked_bets ph name :
  staked (default [] (dict_get ph name))
  = fold_right Z.add 0 (default [] (dict_get (bets_of ph) name)).
Proof. rewrite dict_get_bets_of. destruct (dict_get ph name); reflexivity. Qed.

Lemma staked_fresh bets name :
  NoDup (dict_keys bets) ->
  staked (default [] (dict_get (fresh_seats bets) name)) = stake_of bets name.
Proof.
  intros Hnd. rewrite fresh_seats_get by done. unfold stake_of.
  destruct (dict_get bets name) as [b|]; [|reflexivity].
  destruct (0 <? b); simpl; [unfold staked; simpl; lia|reflexivity].
Qed.

Lemma in_betting_idle s : in_betting s = true -> round_active s = false.
Proof.
  unfold in_betting. destruct (round_active s); [|reflexivity].
  rewrite andb_false_r. done.
Qed.

Lemma deal_chips inputs s s' :
  in_betting s = true -> deck_ok s -> player_hands s = [] ->
  deal_cards shuffle inputs s = Some s' ->
  forall n, chips s' n = chips s n.
Proof.
  intros Hbet Hok Hempty Hdeal n.
  destruct (deal_cards_spec inputs s Hbet Hok) as (s0 & Hrun & Hno & Hyes).
  rewrite Hrun in Hdeal. injection Hdeal as ->.
  destruct (existsb _ (collect_bets s inputs)) eqn:Hq;
    [|rewrite (Hno eq_refl); done].
  destruct (Hyes eq_refl) as (Hbets & Hget & _).
  destruct (collect_bets_spec s inputs) as (_ & Hnd & _ & Hlook & _).
  unfold chips.
  rewrite staked_bets, Hbets, <- staked_bets, (staked_fresh _ _ Hnd), Hget, Hempty.
  simpl. destruct (dict_get (bankrolls s) n) as [b|] eqn:Hb; simpl.
  - unfold staked. simpl. lia.
  - unfold stake_of. rewrite Hlook. case_bool_decide; [|reflexivity].
    unfold bet_for. rewrite Hb. reflexivity.
Qed.

(** Between settlements no click creates or destroys chips: Deal Cards,
    Hit, Stand, Double, Split and the two navigation buttons leave what every
    player owns, the bankroll together with the bets on the player's hands,
    as it was. *)
Theorem chips_conserved (s s' : State) (a : Action) :
  reachable shuffle s ->
  betting_action a = true ->
  handle shuffle a s = Some s' ->
  forall name : string, chips s' name = chips s name.
Proof.
  intros Hr Ha Hstep.
  destruct (playing_action a) eqn:Hp; [exact (play_chips a s s' Hp Hstep)|].
  destruct a; try discriminate. simpl in Hstep.
  destruct (in_betting s) eqn:Hbet.
  - destruct (reachable_sound s Hr) as ((_ & _ & Hok) & _ & (_ & _ & _ & _ & H5)).
    destruct (H5 (in_betting_idle s Hbet)) as (Hempty & _).
    exact (deal_chips inputs s s' Hbet Hok Hempty Hstep).
  - unfold deal_cards in Hstep. rewrite Hbet in Hstep. simpl in Hstep.
    injection Hstep as <-. done.
Qed.

(** ** Bankrolls *)

Lemma payout_nonneg dh h : 0 <= bet h -> 0 <= payout dh h.
Proof.
  intros Hb. pose proof (int_bet_2_5_nonneg _ Hb). unfold payout.
  repeat match goal with |- context [if ?c then _ else _] => destruct c end;
    lia.
Qed.

Lemma hands_payout_nonneg dh hands :
  Forall hand_ok hands -> 0 <= hands_payout dh hands.
Proof.
  unfold hands_payout. induction 1 as [|h hands [_ Hb] _ IH]; simpl; [lia|].
  pose proof (payout_nonneg dh h). lia.
Qed.

Lemma solvent_same s s' : bankrolls s' = bankrolls s -> solvent s -> solvent s'.
Proof. unfold solvent. intros ->. done. Qed.

Lemma solvent_set s s' name b :
  bankrolls s' = dict_set (bankrolls s) name b -> 0 <= b ->
  solvent s -> solvent s'.
Proof.
  intros Hb Hpos Hs n x. rewrite Hb. destruct (decide (name = n)) as [->|Hne].
  - rewrite dict_get_set_eq. intros [= <-]. exact Hpos.
  - rewrite dict_get_set_ne by exact Hne. apply Hs.
Qed.

Lemma play_solvent a s s' :
  playing_action a = true ->
  solvent s -> handle shuffle a s = Some s' -> solvent s'.
Proof.
  destruct a; try discriminate; intros _ Hs; simpl.
  - intros [->|(name & h & hands & c & d & d' & g' & _ & _ & _ & _ & _ & _ & _ & _
                & ->)]%hit_inv; [done|]. revert Hs. apply solvent_same. reflexivity.
  - intros [[-> _]|(name & h & hands & _ & _ & _ & _ & _ & _ & ->)]%stand_inv;
      [done|]. revert Hs. apply solvent_same. reflexivity.
  - intros [->|(name & h & hands & bank & c & d & d' & g' & _ & _ & _ & _ & Hb
                & Hal & _ & _ & ->)]%double_inv; [done|].
    revert Hs. apply (solvent_set s _ name (bank - bet h)); [reflexivity|].
    unfold double_allowed in Hal. apply andb_true_iff in Hal as [_ Hle].
    apply Z.leb_le in Hle. lia.
  - intros [->|(name & h & hands & bank & c1 & c2 & k1 & k2 & d & d1 & g1 & d2 & g2
                & _ & _ & _ & _ & Hb & Hal & _ & _ & _ & _ & ->)]%split_inv; [done|].
    revert Hs. apply (solvent_set s _ name (bank - bet h)); [reflexivity|].
    unfold split_allowed in Hal. apply andb_true_iff in Hal as [Hal _].
    apply andb_true_iff in Hal as [_ Hle]. apply Z.leb_le in Hle. lia.
  - intros Hprev. destruct (in_playing s) eqn:Hin.
    + apply previous_hand_cases in Hprev
        as [->|[[_ ->]|(_ & _ & prev & hands & _ & _ & ->)]]; done.
    + unfold previous_hand in Hprev. rewrite Hin in Hprev. simpl in Hprev.
      injection Hprev as <-. done.
  - intros [->|(name & h & hands & _ & _ & _ & _ & _ & [[_ ->]|(_ & _ & ->)])]
      %next_hand_cases; done.
Qed.

Lemma deal_cards_solvent inputs s s' :
  wired s -> solvent s -> within_limits s inputs ->
  deal_cards shuffle inputs s = Some s' -> solvent s'.
Proof.
  intros Hw Hs Hlim Hdeal. destruct (in_betting s) eqn:Hbet.
  2:{ unfold deal_cards in Hdeal. rewrite Hbet in Hdeal. simpl in Hdeal.
      injection Hdeal as <-. exact Hs. }
  pose proof Hw as (_ & _ & Hok).
  destruct (deal_cards_spec inputs s Hbet Hok) as (s0 & Hrun & Hno & Hyes).
  rewrite Hrun in Hdeal. injection Hdeal as ->.
  destruct (existsb _ (collect_bets s inputs)) eqn:Hq;
    [|rewrite (Hno eq_refl); exact Hs].
  destruct (Hyes eq_refl) as (_ & Hget & _).
  destruct (collect_bets_spec s inputs) as (_ & _ & _ & Hlook & _).
  intros name x. rewrite Hget.
  destruct (dict_get (bankrolls s) name) as [b|] eqn:Hb; [|discriminate].
  simpl. intros [= <-]. pose proof (Hs name b Hb) as Hpos.
  unfold stake_of. rewrite Hlook. case_bool_decide; [|lia].
  destruct (0 <? bet_for s inputs name) eqn:E; [|lia]. apply Z.ltb_lt in E.
  destruct (bet_for_positive s inputs name E) as (b0 & Hb0 & Hmin & ->).
  rewrite Hb in Hb0. injection Hb0 as <-.
  destruct (Hlim name b Hb Hmin). lia.
Qed.

Lemma reveal_dealer_solvent s s' :
  wired s -> table_ok s -> solvent s ->
  reveal_dealer shuffle s = Some s' -> solvent s'.
Proof.
  intros Hw Hok Hs. unfold reveal_dealer. destruct (in_playing s) eqn:Hin; simpl.
  2:{ intros [= <-]. exact Hs. }
  destruct (current s) as [[name h]|]; [|intros [= <-]; exact Hs].
  destruct (dict_get (bankrolls s) name); [|discriminate]. simpl.
  destruct (all_done s h); [|intros [= <-]; exact Hs].
  destruct (wired_playing s Hw Hin) as (dh & d & Hdh & Hd & Hdk).
  pose proof Hw as (Hkeys & _).
  destruct (reveal_dealer_body_spec s dh d Hdh Hd Hdk Hkeys)
    as (s0 & dh' & Hrun & _ & _ & _ & Hpay & _).
  rewrite Hrun. intros [= <-].
  destruct (payouts_applied s); [revert Hs; apply solvent_same; exact Hpay|].
  destruct Hkeys as [Hnd _]. intros n x.
  rewrite (pay_players_spec dh' _ _ _ Hnd Hpay n).
  destruct (dict_get (player_hands s) n) as [hands|] eqn:Hg; [|apply Hs].
  destruct (dict_get (bankrolls s) n) as [b|] eqn:Hb; [|discriminate].
  simpl. intros [= <-]. pose proof (Hs n b Hb).
  destruct Hok as [Hph _].
  pose proof (Forall_dict_get seat_ok _ _ _ Hph Hg) as [Hall _].
  pose proof (hands_payout_nonneg dh' hands Hall). lia.
Qed.

Lemma open_table_solvent n names s s' :
  solvent s -> open_table shuffle n names s = Some s' -> solvent s'.
Proof.
  intros Hs. unfold open_table. destruct (game_started s); [intros [= <-]; exact Hs|].
  destruct (Deck_new shuffle (rng s)) as [d g]. intros [= <-] name x. simpl.
  rewrite (build_get (fun _ => STARTING_CHIPS) names [] name).
  case_bool_decide; [|discriminate]. intros [= <-]. unfold STARTING_CHIPS. lia.
Qed.

Lemma handle_solvent a s s' :
  wired s -> table_ok s -> solvent s ->
  (forall inputs, a = ActDeal inputs -> within_limits s inputs) ->
  handle shuffle a s = Some s' -> solvent s'.
Proof.
  intros Hw Hok Hs Hlim Hstep.
  destruct (playing_action a) eqn:Ha; [exact (play_solvent a s s' Ha Hs Hstep)|].
  destruct a; try discriminate; simpl in Hstep.
  - exact (open_table_solvent n names s s' Hs Hstep).
  - exact (deal_cards_solvent inputs s s' Hw Hs (Hlim inputs eq_refl) Hstep).
  - exact (reveal_dealer_solvent s s' Hw Hok Hs Hstep).
  - unfold next_round in Hstep. destruct (negb (in_results s));
      injection Hstep as <-; [exact Hs|]. revert Hs. apply solvent_same. reflexivity.
  - unfold save_and_next_round in Hstep.
    destruct (negb (in_results s)); [injection Hstep as <-; exact Hs|].
    destruct (if client then _ else _); [|discriminate]. simpl in Hstep.
    injection Hstep as <-. revert Hs. apply solvent_same. reflexivity.
  - injection Hstep as <-. intros name x [=].
Qed.

Lemma played_reachable s : played shuffle s -> reachable shuffle s.
Proof.
  induction 1 as [g|s a s' _ IH _ Hstep]; [constructor|].
  exact (reachable_step shuffle s a s' IH Hstep).
Qed.

(** No bankroll ever goes below zero: as long as every bet that is typed
    in respects the bounds of the bet input, every bankroll of every state
    the session reaches is zero or more. *)
Theorem bankrolls_never_negative (s : State) (name : string) (b : Z) :
  played shuffle s ->
  dict_get (bankrolls s) name = Some b ->
  0 <= b.
Proof.
  intros Hp. revert name b. change (solvent s).
  induction Hp as [g|s a s' Hp IH Hlim Hstep]; [intros name b [=]|].
  pose proof (played_reachable s Hp) as Hr.
  exact (handle_solvent a s s' (reachable_wired s Hr)
           (reachable_table_ok shuffle s Hr) IH Hlim Hstep).
Qed.

(** ** Deal Cards *)

Lemma dict_get_elem {V : Type} (d : dict V) k v :
  dict_get d k = Some v -> (k, v) ∈ d.
Proof.
  induction d as [|[k0 v0] d IH]; simpl; [discriminate|].
  case_bool_decide as E.
  - intros [= <-]. subst. left.
  - intros H. right. auto.
Qed.

Lemma qualifying_bet s inputs :
  existsb (fun kv : string * Z => MIN_BET <=? kv.2) (collect_bets s inputs) = true
  <-> exists name, name ∈ player_names s /\ MIN_BET <= bet_for s inputs name.
Proof.
  destruct (collect_bets_spec s inputs) as (_ & _ & Hent & Hlook & _).
  rewrite existsb_exists. split.
  - intros ([k b] & Hin & Hb). simpl in Hb. apply Z.leb_le in Hb.
    apply list_elem_of_In in Hin.
    pose proof (proj1 (Forall_forall _ _) Hent _ Hin) as Hbf. simpl in Hbf.
    exists k. split; [|lia].
    assert (Hk : is_Some (dict_get (collect_bets s inputs) k)).
    { apply is_Some_dict_get. apply (list_elem_of_fmap_2 fst _ _ Hin). }
    rewrite Hlook in Hk. case_bool_decide; [assumption|]. destruct Hk as [? [=]].
  - intros (name & Hin & Hb). exists (name, bet_for s inputs name). split.
    + apply list_elem_of_In, dict_get_elem. rewrite Hlook.
      rewrite bool_decide_eq_true_2 by exact Hin. reflexivity.
    + simpl. apply Z.leb_le. exact Hb.
Qed.

Lemma stake_of_collect s inputs name :
  stake_of (collect_bets s inputs) name
  = if bool_decide (name ∈ player_names s) && (0 <? bet_for s inputs name)
    then bet_for s inputs name else 0.
Proof.
  destruct (collect_bets_spec s inputs) as (_ & _ & _ & Hlook & _).
  unfold stake_of. rewrite Hlook. case_bool_decide; reflexivity.
Qed.

(** Deal Cards in the betting phase.  When no player named at the table has
    both a bankroll of at least the minimum bet and a bet of at least the
    minimum, nothing happens.  Otherwise the round starts with the turn on
    the first hand: exactly the players named at the table whose recorded
    bet is positive are seated, each with one hand that carries the bet, and
    the bet is taken from that player's bankroll; every other bankroll is
    left as it is.  A player whose bankroll is below the minimum bet is
    never seated, whatever has been typed. *)
Theorem deal_seats_bettors (inputs : string -> Z) (s : State) :
  reachable shuffle s ->
  in_betting s = true ->
  exists s' : State,
    deal_cards shuffle inputs s = Some s'
    /\ ((forall name, name ∈ player_names s -> bet_for s inputs name < MIN_BET) ->
        s' = s)
    /\ (forall name0 : string,
          name0 ∈ player_names s ->
          MIN_BET <= bet_for s inputs name0 ->
          in_playing s' = true
          /\ pointer s' = (0%nat, 0%nat)
          /\ (forall name : string,
                dict_get (bets_of (player_hands s')) name
                = if bool_decide (name ∈ player_names s)
                     && (0 <? bet_for s inputs name)
                  then Some [bet_for s inputs name] else None)
          /\ (forall name : string,
                dict_get (bankrolls s') name
                = (fun b =>
                     b - (if bool_decide (name ∈ player_names s)
                             && (0 <? bet_for s inputs name)
                          then bet_for s inputs name else 0))
                    <$> dict_get (bankrolls s) name)
          /\ (forall (name : string) (b : Z),
                dict_get (bankrolls s) name = Some b ->
                b < MIN_BET ->
                dict_get (player_hands s') name = None))
    /\ (forall name : string,
          bet_for s inputs name
          = match dict_get (bankrolls s) name with
            | Some b => if b <? MIN_BET then 0 else inputs name
            | None => 0
            end).
Proof.
  intros Hr Hbet.
  destruct (reachable_wired s Hr) as (_ & _ & Hok).
  destruct (deal_cards_spec inputs s Hbet Hok) as (s' & Hrun & Hno & Hyes).
  exists s'. split; [exact Hrun|]. split; [|split].
  - intros Hnone. apply Hno.
    destruct (existsb _ (collect_bets s inputs)) eqn:Hq; [|reflexivity].
    apply qualifying_bet in Hq as (name & Hin & Hb).
    pose proof (Hnone name Hin). lia.
  - intros name0 Hin0 Hb0.
    assert (Hq : existsb (fun kv : string * Z => MIN_BET <=? kv.2)
                   (collect_bets s inputs) = true).
    { apply qualifying_bet. eauto. }
    destruct (Hyes Hq) as (Hbets & Hget & _ & Hflow & Hptr & _).
    destruct (collect_bets_spec s inputs) as (_ & Hnd & _ & Hlook & _).
    assert (Hseat : forall name,
               dict_get (bets_of (player_hands s')) name
               = if bool_decide (name ∈ player_names s)
                    && (0 <? bet_for s inputs name)
                 then Some [bet_for s inputs name] else None).
    { intros name. rewrite Hbets, dict_get_bets_of, (fresh_seats_get _ _ Hnd), Hlook.
      case_bool_decide; [|reflexivity]. simpl.
      destruct (0 <? bet_for s inputs name); reflexivity. }
    split.
    { unfold flow in Hflow. injection Hflow as Hgs Hbp Hra _ Hro _ _ _.
      unfold in_playing. rewrite Hgs, Hbp, Hra, Hro, (in_betting_started s Hbet).
      reflexivity. }
    split; [exact Hptr|]. split; [exact Hseat|]. split.
    { intros name. rewrite Hget, stake_of_collect. reflexivity. }
    intros name b Hb Hlt. specialize (Hseat name).
    rewrite dict_get_bets_of in Hseat.
    assert (Hz : bet_for s inputs name = 0).
    { unfold bet_for. rewrite Hb. simpl. apply Z.ltb_lt in Hlt. rewrite Hlt.
      reflexivity. }
    rewrite Hz, andb_false_r in Hseat.
    destruct (dict_get (player_hands s') name); [discriminate|reflexivity].
  - intros name. unfold bet_for. destruct (dict_get (bankrolls s) name); reflexivity.
Qed.

(** ** The shoe of every reachable state *)

Lemma card_count_cons x l c :
  card_count (x :: l) c
  = ((if decide (x = c) then 1%nat else 0%nat) + card_count l c)%nat.
Proof.
  unfold card_count. rewrite filter_cons. destruct (decide (x = c)); reflexivity.
Qed.

Lemma sum_card_count_cons x l cs :
  sum_list_with (card_count (x :: l)) cs
  = (sum_list_with (fun c => if decide (x = c) then 1%nat else 0%nat) cs
     + sum_list_with (card_count l) cs)%nat.
Proof.
  induction cs as [|c cs IH]; simpl; [reflexivity|].
  rewrite IH, card_count_cons. lia.
Qed.

Lemma sum_one_card x :
  sum_list_with (fun c : Card => if decide (x = c) then 1%nat else 0%nat) one_deck = 1%nat.
Proof. destruct x as [r u]. destruct r, u; reflexivity. Qed.

Lemma length_card_count l : length l = sum_list_with (card_count l) one_deck.
Proof.
  induction l as [|x l IH]; [reflexivity|].
  rewrite sum_card_count_cons, sum_one_card, <- IH. reflexivity.
Qed.

Lemma sum_list_with_bound {A : Type} (f : A -> nat) n cs :
  (forall c, f c <= n)%nat -> (sum_list_with f cs <= n * length cs)%nat.
Proof.
  intros Hf. induction cs as [|c cs IH]; simpl; [lia|]. specialize (Hf c). lia.
Qed.

(** The shoe of a session is always a six-deck shoe: it never holds a card
    more than six times, never more than 312 cards and, because it is
    rebuilt before it runs low, never fewer than 14. *)
Theorem shoe_stays_stocked (s : State) (d : Deck) :
  reachable shuffle s ->
  deck s = Some d ->
  num_decks d = 6%nat
  /\ (14 <= length (deck_cards d) <= 312)%nat
  /\ forall c : Card, (card_count (deck_cards d) c <= 6)%nat.
Proof.
  intros Hr Hd. destruct (reachable_wired s Hr) as (_ & _ & Hok).
  destruct (Hok d Hd) as (Hn & Hshoe & Hlen).
  assert (Hc : forall c, (card_count (deck_cards d) c <= 6)%nat).
  { intros c. rewrite <- Hn. apply Hshoe. }
  split; [exact Hn|]. split; [|exact Hc]. split; [exact Hlen|].
  rewrite length_card_count.
  pose proof (sum_list_with_bound (card_count (deck_cards d)) 6 one_deck Hc) as Hb.
  change (length one_deck) with 52%nat in Hb. lia.
Qed.

(** ** The results page and the settlement record *)

Lemma result_line_spec dh idx h :
  line_number (result_line dh (get_value dh) idx h) = (idx + 1)%nat
  /\ line_bet (result_line dh (get_value dh) idx h) = bet h
  /\ line_cards (result_line dh (get_value dh) idx h) = cards h
  /\ line_total (result_line dh (get_value dh) idx h) = get_value h
  /\ line_payout (result_line dh (get_value dh) idx h) = payout dh h
  /\ line_payout (result_line dh (get_value dh) idx h) = (round_result dh h).2
  /\ line_label (result_line dh (get_value dh) idx h)
     = label_of (round_result dh h).1.
Proof.
  unfold result_line, round_result, payout.
  destruct (is_bust h); [done|].
  destruct (is_blackjack h && negb (is_blackjack dh)); [done|].
  destruct (is_bust dh); [done|].
  destruct (get_value dh <? get_value h); [done|].
  destruct (get_value h =? get_value dh); done.
Qed.

Lemma map_imap_const {A B C : Type} (g : B -> C) (g' : A -> C) (l : list A) :
  forall f : nat -> A -> B,
    (forall i x, g (f i x) = g' x) -> map g (imap f l) = map g' l.
Proof.
  induction l as [|x l IH]; intros f Hf; simpl; [reflexivity|].
  f_equal; [apply Hf|]. apply IH. intros i y. apply Hf.
Qed.

Lemma Forall2_imap {A B : Type} (P : A -> B -> Prop) (l : list A) :
  forall f : nat -> A -> B,
    (forall i x, P x (f i x)) -> Forall2 P l (imap f l).
Proof.
  induction l as [|x l IH]; intros f Hf; simpl; constructor; [apply Hf|].
  apply IH. intros i y. apply Hf.
Qed.

Lemma Forall2_imap_both {A B C : Type} (P : B -> C -> Prop) (l : list A) :
  forall (f : nat -> A -> B) (g : nat -> A -> C),
    (forall i x, P (f i x) (g i x)) -> Forall2 P (imap f l) (imap g l).
Proof.
  induction l as [|x l IH]; intros f g Hfg; simpl; constructor; [apply Hfg|].
  apply IH. intros i y. apply Hfg.
Qed.

Lemma Forall2_flat_map {A B C D : Type} (P : C -> D -> Prop)
    (g : A -> list C) (h : B -> list D) (l : list A) (k : list B) :
  Forall2 (fun x y => Forall2 P (g x) (h y)) l k ->
  Forall2 P (flat_map g l) (flat_map h k).
Proof.
  induction 1 as [|x y l k Hxy _ IH]; simpl; [constructor|].
  apply Forall2_app; assumption.
Qed.

Lemma listed_payout_lines dh name hands b :
  listed_payout (mkResultCard name (imap (result_line dh (get_value dh)) hands) b)
  = hands_payout dh hands.
Proof.
  unfold listed_payout, hands_payout. simpl. f_equal.
  apply map_imap_const. intros i h. apply result_line_spec.
Qed.

Lemma results_page_inv s dcards dv page :
  results_page s = Some (dcards, dv, page) ->
  exists dh,
    dealer_hand s = Some dh /\ dcards = cards dh /\ dv = get_value dh
    /\ Forall2
         (fun (kv : string * list Hand) (card : ResultCard) =>
            card_player card = kv.1
            /\ card_lines card = imap (result_line dh (get_value dh)) kv.2
            /\ dict_get (bankrolls s) kv.1 = Some (card_bankroll card))
         (player_hands s) page.
Proof.
  unfold results_page. destruct (dealer_hand s) as [dh|]; [|discriminate]. simpl.
  destruct (mapM _ (player_hands s)) as [pg|] eqn:Hm; [|discriminate]. simpl.
  intros [= <- <- <-]. exists dh. do 3 (split; [reflexivity|]).
  apply mapM_Some_1 in Hm. eapply Forall2_impl; [exact Hm|].
  intros [name hands] card. simpl.
  destruct (dict_get (bankrolls s) name) as [b|]; [|discriminate]. simpl.
  intros [= <-]. done.
Qed.

Lemma results_page_total s dh :
  dealer_hand s = Some dh ->
  keys_ok s ->
  exists page, results_page s = Some (cards dh, get_value dh, page).
Proof.
  intros Hdh [_ Hkeys]. unfold results_page. rewrite Hdh. simpl.
  match goal with |- context [mapM ?f ?l] => destruct (mapM_is_Some_2 f l) as [pg Hm] end.
  - apply Forall_forall. intros [name hands] Hin. simpl.
    destruct (Hkeys name) as [b Hb].
    { apply is_Some_dict_get. apply (list_elem_of_fmap_2 fst _ _ Hin). }
    rewrite Hb. simpl. eauto.
  - rewrite Hm. simpl. eauto.
Qed.

(** The results page adds up.  After Reveal Dealer has ended a round, the
    page lists every hand of every seated player with the payout that the
    settlement has credited for it and with the label of its result, and the
    new bankroll it shows for a player is the bankroll from before the
    reveal plus the payouts listed on that player's card. *)
Theorem results_page_adds_up (s s' : State) :
  reachable shuffle s ->
  in_playing s = true ->
  reveal_dealer shuffle s = Some s' ->
  s' <> s ->
  exists (dh : Hand) (page : list ResultCard),
    dealer_hand s' = Some dh
    /\ in_results s' = true
    /\ results_page s' = Some (cards dh, get_value dh, page)
    /\ Forall2
         (fun (kv : string * list Hand) (card : ResultCard) =>
            card_player card = kv.1
            /\ Forall2
                 (fun (h : Hand) (line : ResultLine) =>
                    line_bet line = bet h
                    /\ line_cards line = cards h
                    /\ line_total line = get_value h
                    /\ line_payout line = payout dh h
                    /\ line_label line = label_of (round_result dh h).1)
                 kv.2 (card_lines card)
            /\ exists b : Z,
                 dict_get (bankrolls s) kv.1 = Some b
                 /\ card_bankroll card = b + listed_payout card)
         (player_hands s) page.
Proof.
  intros Hr Hin Hrev Hne.
  destruct (reachable_sound s Hr) as (Hw & Hok & (_ & Hpa & _)).
  unfold reveal_dealer in Hrev. rewrite Hin in Hrev. simpl in Hrev.
  destruct (current s) as [[name h]|]; [|congruence].
  destruct (dict_get (bankrolls s) name); [|discriminate]. simpl in Hrev.
  destruct (all_done s h); [|congruence].
  destruct (wired_playing s Hw Hin) as (dh & d & Hdh & Hd & Hdk).
  pose proof Hw as (Hkeys & _).
  destruct (reveal_dealer_body_spec s dh d Hdh Hd Hdk Hkeys)
    as (s0 & dh' & Hrun & Hdh' & _ & Hph & Hpay & Hbk & Hflow & _).
  rewrite Hrun in Hrev. injection Hrev as ->.
  assert (Hro : round_over s = false).
  { unfold in_playing in Hin. destruct (round_over s); [|reflexivity].
    rewrite andb_false_r in Hin. done. }
  rewrite Hpa, Hro in Hpay.
  assert (Hk' : keys_ok s').
  { revert Hkeys. apply keys_ok_same; congruence. }
  destruct (results_page_total s' dh' Hdh' Hk') as [page Hpage].
  exists dh', page. split; [exact Hdh'|]. split.
  { unfold flow in Hflow. injection Hflow as Hgs Hbp Hra _ Hro' _ _ _.
    unfold in_results. rewrite Hgs, Hbp, Hra, Hro'. unfold in_playing in Hin.
    destruct (game_started s), (betting_phase s), (round_active s); done. }
  split; [exact Hpage|].
  destruct (results_page_inv s' _ _ _ Hpage) as (dh0 & Hdh0 & _ & _ & Hall).
  rewrite Hdh' in Hdh0. injection Hdh0 as <-. rewrite Hph in Hall.
  destruct Hkeys as [Hnd Hsome].
  assert (Hin_get : forall kv : string * list Hand,
             kv ∈ player_hands s -> dict_get (player_hands s) kv.1 = Some kv.2).
  { clear -Hnd. induction (player_hands s) as [|[k v] ph IH]; intros kv Hin;
      [inversion Hin|].
    simpl in Hnd. apply NoDup_cons in Hnd as [Hk Hnd]. simpl.
    apply elem_of_cons in Hin as [->|Hin].
    - simpl. rewrite bool_decide_eq_true_2; reflexivity.
    - rewrite bool_decide_eq_false_2; [apply IH; assumption|].
      intros ->. apply Hk. apply (list_elem_of_fmap_2 fst _ _ Hin). }
  apply Forall2_same_length_lookup_2; [apply (Forall2_length _ _ _ Hall)|].
  intros i [n hands] card Hl1 Hl2.
  destruct (Forall2_lookup_lr _ _ _ _ _ _ Hall Hl1 Hl2) as (Hn & Hlines & Hb).
  simpl in *. split; [exact Hn|]. split.
  { rewrite Hlines. apply Forall2_imap. intros j x.
    pose proof (result_line_spec dh' j x) as (_ & ? & ? & ? & ? & _ & ?). done. }
  pose proof (Hin_get (n, hands) (list_elem_of_lookup_2 _ _ _ Hl1)) as Hg.
  simpl in Hg.
  rewrite (pay_players_spec dh' _ _ _ Hnd Hpay n), Hg in Hb.
  destruct (dict_get (bankrolls s) n) as [b|]; [|discriminate].
  simpl in Hb. injection Hb as Hb. exists b. split; [reflexivity|].
  rewrite <- Hb. f_equal. destruct card as [p lines bk]. simpl in *. subst lines.
  symmetry. apply listed_payout_lines.
Qed.

(** The settlement record and the results page tell the same story: hand
    by hand, in the same order, a saved row carries the bet, the total, the
    payout and the dealer total that the page shows, its result code is the
    one the page's label stands for, its hand index is one less than the
    number on the page, and the final bankroll of the row is the new
    bankroll on the player's card. *)
Theorem saved_rows_match_page
    (s : State) (rows : list Row) (dcards : list Card) (dv : Z)
    (page : list ResultCard) :
  round_rows s = Some rows ->
  results_page s = Some (dcards, dv, page) ->
  Forall2
    (fun (row : Row) (line : ResultLine) =>
       row_bet row = line_bet line
       /\ row_player_value row = line_total line
       /\ row_payout row = line_payout line
       /\ label_of (row_result row) = line_label line
       /\ S (row_hand_index row) = line_number line
       /\ row_dealer_value row = dv)
    rows (flat_map card_lines page)
  /\ length rows = length (flat_map snd (player_hands s))
  /\ forall (row : Row) (card : ResultCard),
       row ∈ rows -> card ∈ page ->
       row_player_name row = card_player card ->
       row_final_bankroll row = Some (card_bankroll card).
Proof.
  intros Hrows Hpage.
  destruct (results_page_inv s _ _ _ Hpage) as (dh & Hdh & -> & -> & Hall).
  unfold round_rows in Hrows. rewrite Hdh in Hrows. simpl in Hrows.
  injection Hrows as <-. split; [|split].
  - apply Forall2_flat_map.
    apply Forall2_same_length_lookup_2; [apply (Forall2_length _ _ _ Hall)|].
    intros i [n hands] card Hl1 Hl2.
    destruct (Forall2_lookup_lr _ _ _ _ _ _ Hall Hl1 Hl2) as (_ & -> & _).
    simpl. apply Forall2_imap_both. intros j h. unfold hand_row. simpl.
    pose proof (result_line_spec dh j h) as (-> & -> & _ & -> & _ & -> & ->).
    repeat split; try reflexivity. lia.
  - clear. induction (player_hands s) as [|[n hands] ph IH]; [reflexivity|].
    simpl. rewrite !length_app, IH. f_equal.
    generalize (hand_row (bankrolls s) dh n). clear.
    induction hands as [|h hands IH]; intros f; simpl; [reflexivity|].
    f_equal. apply IH.
  - intros row card Hrow Hcard Hname.
    apply list_elem_of_lookup_1 in Hcard as [i Hi].
    destruct (Forall2_lookup_r _ _ _ _ _ Hall Hi) as ([n hands] & _ & Hn & _ & Hb).
    cbn in Hn, Hb. rewrite <- Hb, <- Hn, <- Hname.
    apply list_elem_of_In, in_flat_map in Hrow as ([n' hands'] & _ & Hrow).
    simpl in Hrow. apply list_elem_of_In in Hrow.
    assert (Hgen : forall f : nat -> Hand -> Row,
               (forall j h, row_final_bankroll (f j h)
                            = dict_get (bankrolls s) (row_player_name (f j h))) ->
               row ∈ imap f hands' ->
               row_final_bankroll row
               = dict_get (bankrolls s) (row_player_name row)).
    { clear. induction hands' as [|h hands IH]; intros f Hall Hin;
        [inversion Hin|].
      simpl in Hin. apply elem_of_cons in Hin as [->|Hin]; [apply Hall|].
      apply (IH (f ∘ S)); [intros j x; apply Hall|exact Hin]. }
    apply (Hgen (hand_row (bankrolls s) dh n')); [|exact Hrow].
    intros j h. reflexivity.
Qed.

(** ** Rendering *)

Lemma faces_NoDup :
  NoDup (map (fun c : Card => display_card (rank_str c.1) (suit_str c.2) false)
           one_deck).
Proof. apply (bool_decide_unpack _). vm_compute. exact I. Qed.

Lemma one_deck_complete c : c ∈ one_deck.
Proof.
  destruct c as [r u]. apply list_elem_of_In.
  destruct r, u; vm_compute; tauto.
Qed.

Lemma handle_hole_ok a s s' :
  wired s -> hole_ok s -> handle shuffle a s = Some s' -> hole_ok s'.
Proof.
  intros Hw Hh Hstep.
  destruct (playing_action a) eqn:Ha.
  { destruct (play_frame a s s' Ha Hstep) as (Hflow & Hdh & _).
    unfold flow in Hflow. injection Hflow as _ _ Hra _ Hro _ _ _.
    unfold hole_ok. rewrite Hra, Hro, Hdh. exact Hh. }
  assert (Hidle : forall t : State, round_active t = false -> hole_ok t).
  { intros t Ht Hact. congruence. }
  destruct a; try discriminate; simpl in Hstep.
  - unfold open_table in Hstep. destruct (game_started s) eqn:Hgs.
    { injection Hstep as <-. exact Hh. }
    destruct Hw as (_ & (H1 & _) & _).
    destruct (Deck_new shuffle (rng s)) as [d g]. injection Hstep as <-.
    apply Hidle. simpl. auto.
  - destruct (in_betting s) eqn:Hbet.
    2:{ unfold deal_cards in Hstep. rewrite Hbet in Hstep. simpl in Hstep.
        injection Hstep as <-. exact Hh. }
    pose proof Hw as (_ & _ & Hok).
    destruct (deal_cards_spec inputs s Hbet Hok) as (s0 & Hrun & Hno & Hyes).
    rewrite Hrun in Hstep. injection Hstep as ->.
    destruct (existsb _ (collect_bets s inputs)) eqn:Hq;
      [|rewrite (Hno eq_refl); exact Hh].
    destruct (Hyes eq_refl) as (_ & _ & _ & _ & _ & _ & _ & _ & c1 & c2 & Hdh).
    intros _ _. exists (add_card (add_card Hand_new c1) c2), c1, c2.
    split; [exact Hdh|]. rewrite !cards_add_card. reflexivity.
  - unfold reveal_dealer in Hstep. destruct (in_playing s) eqn:Hin; simpl in Hstep.
    2:{ injection Hstep as <-. exact Hh. }
    destruct (current s) as [[name h]|]; [|injection Hstep as <-; exact Hh].
    destruct (dict_get (bankrolls s) name); [|discriminate]. simpl in Hstep.
    destruct (all_done s h); [|injection Hstep as <-; exact Hh].
    destruct (wired_playing s Hw Hin) as (dh & d & Hdh & Hd & Hok).
    pose proof Hw as (Hkeys & _).
    destruct (reveal_dealer_body_spec s dh d Hdh Hd Hok Hkeys)
      as (s0 & dh' & Hrun & _ & _ & _ & _ & _ & Hflow & _).
    rewrite Hrun in Hstep. injection Hstep as <-.
    unfold flow in Hflow. injection Hflow as _ _ _ _ Hro _ _ _.
    intros _ Hover. congruence.
  - unfold next_round in Hstep. destruct (negb (in_results s));
      injection Hstep as <-; [exact Hh|]. apply Hidle. reflexivity.
  - unfold save_and_next_round in Hstep.
    destruct (negb (in_results s)); [injection Hstep as <-; exact Hh|].
    destruct (if client then _ else _); [|discriminate]. simpl in Hstep.
    injection Hstep as <-. apply Hidle. reflexivity.
  - injection Hstep as <-. apply Hidle. reflexivity.
Qed.

Lemma reachable_hole_ok s : reachable shuffle s -> hole_ok s.
Proof.
  induction 1 as [g|s a s' Hr IH Hstep]; [intros [=]|].
  exact (handle_hole_ok a s s' (reachable_wired s Hr) IH Hstep).
Qed.

(** While a round is played the dealer holds exactly two cards and the
    second one stays hidden: the dealer area shows the first card face up,
    one card face down and the rank of the first card, and it shows the
    same whatever the second card is. *)
Theorem hole_card_stays_hidden (s : State) :
  reachable shuffle s ->
  in_playing s = true ->
  exists (dh : Hand) (c1 c2 : Card),
    dealer_hand s = Some dh
    /\ cards dh = [c1; c2]
    /\ dealer_area s
       = Some (DealerShowing
                 (display_card (rank_str c1.1) (suit_str c1.2) false
                  ++ display_card EmptyString EmptyString true)%string
                 (rank_str c1.1))
    /\ forall c : Card,
         dealer_area (set_dealer_hand s (Some (set_cards dh [c1; c])))
         = dealer_area s.
Proof.
  intros Hr Hin.
  destruct (reachable_sound s Hr) as (Hw & _ & (Hdt & _)).
  assert (Hro : round_over s = false).
  { unfold in_playing in Hin. destruct (round_over s); [|reflexivity].
    rewrite andb_false_r in Hin. done. }
  destruct (reachable_hole_ok s Hr (in_playing_active s Hin) Hro)
    as (dh & c1 & c2 & Hdh & Hc).
  rewrite Hro in Hdt.
  exists dh, c1, c2. split; [exact Hdh|]. split; [exact Hc|].
  unfold dealer_area. rewrite Hdh. simpl. rewrite Hdt, Hc.
  split; reflexivity.
Qed.

(** Cards that differ are drawn differently, and no card drawn face up
    looks like a face-down card. *)
Theorem card_faces_distinct :
  (forall c1 c2 : Card,
     display_card (rank_str c1.1) (suit_str c1.2) false
     = display_card (rank_str c2.1) (suit_str c2.2) false ->
     c1 = c2)
  /\ (forall (c : Card) (rank suit : string),
        display_card (rank_str c.1) (suit_str c.2) false
        <> display_card rank suit true).
Proof.
  split.
  - intros c1 c2 Heq.
    destruct (list_elem_of_lookup_1 _ _ (one_deck_complete c1)) as [i Hi].
    destruct (list_elem_of_lookup_1 _ _ (one_deck_complete c2)) as [j Hj].
    assert (Hij : i = j).
    { apply (NoDup_lookup _ i j
               (display_card (rank_str c1.1) (suit_str c1.2) false) faces_NoDup).
      - change (map ?f ?l) with (f <$> l). rewrite list_lookup_fmap, Hi. reflexivity.
      - change (map ?f ?l) with (f <$> l). rewrite list_lookup_fmap, Hj.
        cbn [fmap option_fmap option_map]. f_equal. symmetry. exact Heq. }
    subst j. congruence.
  - intros [r u] rank suit. destruct r, u; vm_compute; discriminate.
Qed.

(** ** Opening the table, and a seat without a name *)

(** Open Table on a closed table gives every name that was typed in a
    bankroll of 1000 chips, one entry per name however often it was typed,
    shuffles a fresh six-deck shoe of 312 cards and leaves an empty table in
    the betting phase.  On a table that is already open it does nothing. *)
Theorem open_table_stakes (n : nat) (names : list string) (s : State) :
  exists s' : State,
    open_table shuffle n names s = Some s'
    /\ (game_started s = true -> s' = s)
    /\ (game_started s = false ->
        (forall name : string,
           dict_get (bankrolls s') name
           = if bool_decide (name ∈ names) then Some STARTING_CHIPS else None)
        /\ NoDup (dict_keys (bankrolls s'))
        /\ player_names s' = names
        /\ num_players s' = n
        /\ player_hands s' = []
        /\ dealer_hand s' = None
        /\ game_started s' = true
        /\ betting_phase s' = true
        /\ pointer s' = (0%nat, 0%nat)
        /\ exists d : Deck,
             deck s' = Some d
             /\ num_decks d = 6%nat
             /\ length (deck_cards d) = 312%nat
             /\ forall c : Card, card_count (deck_cards d) c = 6%nat).
Proof.
  unfold open_table. destruct (game_started s).
  { exists s. split; [reflexivity|]. split; [reflexivity|discriminate]. }
  eexists. split; [reflexivity|]. split; [discriminate|]. intros _. simpl.
  split; [intros name; apply (build_get (fun _ => STARTING_CHIPS) names [] name)|].
  split; [apply (build_NoDup (fun _ => STARTING_CHIPS)); constructor|].
  do 7 (split; [reflexivity|]).
  eexists. split; [reflexivity|]. simpl. split; [reflexivity|].
  split.
  - rewrite (Permutation_length (shuffle_perm (rng s) (unshuffled 6))).
    apply length_unshuffled.
  - intros c. rewrite (card_count_perm _ _ c (shuffle_perm (rng s) (unshuffled 6))).
    apply card_count_unshuffled.
Qed.

(** A seat without a name blocks the round.  When, during play, the turn
    is on a player whose name is the empty string, the control panel shows
    no hand, and every button except Restart Table leaves the session
    exactly as it is. *)
Theorem empty_name_blocks_round (s : State) (a : Action) :
  in_playing s = true ->
  dict_keys (player_hands s) !! current_player_idx s = Some EmptyString ->
  a <> ActRestart ->
  current s = None /\ handle shuffle a s = Some s.
Proof.
  intros Hin Hk Ha.
  assert (Hcur : current s = None).
  { unfold current. destruct (dealer_turn s); [reflexivity|]. rewrite Hk. simpl.
    destruct (dict_get (player_hands s) EmptyString) as [hands|]; [|reflexivity].
    simpl. destruct (hands !! current_hand_idx s); reflexivity. }
  split; [exact Hcur|].
  assert (Hbet : in_betting s = false).
  { unfold in_betting. rewrite (in_playing_active s Hin).
    apply andb_false_r. }
  assert (Hres : in_results s = false).
  { unfold in_playing in Hin. unfold in_results.
    destruct (game_started s), (betting_phase s), (round_active s), (round_over s);
      done. }
  assert (Hgs : game_started s = true).
  { unfold in_playing in Hin. destruct (game_started s); done. }
  destruct a; simpl.
  - unfold open_table. rewrite Hgs. reflexivity.
  - unfold deal_cards. rewrite Hbet. reflexivity.
  - unfold hit. rewrite Hin, Hcur. reflexivity.
  - unfold stand. rewrite Hin, Hcur. reflexivity.
  - unfold double. rewrite Hin, Hcur. reflexivity.
  - unfold split. rewrite Hin, Hcur. reflexivity.
  - unfold previous_hand. rewrite Hin, Hcur. reflexivity.
  - unfold next_hand. rewrite Hin, Hcur. reflexivity.
  - unfold reveal_dealer. rewrite Hin, Hcur. reflexivity.
  - unfold next_round. rewrite Hres. reflexivity.
  - unfold save_and_next_round. rewrite Hres. reflexivity.
  - done.
Qed.

(** ** The bets on the table *)

Lemma stakes_ok_same s s' : player_hands s' = player_hands s -> stakes_ok s -> stakes_ok s'.
Proof. unfold stakes_ok. intros ->. done. Qed.

Lemma stakes_ok_set s s' name hands :
  player_hands s' = dict_set (player_hands s) name hands ->
  Forall (fun h => MIN_BET <= bet h) hands ->
  stakes_ok s -> stakes_ok s'.
Proof.
  unfold stakes_ok. intros -> Hh Hs.
  apply (Forall_dict_set (Forall (fun h => MIN_BET <= bet h)) _ _ _ Hs Hh).
Qed.

Lemma stakes_ok_bets s :
  Forall (fun kv : string * list Z => Forall (fun b => MIN_BET <= b) kv.2)
    (bets_of (player_hands s)) ->
  stakes_ok s.
Proof.
  unfold stakes_ok, bets_of. rewrite Forall_fmap. intros H.
  eapply Forall_impl; [exact H|].
  intros [name hands]. simpl. rewrite Forall_fmap. done.
Qed.

Lemma play_stakes_ok a s s' :
  playing_action a = true ->
  stakes_ok s -> handle shuffle a s = Some s' -> stakes_ok s'.
Proof.
  destruct a; try discriminate; intros _ Hs; simpl.
  - intros [->|(name & h & hands & c & d & d' & g' & _ & _ & Hg & Hl & _ & _ & _ & _
                & ->)]%hit_inv; [done|].
    pose proof (Forall_dict_get (Forall (fun h => MIN_BET <= bet h)) _ _ _ Hs Hg)
      as Hall.
    revert Hs. apply (stakes_ok_set s _ name (<[current_hand_idx s := add_card h c]> hands));
      [reflexivity|].
    apply Forall_insert; [exact Hall|]. rewrite bet_add_card.
    apply (Forall_lookup_1 _ _ _ _ Hall Hl).
  - intros [[-> _]|(name & h & hands & _ & _ & Hg & Hl & _ & _ & ->)]%stand_inv;
      [done|].
    pose proof (Forall_dict_get (Forall (fun h => MIN_BET <= bet h)) _ _ _ Hs Hg)
      as Hall.
    revert Hs.
    apply (stakes_ok_set s _ name (<[current_hand_idx s := set_standing h true]> hands));
      [reflexivity|].
    apply Forall_insert; [exact Hall|]. simpl.
    apply (Forall_lookup_1 _ _ _ _ Hall Hl).
  - intros [->|(name & h & hands & bank & c & d & d' & g' & _ & _ & Hg & Hl & _
                & _ & _ & _ & ->)]%double_inv; [done|].
    pose proof (Forall_dict_get (Forall (fun h => MIN_BET <= bet h)) _ _ _ Hs Hg)
      as Hall.
    revert Hs.
    apply (stakes_ok_set s _ name (<[current_hand_idx s := doubled_hand h c]> hands));
      [reflexivity|].
    apply Forall_insert; [exact Hall|]. rewrite bet_doubled_hand.
    pose proof (Forall_lookup_1 _ _ _ _ Hall Hl) as Hb. simpl in Hb.
    unfold MIN_BET in *. lia.
  - intros [->|(name & h & hands & bank & c1 & c2 & k1 & k2 & d & d1 & g1 & d2 & g2
                & _ & _ & Hg & Hl & _ & _ & _ & _ & _ & _ & ->)]%split_inv; [done|].
    pose proof (Forall_dict_get (Forall (fun h => MIN_BET <= bet h)) _ _ _ Hs Hg)
      as Hall.
    pose proof (Forall_lookup_1 _ _ _ _ Hall Hl) as Hb. simpl in Hb.
    revert Hs. eapply (stakes_ok_set s _ name); [reflexivity|].
    apply Forall_app. split; [apply Forall_take, Hall|].
    apply Forall_app. split; [|apply Forall_drop, Hall].
    repeat constructor; simpl; rewrite ?bet_split_kept, ?bet_split_new; exact Hb.
  - intros Hprev. destruct (in_playing s) eqn:Hin.
    + apply previous_hand_cases in Hprev
        as [->|[[_ ->]|(_ & _ & prev & hands & _ & _ & ->)]]; done.
    + unfold previous_hand in Hprev. rewrite Hin in Hprev. simpl in Hprev.
      injection Hprev as <-. done.
  - intros [->|(name & h & hands & _ & _ & _ & _ & _ & [[_ ->]|(_ & _ & ->)])]
      %next_hand_cases; done.
Qed.

Lemma deal_cards_stakes_ok inputs s s' :
  wired s -> stakes_ok s -> within_limits s inputs ->
  deal_cards shuffle inputs s = Some s' -> stakes_ok s'.
Proof.
  intros Hw Hs Hlim Hdeal. destruct (in_betting s) eqn:Hbet.
  2:{ unfold deal_cards in Hdeal. rewrite Hbet in Hdeal. simpl in Hdeal.
      injection Hdeal as <-. exact Hs. }
  pose proof Hw as (_ & _ & Hok).
  destruct (deal_cards_spec inputs s Hbet Hok) as (s0 & Hrun & Hno & Hyes).
  rewrite Hrun in Hdeal. injection Hdeal as ->.
  destruct (existsb _ (collect_bets s inputs)) eqn:Hq;
    [|rewrite (Hno eq_refl); exact Hs].
  destruct (Hyes eq_refl) as (Hbets & _).
  destruct (collect_bets_spec s inputs) as (_ & _ & Hent & _ & _).
  apply stakes_ok_bets. rewrite Hbets. unfold bets_of, fresh_seats.
  rewrite !Forall_fmap. apply Forall_forall. intros [name b] Hin. simpl.
  apply list_elem_of_filter in Hin as [Hpos Hin]. simpl in Hpos.
  pose proof (proj1 (Forall_forall _ _) Hent _ Hin) as Hb. simpl in Hb. subst b.
  destruct (bet_for_positive s inputs name Hpos) as (b0 & Hb0 & Hmin & Heq).
  constructor; [|constructor]. simpl. rewrite Heq.
  apply (Hlim name b0 Hb0 Hmin).
Qed.

Lemma handle_stakes_ok a s s' :
  wired s -> stakes_ok s ->
  (forall inputs, a = ActDeal inputs -> within_limits s inputs) ->
  handle shuffle a s = Some s' -> stakes_ok s'.
Proof.
  intros Hw Hs Hlim Hstep.
  destruct (playing_action a) eqn:Ha; [exact (play_stakes_ok a s s' Ha Hs Hstep)|].
  assert (Hempty : forall t : State, player_hands t = [] -> stakes_ok t).
  { intros t Ht. unfold stakes_ok. rewrite Ht. constructor. }
  destruct a; try discriminate; simpl in Hstep.
  - unfold open_table in Hstep. destruct (game_started s); [injection Hstep as <-; exact Hs|].
    destruct (Deck_new shuffle (rng s)) as [d g]. injection Hstep as <-.
    apply Hempty. reflexivity.
  - exact (deal_cards_stakes_ok inputs s s' Hw Hs (Hlim inputs eq_refl) Hstep).
  - unfold reveal_dealer in Hstep. destruct (in_playing s) eqn:Hin; simpl in Hstep.
    2:{ injection Hstep as <-. exact Hs. }
    destruct (current s) as [[name h]|]; [|injection Hstep as <-; exact Hs].
    destruct (dict_get (bankrolls s) name); [|discriminate]. simpl in Hstep.
    destruct (all_done s h); [|injection Hstep as <-; exact Hs].
    destruct (wired_playing s Hw Hin) as (dh & d & Hdh & Hd & Hok).
    pose proof Hw as (Hkeys & _).
    destruct (reveal_dealer_body_spec s dh d Hdh Hd Hok Hkeys)
      as (s0 & dh' & Hrun & _ & _ & Hph & _).
    rewrite Hrun in Hstep. injection Hstep as <-.
    revert Hs. apply stakes_ok_same. exact Hph.
  - unfold next_round in Hstep. destruct (negb (in_results s));
      injection Hstep as <-; [exact Hs|]. apply Hempty. reflexivity.
  - unfold save_and_next_round in Hstep.
    destruct (negb (in_results s)); [injection Hstep as <-; exact Hs|].
    destruct (if client then _ else _); [|discriminate]. simpl in Hstep.
    injection Hstep as <-. apply Hempty. reflexivity.
  - injection Hstep as <-. apply Hempty. reflexivity.
Qed.

(** No hand is ever played for less than the minimum bet: as long as every
    bet that is typed in respects the bounds of the bet input, every hand of
    every state the session reaches carries a bet of at least [MIN_BET],
    also after doubling and splitting. *)
Theorem bets_at_least_minimum
    (s : State) (name : string) (hands : list Hand) (h : Hand) :
  played shuffle s ->
  dict_get (player_hands s) name = Some hands ->
  h ∈ hands ->
  MIN_BET <= bet h.
Proof.
  intros Hp Hg Hin.
  assert (Hs : stakes_ok s).
  { clear Hg Hin. induction Hp as [g|s a s' Hp IH Hlim Hstep]; [constructor|].
    exact (handle_stakes_ok a s s'
             (reachable_wired s (played_reachable s Hp)) IH Hlim Hstep). }
  pose proof (Forall_dict_get (Forall (fun h => MIN_BET <= bet h)) _ _ _ Hs Hg)
    as Hall.
  exact (proj1 (Forall_forall _ _) Hall h Hin).
Qed.

End TableExtras.

(** * Worked examples of the further properties *)

Lemma run_None shuffle acts :
  fold_left (fun os a => s0 ← os; handle shuffle a s0) acts None = None.
Proof. induction acts as [|a acts IH]; [reflexivity|exact IH]. Qed.

Lemma reachable_run shuffle acts :
  forall s s',
    reachable shuffle s -> run shuffle acts s = Some s' -> reachable shuffle s'.
Proof.
  unfold run. induction acts as [|a acts IH]; intros s s' Hr; simpl.
  - intros [= <-]. exact Hr.
  - destruct (handle shuffle a s) as [s1|] eqn:Hstep.
    + apply IH. exact (reachable_step shuffle s a s1 Hr Hstep).
    + rewrite run_None. discriminate.
Qed.

Lemma reachable_after n : reachable keep_order (after_clicks n).
Proof.
  unfold after_clicks.
  destruct (run keep_order (take n round_clicks) (initial_state 0)) as [s|] eqn:E;
    simpl; [|constructor].
  exact (reachable_run keep_order _ _ _ (reachable_init keep_order 0) E).
Qed.

Lemma within_limits_intro s inputs :
  Forall (fun kv : string * Z => MIN_BET <= kv.2 -> MIN_BET <= inputs kv.1 <= kv.2)
    (bankrolls s) ->
  within_limits s inputs.
Proof.
  intros Hall name b Hb. exact (Forall_dict_entry _ _ _ _ Hall Hb).
Qed.

Lemma played_two_dealt : played keep_order two_dealt.
Proof.
  apply (played_step keep_order opened_table (ActDeal bets_100) two_dealt).
  - apply (played_step keep_order (initial_state 0)
             (ActOpenTable 2 ["Ann"%string; "Bob"%string]) opened_table).
    + constructor.
    + intros inputs [=].
    + vm_compute. reflexivity.
  - intros inputs [= <-]. apply within_limits_intro.
    change (bankrolls opened_table)
      with [("Ann"%string, 1000); ("Bob"%string, 1000)].
    repeat constructor; simpl; unfold bets_100, MIN_BET; lia.
  - vm_compute. reflexivity.
Qed.

Ltac is_some := eexists; vm_compute; reflexivity.

Lemma fresh_shoe_witness :
  length (deck_cards (Deck_build keep_order 6 0).1) = 312%nat
  /\ shoe_ok (Deck_build keep_order 6 0).1.
Proof.
  destruct (fresh_shoe keep_order keep_order_perm 6 0) as (_ & Hlen & _ & Hok & _).
  split; [exact Hlen|exact Hok].
Defined.

Lemma deal_keeps_shoe_witness :
  exists (c : Card) (d' : Deck) (g' : nat),
    Deck_deal keep_order single_deck 0 = Some (c, d', g')
    /\ num_decks d' = 1%nat
    /\ shoe_ok d'.
Proof.
  destruct (deal_keeps_shoe keep_order keep_order_perm single_deck 0)
    as (c & d' & g' & Hdeal & Hn & _ & Hok & _).
  - vm_compute. lia.
  - intros c. change (card_count (unshuffled 1) c <= 1)%nat.
    rewrite card_count_unshuffled. lia.
  - exists c, d', g'. split; [exact Hdeal|]. split; [exact Hn|exact Hok].
Defined.

Lemma deal_fails_only_without_decks_witness :
  Deck_deal keep_order (mkDeck 0 []) 0 = None.
Proof.
  apply (deal_fails_only_without_decks keep_order keep_order_perm (mkDeck 0 []) 0).
  split; [reflexivity|simpl; lia].
Defined.

Lemma next_hand_moves_pointer_witness :
  next_hand ann_stood = Some bob_turn
  /\ current ann_stood = Some ("Ann"%string, set_standing ann_hand true)
  /\ bob_turn = set_current_hand_idx (set_current_player_idx ann_stood 1) 0
  /\ dealer_turn bob_turn = dealer_turn ann_stood
  /\ (pointer_ok ann_stood -> pointer_ok bob_turn).
Proof.
  destruct (next_hand_moves_pointer ann_stood bob_turn)
    as (_ & Hdt & _ & _ & _ & Hfin & _ & Hp); [run_it|].
  destruct (Hfin "Ann"%string (set_standing ann_hand true)
              [set_standing ann_hand true])
    as (_ & _ & _ & Hmove & _); [run_it..|].
  split; [run_it|]. split; [run_it|].
  split; [apply Hmove; vm_compute; lia|].
  split; [exact Hdt|]. apply Hp.
  change (player_hands ann_stood)
    with [("Ann"%string, [set_standing ann_hand true]); ("Bob"%string, [bob_hand])].
  repeat constructor; discriminate.
Defined.

Lemma previous_undoes_next_witness : previous_hand bob_turn = Some ann_stood.
Proof.
  apply (previous_undoes_next ann_stood bob_turn "Bob" bob_hand);
    [run_it|run_it|run_it|is_some].
Defined.

Lemma hit_draws_one_card_witness :
  exists (c : Card) (s_d s' : State),
    deck_deal keep_order two_dealt = Some (c, s_d)
    /\ hit keep_order two_dealt = Some s'
    /\ current s' = Some ("Ann"%string, add_card ann_hand c).
Proof.
  destruct (hit_draws_one_card keep_order keep_order_perm two_dealt "Ann" ann_hand
              [ann_hand] two_dealt_deck)
    as (c & s_d & s' & Hdeal & Hhit & Hcur & _);
    [run_it|run_it|run_it|is_some|run_it|run_it|vm_compute; lia|].
  exists c, s_d, s'. split; [exact Hdeal|]. split; [exact Hhit|exact Hcur].
Defined.

Lemma apply_payouts_credits_witness :
  payouts_applied paid_table = true
  /\ dict_keys (bankrolls paid_table) = dict_keys (bankrolls bob_stood).
Proof.
  destruct (apply_payouts_credits bob_stood paid_table final_dealer)
    as (_ & Hkeys & Hpaid & _); [|run_it|run_it|].
  - apply (bool_decide_unpack _). vm_compute. exact I.
  - split; [exact Hpaid|exact Hkeys].
Defined.

Lemma no_click_raises_witness :
  is_Some (handle keep_order (ActSaveNext true) round_done).
Proof.
  apply (no_click_raises keep_order keep_order_perm round_done (ActSaveNext true)).
  apply (reachable_after 6).
Defined.

Lemma one_phase_at_a_time_witness :
  dealer_turn two_dealt = false /\ payouts_applied two_dealt = false
  /\ is_Some (dealer_hand two_dealt) /\ is_Some (deck two_dealt).
Proof.
  destruct (one_phase_at_a_time keep_order keep_order_perm two_dealt)
    as (_ & _ & Hplay & _); [apply (reachable_after 2)|run_it|].
  apply Hplay. run_it.
Defined.

Lemma pointer_names_a_hand_witness :
  exists (name : string) (hands : list Hand) (h : Hand),
    dict_keys (player_hands two_dealt) !! current_player_idx two_dealt = Some name
    /\ dict_get (player_hands two_dealt) name = Some hands
    /\ hands !! current_hand_idx two_dealt = Some h
    /\ hand_ok h.
Proof.
  destruct (pointer_names_a_hand keep_order keep_order_perm two_dealt)
    as (name & hands & h & Hk & Hg & Hl & Hok & _);
    [apply (reachable_after 2)|run_it|].
  exists name, hands, h. auto.
Defined.

Lemma round_never_stuck_witness :
  exists s' : State,
    stand two_dealt = Some s'
    /\ current s' = Some ("Ann"%string, set_standing ann_hand true).
Proof.
  destruct (round_never_stuck keep_order keep_order_perm two_dealt "Ann" ann_hand)
    as (Hstand & _); [apply (reachable_after 2)|run_it|run_it|].
  destruct Hstand as (s' & Hs & Hcur & _); [run_it|].
  exists s'. split; [exact Hs|exact Hcur].
Defined.

Lemma chips_conserved_witness :
  chips ann_doubled "Ann"%string = chips two_dealt "Ann"%string
  /\ chips two_dealt "Ann"%string = 1000.
Proof.
  split; [|run_it].
  apply (chips_conserved keep_order keep_order_perm two_dealt ann_doubled ActDouble);
    [apply (reachable_after 2)|run_it|run_it].
Defined.

Lemma bankrolls_never_negative_witness :
  dict_get (bankrolls two_dealt) "Ann"%string = Some 900 /\ 0 <= 900.
Proof.
  assert (Hb : dict_get (bankrolls two_dealt) "Ann"%string = Some 900) by run_it.
  split; [exact Hb|].
  exact (bankrolls_never_negative keep_order keep_order_perm two_dealt "Ann" 900
           played_two_dealt Hb).
Defined.

Lemma deal_seats_bettors_witness :
  exists s' : State,
    deal_cards keep_order bets_100 opened_table = Some s'
    /\ in_playing s' = true
    /\ pointer s' = (0%nat, 0%nat).
Proof.
  destruct (deal_seats_bettors keep_order keep_order_perm bets_100 opened_table)
    as (s' & Hdeal & _ & Hseat & _); [apply (reachable_after 1)|run_it|].
  destruct (Hseat "Ann"%string) as (Hin & Hptr & _).
  - apply (bool_decide_unpack _). vm_compute. exact I.
  - vm_compute. discriminate.
  - exists s'. split; [exact Hdeal|]. split; [exact Hin|exact Hptr].
Defined.

Lemma shoe_stays_stocked_witness :
  num_decks two_dealt_deck = 6%nat
  /\ (14 <= length (deck_cards two_dealt_deck) <= 312)%nat.
Proof.
  destruct (shoe_stays_stocked keep_order keep_order_perm two_dealt two_dealt_deck)
    as (Hn & Hlen & _); [apply (reachable_after 2)|run_it|].
  split; [exact Hn|exact Hlen].
Defined.

Lemma results_page_adds_up_witness :
  exists (dh : Hand) (page : list ResultCard),
    dealer_hand round_done = Some dh
    /\ in_results round_done = true
    /\ results_page round_done = Some (cards dh, get_value dh, page).
Proof.
  destruct (results_page_adds_up keep_order keep_order_perm bob_stood round_done)
    as (dh & page & Hdh & Hres & Hpage & _);
    [apply (reachable_after 5)|run_it|run_it|run_it|].
  exists dh, page. split; [exact Hdh|]. split; [exact Hres|exact Hpage].
Defined.

Lemma saved_rows_match_page_witness :
  length done_rows = length (flat_map snd (player_hands round_done)).
Proof.
  destruct (saved_rows_match_page round_done done_rows (cards final_dealer) 18
              done_page) as (_ & Hlen & _); [run_it|run_it|exact Hlen].
Defined.

Lemma hole_card_stays_hidden_witness :
  exists (dh : Hand) (c1 c2 : Card),
    dealer_hand two_dealt = Some dh
    /\ cards dh = [c1; c2]
    /\ dealer_area two_dealt
       = Some (DealerShowing
                 (display_card (rank_str c1.1) (suit_str c1.2) false
                  ++ display_card EmptyString EmptyString true)%string
                 (rank_str c1.1)).
Proof.
  destruct (hole_card_stays_hidden keep_order keep_order_perm two_dealt)
    as (dh & c1 & c2 & Hdh & Hc & Harea & _); [apply (reachable_after 2)|run_it|].
  exists dh, c1, c2. split; [exact Hdh|]. split; [exact Hc|exact Harea].
Defined.

Lemma open_table_stakes_witness :
  exists s' : State,
    open_table keep_order 2 ["Ann"%string; "Bob"%string] (initial_state 0) = Some s'
    /\ dict_get (bankrolls s') "Bob"%string = Some STARTING_CHIPS
    /\ player_hands s' = [].
Proof.
  destruct (open_table_stakes keep_order keep_order_perm 2
              ["Ann"%string; "Bob"%string] (initial_state 0))
    as (s' & Hopen & _ & Hnew).
  destruct Hnew as (Hbank & _ & _ & _ & Hph & _); [reflexivity|].
  exists s'. split; [exact Hopen|]. split; [|exact Hph].
  rewrite Hbank. reflexivity.
Defined.

Lemma empty_name_blocks_round_witness :
  reachable keep_order nameless_table
  /\ current nameless_table = None
  /\ handle keep_order ActStand nameless_table = Some nameless_table.
Proof.
  split.
  - unfold nameless_table.
    destruct (run keep_order [ActOpenTable 1 [EmptyString]; ActDeal bets_100]
                (initial_state 0)) as [s|] eqn:E; simpl; [|constructor].
    exact (reachable_run keep_order _ _ _ (reachable_init keep_order 0) E).
  - apply (empty_name_blocks_round keep_order nameless_table ActStand);
      [run_it|run_it|discriminate].
Defined.

Lemma bets_at_least_minimum_witness : MIN_BET <= bet ann_hand.
Proof.
  apply (bets_at_least_minimum keep_order keep_order_perm two_dealt "Ann"
           [ann_hand] ann_hand played_two_dealt); [run_it|left].
Defined.
